(** * open_dread_rando.dread_patcher: a shallow embedding and its properties

    The module under study patches a packaged game-asset tree from a
    declarative configuration.  Python values are modelled as the code
    has them: insertion-ordered dicts as association lists, JSON trees
    as an inductive type, numbers as Python ints or IEEE doubles,
    exceptions as an error type, and the mutable editor object by
    explicit state passing. *)

From Stdlib Require Import ZArith String Ascii List Floats Lia.
From stdpp Require Import base option list gmap strings pretty.

Set Warnings "-register-all".

Local Open Scope Z_scope.
Local Open Scope string_scope.
Local Open Scope list_scope.

(** ** Exceptions and results *)

Inductive exn : Type :=
  | KeyError (key : string)
  | AttributeError (name : string)
  | TypeError
  | IndexError
  | OverflowError
  | ValueError (msg : string)
  | ValidationError
  | FileNotFoundError (path : string)
  | NotADirectoryError (path : string)
  | UnicodeEncodeError
  | RepositoryError (msg : string).

Inductive result (A : Type) : Type :=
  | Ok (a : A)
  | Raise (e : exn).
Arguments Ok {A} a.
Arguments Raise {A} e.

Definition rbind {A B} (r : result A) (k : A -> result B) : result B :=
  match r with
  | Ok a => k a
  | Raise e => Raise e
  end.

Declare Scope result_scope.
Delimit Scope result_scope with res.
Notation "x <-? r ; k" := (rbind r (fun x => k))
  (at level 100, r at next level, right associativity) : result_scope.

Definition is_ok {A} (r : result A) : bool :=
  match r with Ok _ => true | Raise _ => false end.

(** ** Python strings *)

Module PyStr.

(** [sep.join(parts)] *)
Fixpoint join (sep : string) (parts : list string) : string :=
  match parts with
  | [] => EmptyString
  | [p] => p
  | p :: rest => p +:+ sep +:+ join sep rest
  end.

(** The scan of [str.replace]: [skip] counts the characters of a match
    that are still to be passed over. *)
Fixpoint replace_scan (old new : string) (skip : nat) (s : string) : string :=
  match s with
  | EmptyString => EmptyString
  | String c s' =>
      match skip with
      | S k => replace_scan old new k s'
      | O =>
          if String.prefix old s
          then new +:+ replace_scan old new (String.length old - 1) s'
          else String c (replace_scan old new O s')
      end
  end.

Fixpoint intersperse (new : string) (s : string) : string :=
  match s with
  | EmptyString => EmptyString
  | String c s' => String c (new +:+ intersperse new s')
  end.

(** [s.replace(old, new)]: every non-overlapping occurrence, leftmost
    first; an empty [old] matches between all characters. *)
Definition replace (old new s : string) : string :=
  match old with
  | EmptyString => new +:+ intersperse new s
  | String _ _ => replace_scan old new O s
  end.

Fixpoint contains_char (c : ascii) (s : string) : bool :=
  match s with
  | EmptyString => false
  | String c' s' => Ascii.eqb c c' || contains_char c s'
  end.

Definition hex_digit (n : nat) : ascii :=
  if Nat.ltb n 10 then ascii_of_nat (48 + n) else ascii_of_nat (87 + n).

Definition squote : ascii := "'"%char.
Definition dquote : ascii := "034"%char.
Definition backslash : ascii := "\"%char.

Definition repr_char (quote c : ascii) : string :=
  let n := nat_of_ascii c in
  if Ascii.eqb c quote || Ascii.eqb c backslash then String backslash (String c EmptyString)
  else if Nat.eqb n 9 then String backslash "t"
  else if Nat.eqb n 10 then String backslash "n"
  else if Nat.eqb n 13 then String backslash "r"
  else if Nat.ltb n 32 || Nat.eqb n 127
       then String backslash
              (String "x" (String (hex_digit (Nat.div n 16))
                                  (String (hex_digit (Nat.modulo n 16)) EmptyString)))
  else String c EmptyString.

Fixpoint repr_body (quote : ascii) (s : string) : string :=
  match s with
  | EmptyString => EmptyString
  | String c s' => repr_char quote c +:+ repr_body quote s'
  end.

(** [repr(s)] of a str: single quotes unless the text has a single quote
    and no double quote; bytes above 127 (UTF-8 text) are kept. *)
Definition repr (s : string) : string :=
  let quote := if contains_char squote s && negb (contains_char dquote s)
               then dquote else squote in
  String quote (repr_body quote s +:+ String quote EmptyString).

(** [str(d)] of a dict from str to str. *)
Definition str_dict (d : list (string * string)) : string :=
  "{" +:+ join ", " (map (fun kv => repr (fst kv) +:+ ": " +:+ repr (snd kv)) d) +:+ "}".

(** [str(n)] of an int. *)
Definition str_int (n : Z) : string := pretty n.

End PyStr.

(** ** Python dicts: insertion-ordered association lists *)

Module PyDict.
Section Dict.
Context {A : Type}.

Fixpoint get (k : string) (d : list (string * A)) : option A :=
  match d with
  | [] => None
  | (k', v) :: d' => if String.eqb k' k then Some v else get k d'
  end.

(** [d[k] = v]: an existing key keeps its position, a new key goes last. *)
Fixpoint set (k : string) (v : A) (d : list (string * A)) : list (string * A) :=
  match d with
  | [] => [(k, v)]
  | (k', v') :: d' =>
      if String.eqb k' k then (k', v) :: d' else (k', v') :: set k v d'
  end.

(** [d.pop(k, None)] *)
Fixpoint pop (k : string) (d : list (string * A)) : list (string * A) :=
  match d with
  | [] => []
  | (k', v') :: d' => if String.eqb k' k then d' else (k', v') :: pop k d'
  end.

Definition mem (k : string) (d : list (string * A)) : bool :=
  match get k d with Some _ => true | None => false end.

(** [d[k]] *)
Definition getitem (k : string) (d : list (string * A)) : result A :=
  match get k d with
  | Some v => Ok v
  | None => Raise (KeyError k)
  end.

End Dict.
End PyDict.

(** ** Python numbers and JSON trees *)

Inductive pynum : Type :=
  | PInt (z : Z)
  | PFloat (f : float).

Module PyNum.

(** [float(z)] of an int: nearest double, ties to even; an int beyond the
    range of doubles raises OverflowError. *)
Definition float_of_int (z : Z) : result float :=
  let f := SF2Prim (binary_normalize prec emax z 0 false) in
  if PrimFloat.is_infinity f then Raise OverflowError else Ok f.

(** [n * c] for a float constant [c]: the result is always a float. *)
Definition mul_float (n : pynum) (c : float) : result pynum :=
  match n with
  | PInt z => (f <-? float_of_int z; Ok (PFloat (f * c)%float))%res
  | PFloat f => Ok (PFloat (f * c)%float)
  end.

(** [n > 1] *)
Definition gt_one (n : pynum) : bool :=
  match n with
  | PInt z => (1 <? z)%Z
  | PFloat f => (1 <? f)%float
  end.

(** [n <= 1] *)
Definition le_one (n : pynum) : bool :=
  match n with
  | PInt z => (z <=? 1)%Z
  | PFloat f => (f <=? 1)%float
  end.

End PyNum.

Inductive json : Type :=
  | JNull
  | JBool (b : bool)
  | JNum (n : pynum)
  | JStr (s : string)
  | JList (l : list json)
  | JDict (d : list (string * json)).

Inductive selector : Type :=
  | Key (k : string)
  | Index (i : nat).

Module Json.

(** [j[k]] for a str key. *)
Definition getitem (k : string) (j : json) : result json :=
  match j with
  | JDict d => PyDict.getitem k d
  | _ => Raise TypeError
  end.

(** [j[i]] for an int index. *)
Definition getindex (i : nat) (j : json) : result json :=
  match j with
  | JList l => match l !! i with Some v => Ok v | None => Raise IndexError end
  | JDict _ => Raise (KeyError (pretty i))
  | JStr s => if Nat.ltb i (String.length s)
              then Ok (JStr (String.substring i 1 s)) else Raise IndexError
  | _ => Raise TypeError
  end.

(** [j[k] = v] for a str key. *)
Definition setitem (k : string) (v : json) (j : json) : result json :=
  match j with
  | JDict d => Ok (JDict (PyDict.set k v d))
  | _ => Raise TypeError
  end.

Definition select (sel : selector) (j : json) : result json :=
  match sel with
  | Key k => getitem k j
  | Index i => getindex i j
  end.

(** Writes the new value of a child back into its parent, which is what
    a mutation through an alias of the child does. *)
Definition store (sel : selector) (v : json) (j : json) : result json :=
  match sel, j with
  | Key k, JDict d => Ok (JDict (PyDict.set k v d))
  | Index i, JList l => if Nat.ltb i (length l) then Ok (JList (<[i:=v]> l)) else Raise IndexError
  | _, _ => Raise TypeError
  end.

(** [j[s1][s2]...] *)
Fixpoint getpath (path : list selector) (j : json) : result json :=
  match path with
  | [] => Ok j
  | sel :: rest => (c <-? select sel j; getpath rest c)%res
  end.

(** The object reached by [path] is replaced by [f] of it: the effect,
    seen from the root, of a mutation of that object. *)
Fixpoint update (path : list selector) (f : json -> result json) (j : json) : result json :=
  match path with
  | [] => f j
  | sel :: rest =>
      (c <-? select sel j;
       c' <-? update rest f c;
       store sel c' j)%res
  end.

(** Attribute access on a Container, the parsed form of a structured
    record: its fields are read and written as attributes. *)
Definition getattr (name : string) (j : json) : result json :=
  match j with
  | JDict d =>
      match PyDict.get name d with
      | Some v => Ok v
      | None => Raise (AttributeError name)
      end
  | _ => Raise (AttributeError name)
  end.

Definition setattr (name : string) (v : json) (j : json) : result json :=
  match j with
  | JDict d => Ok (JDict (PyDict.set name v d))
  | _ => Raise (AttributeError name)
  end.

(** [j.pop(k, None)] *)
Definition pop (k : string) (j : json) : result json :=
  match j with
  | JDict d => Ok (JDict (PyDict.pop k d))
  | JList _ => Raise TypeError
  | _ => Raise (AttributeError "pop")
  end.

End Json.

(** ** The configuration

    [patch] validates the configuration against the schema before it
    reads it, so the records carry the fields the code reads.  An actor
    reference stays a dict from str to str: the code prints it whole. *)

Definition actor_reference : Type := list (string * string).

Record Elevator : Type := {
  teleporter : actor_reference;
  destination : actor_reference
}.

Record Pickup : Type := {
  pickup_actor : actor_reference;
  item_id : string;
  quantity : pynum;
  caption : string
}.

Record Configuration : Type := {
  starting_items : list (string * Z);
  starting_location : actor_reference;
  elevators : option (list Elevator);
  pickups : list Pickup
}.

(** The companion files that the module reads from its own directory:
    data of the installation, taken as given. *)
Record Assets : Type := {
  (** what [jsonschema.validate] with schema.json accepts *)
  schema_accepts : Configuration -> bool;
  (** the parsed template_powerup_bmsad.json *)
  template_powerup_bmsad : json;
  (** the bytes of randomizer_powerup.lua *)
  randomizer_powerup_lua : string;
  (** the text of custom_init.lua *)
  custom_init_lua : string
}.

Definition path_for_level (level_name : string) : string :=
  "maps/levels/c10_samus/" +:+ level_name +:+ "/" +:+ level_name.

(** ** The script injector *)

Definition _wrap (v : string) : string :=
  String PyStr.dquote (v +:+ String PyStr.dquote EmptyString).

Definition inventory_line (item : string * Z) : string :=
  fst item +:+ " = " +:+ PyStr.str_int (snd item) +:+ ",".

Definition placeholder (key : string) : string :=
  "TEMPLATE(" +:+ String PyStr.dquote (key +:+ String PyStr.dquote ")").

(** [create_custom_init], given the text of custom_init.lua. *)
Definition create_custom_init (template : string) (inventory : list (string * Z))
    (starting_location : actor_reference) : result string :=
  (scenario <-? PyDict.getitem "scenario" starting_location;
   actor <-? PyDict.getitem "actor" starting_location;
   let replacement :=
     [ ("new_game_inventory", PyStr.join (String "010"%char EmptyString) (map inventory_line inventory));
       ("starting_scenario", _wrap scenario);
       ("starting_actor", _wrap actor) ] in
   Ok (fold_left (fun code kc => PyStr.replace (placeholder (fst kc)) (snd kc) code)
                 replacement template))%res.

(** ** The item-specific parameters of a pickup *)

(** [params[name]["value"] = v] *)
Definition set_param_value (name : string) (v : json) (params : json) : result json :=
  Json.update [Key name] (Json.setitem "value" v) params.

(** The branch on the item id: the item id and the quantity as rewritten,
    and the parameters after the item's own assignments. *)
Definition item_overrides (item : string) (qty : pynum) (params : json)
  : result (string * pynum * json) :=
  if String.eqb item "ITEM_ENERGY_TANKS" then
    (qty' <-? PyNum.mul_float qty 100;
     p <-? set_param_value "Param4" (JStr "Full") params;
     p <-? set_param_value "Param5" (JStr "fCurrentLife") p;
     p <-? set_param_value "Param6" (JStr "LIFE") p;
     Ok ("fMaxLife", qty', p))%res
  else if String.eqb item "ITEM_WEAPON_MISSILE_MAX"
          || String.eqb item "ITEM_WEAPON_POWER_BOMB_MAX" then
    (p <-? set_param_value "Param4" (JStr "Custom") params;
     p <-? set_param_value "Param5" (JStr (PyStr.replace "_MAX" "_CURRENT" item)) p;
     p <-? set_param_value "Param8" (JStr "guicallbacks.OnSecondaryGunsFire") p;
     Ok (item, qty, p))%res
  else Ok (item, qty, params).

Definition param13 (qty : pynum) : json :=
  JDict [("type", JStr "f"); ("value", JNum qty)].

(** What the pickup loop does to [set_custom_params], the parameter dict
    of the first function of the PICKABLE component. *)
Definition set_custom_params (item : string) (qty : pynum) (params : json) : result json :=
  (o <-? item_overrides item qty params;
   let '(item', qty', p) := o in
   p <-? set_param_value "Param1" (JStr item') p;
   p <-? set_param_value "Param2" (JNum qty') p;
   if PyNum.gt_one qty' then Json.setitem "Param13" (param13 qty') p else Ok p)%res.

Definition model_dependencies : list string :=
  [ "actors/items/itemsphere/animations/relax.bcskla";
    "actors/items/itemsphere/charclasses/timeline.bmsas";
    "actors/items/itemsphere/collisions/itemsphere.bmscd";
    "actors/items/itemsphere/fx/impact.bcptl";
    "actors/items/itemsphere/fx/impact_itemsphere.bcmdl";
    "actors/items/itemsphere/fx/impact_itemsphere.bcskla";
    "actors/items/itemsphere/fx/imats/impact_itemsphere_itemsphere.bsmat";
    "actors/items/itemsphere/models/itemsphere.bcmdl";
    "actors/items/itemsphere/models/imats/itemsphere_mp_opaque_01.bsmat" ].

Definition powerup_name (i : nat) : string := "randomizer_powerup_" +:+ pretty i.

Definition powerup_path (i : nat) : string :=
  "actors/items/randomizer_powerup/charclasses/randomizer_powerup_" +:+ pretty i +:+ ".bmsad".

Definition pickable_path : list selector :=
  [Key "property"; Key "components"; Key "PICKABLE"].

Definition params_path : list selector :=
  [Key "functions"; Index 0; Key "params"].

(** The actor definition of pickup [i]: the copy of the template with its
    name, captions and parameters set. *)
Definition new_template (template_bmsad : json) (i : nat) (pickup : Pickup) : result json :=
  (t <-? Json.setitem "name" (JStr (powerup_name i)) template_bmsad;
   PICKABLE <-? Json.getpath pickable_path t;
   PICKABLE <-? Json.update [Key "fields"; Key "fields"]
                  (Json.setitem "sOnPickCaption" (JStr (caption pickup))) PICKABLE;
   PICKABLE <-? Json.update [Key "fields"; Key "fields"]
                  (Json.setitem "sOnPickTankUnknownCaption" (JStr (caption pickup))) PICKABLE;
   params <-? Json.getpath params_path PICKABLE;
   params <-? set_custom_params (item_id pickup) (quantity pickup) params;
   PICKABLE <-? Json.update params_path (fun _ => Ok params) PICKABLE;
   Json.update pickable_path (fun _ => Ok PICKABLE) t)%res.

(** ** Resources

    A scene (Brfld) is a tree from layer name to actor name to actor; an
    actor is a Container.  Resources of other formats keep their raw
    tree. *)

Record Brfld : Type := {
  layers : list (string * list (string * json))
}.

Inductive BaseResource : Type :=
  | ResBrfld (level : Brfld)
  | ResBmsad (raw : json) (game : string)
  | ResOther (raw : json).

(** [level.actors_for_layer(name)] *)
Definition actors_for_layer (level : BaseResource) (name : string)
  : result (list (string * json)) :=
  match level with
  | ResBrfld b => PyDict.getitem name (layers b)
  | _ => Raise (AttributeError "actors_for_layer")
  end.

(** The scene after actor [name] of [layer] became [actor]; the other
    actors and layers are as they were. *)
Definition with_actor (level : BaseResource) (layer name : string) (actor : json)
  : BaseResource :=
  match level with
  | ResBrfld b =>
      match PyDict.get layer (layers b) with
      | Some actors =>
          ResBrfld {| layers := PyDict.set layer (PyDict.set name actor actors) (layers b) |}
      | None => level
      end
  | _ => level
  end.

(** ** The repository

    [FileTreeEditor], the base class of the editor, belongs to the
    library of the file formats.  Its state is known here by the calls made on
    it (latest first); what a call answers, given the calls before it, is
    a parameter of the development. *)

Inductive asset_data : Type :=
  | DataBytes (b : string)
  | DataResource (r : BaseResource).

(** The [in_pkgs] argument: a set, or the iterable that [find_pkgs]
    returned, which the callee runs through. *)
Inductive in_pkgs_arg : Type :=
  | PkgsSet (pkgs : gset string)
  | PkgsOf (name : string).

Inductive call : Type :=
  | DoesAssetExists (name : string)
  | GetRawAsset (name : string)
  | GetParsedAsset (name : string)
  | FindPkgs (name : string)
  | AddNewAsset (name : string) (data : asset_data) (in_pkgs : in_pkgs_arg)
  | ReplaceAsset (name : string) (data : asset_data)
  | EnsurePresent (pkg name : string)
  | SaveModifiedPkgs (out : string).

Record Repository : Type := {
  does_asset_exists : list call -> string -> bool;
  get_raw_asset : list call -> string -> result string;
  get_parsed_asset : list call -> string -> result BaseResource;
  find_pkgs : list call -> string -> result (list string);
  add_new_asset : list call -> string -> asset_data -> in_pkgs_arg -> result unit;
  replace_asset : list call -> string -> asset_data -> result unit;
  ensure_present : list call -> string -> string -> result unit;
  save_modified_pkgs : list call -> string -> result unit;
  target_game : string
}.

Definition is_mutation (c : call) : bool :=
  match c with
  | AddNewAsset _ _ _ | ReplaceAsset _ _ | EnsurePresent _ _ | SaveModifiedPkgs _ => true
  | _ => false
  end.

(** ** The editor: the repository with a cache of parsed resources *)

Record PatcherEditor : Type := {
  calls : list call;
  memory_files : list (string * BaseResource)
}.

(** [PatcherEditor(root)] *)
Definition new_editor : PatcherEditor := {| calls := []; memory_files := [] |}.

(** A method of the editor: a result and the editor as the call left it,
    also when it raises. *)
Definition M (A : Type) : Type := PatcherEditor -> result A * PatcherEditor.

Definition ret {A} (a : A) : M A := fun s => (Ok a, s).

Definition bind {A B} (m : M A) (k : A -> M B) : M B :=
  fun s =>
    match m s with
    | (Ok a, s') => k a s'
    | (Raise e, s') => (Raise e, s')
    end.

Definition lift {A} (r : result A) : M A := fun s => (r, s).

Declare Scope editor_scope.
Delimit Scope editor_scope with ed.
Notation "x <- m ;; k" := (bind m (fun x => k))
  (at level 100, m at next level, right associativity) : editor_scope.
Notation "m ;; k" := (bind m (fun _ => k))
  (at level 100, right associativity) : editor_scope.

(** [for x in xs: body(x)] *)
Fixpoint for_each {A} (xs : list A) (body : A -> M unit) : M unit :=
  match xs with
  | [] => ret tt
  | x :: rest => (body x ;; for_each rest body)%ed
  end.

Definition get_memory_files : M (list (string * BaseResource)) :=
  fun s => (Ok (memory_files s), s).

Definition set_memory_files (files : list (string * BaseResource)) : M unit :=
  fun s => (Ok tt, {| calls := calls s; memory_files := files |}).

(** A call on the base class: it answers from the calls made so far and
    joins them. *)
Definition invoke {A} (c : call) (answer : list call -> result A) : M A :=
  fun s => (answer (calls s), {| calls := c :: calls s; memory_files := memory_files s |}).

Section Editor.
Context (repo : Repository) (assets : Assets).

Definition editor_does_asset_exists (name : string) : M bool :=
  invoke (DoesAssetExists name) (fun h => Ok (does_asset_exists repo h name)).

Definition editor_get_raw_asset (name : string) : M string :=
  invoke (GetRawAsset name) (fun h => get_raw_asset repo h name).

Definition editor_get_parsed_asset (name : string) : M BaseResource :=
  invoke (GetParsedAsset name) (fun h => get_parsed_asset repo h name).

Definition editor_find_pkgs (name : string) : M (list string) :=
  invoke (FindPkgs name) (fun h => find_pkgs repo h name).

Definition editor_add_new_asset (name : string) (data : asset_data) (in_pkgs : in_pkgs_arg)
  : M unit :=
  invoke (AddNewAsset name data in_pkgs) (fun h => add_new_asset repo h name data in_pkgs).

Definition editor_replace_asset (name : string) (data : asset_data) : M unit :=
  invoke (ReplaceAsset name data) (fun h => replace_asset repo h name data).

Definition editor_ensure_present (pkg name : string) : M unit :=
  invoke (EnsurePresent pkg name) (fun h => ensure_present repo h pkg name).

Definition editor_save_modified_pkgs (out : string) : M unit :=
  invoke (SaveModifiedPkgs out) (fun h => save_modified_pkgs repo h out).

(** *** create_init_copy *)

Definition original_init : string := "system/scripts/original_init.lc".
Definition init_lc : string := "system/scripts/init.lc".

Definition create_init_copy : M unit :=
  (present <- editor_does_asset_exists original_init ;;
   if negb present then
     original_lc <- editor_get_raw_asset init_lc ;;
     editor_add_new_asset original_init (DataBytes original_lc) (PkgsOf init_lc)
   else ret tt)%ed.

(** *** PatcherEditor.get_file, get_scenario, flush_modified_assets *)

Definition get_file (path : string) : M BaseResource :=
  (files <- get_memory_files ;;
   (if negb (PyDict.mem path files) then
      parsed <- editor_get_parsed_asset path ;;
      files <- get_memory_files ;;
      set_memory_files (PyDict.set path parsed files)
    else ret tt) ;;
   files <- get_memory_files ;;
   lift (PyDict.getitem path files))%ed.

Definition get_scenario (name : string) : M BaseResource :=
  get_file (path_for_level name +:+ ".brfld").

Definition flush_modified_assets : M unit :=
  (files <- get_memory_files ;;
   for_each files (fun item => editor_replace_asset (fst item) (DataResource (snd item))) ;;
   set_memory_files [])%ed.

(** The cached scene of [scenario] becomes [level]: a mutation of the
    object that the cache holds. *)
Definition store_scenario (scenario : string) (level : BaseResource) : M unit :=
  (files <- get_memory_files ;;
   set_memory_files (PyDict.set (path_for_level scenario +:+ ".brfld") level files))%ed.

(** *** patch_elevators *)

Definition not_a_teleporter (ref : actor_reference) : exn :=
  ValueError ("Actor " +:+ PyStr.str_dict ref +:+ " is not a teleporter").

(** [actor.pComponents.USABLE] inside the try: an AttributeError becomes
    the ValueError, any other exception passes. *)
Definition usable_of (ref : actor_reference) (actor : json) : result json :=
  match (c <-? Json.getattr "pComponents" actor; Json.getattr "USABLE" c)%res with
  | Ok usable => Ok usable
  | Raise (AttributeError _) => Raise (not_a_teleporter ref)
  | Raise e => Raise e
  end.

(** A mutation of the object [actor.pComponents.USABLE], seen from the
    actor. *)
Definition update_usable (f : json -> result json) (actor : json) : result json :=
  Json.update [Key "pComponents"; Key "USABLE"] f actor.

Definition patch_elevator (elevator : Elevator) : M unit :=
  (scenario <- lift (PyDict.getitem "scenario" (teleporter elevator)) ;;
   level <- get_scenario scenario ;;
   layer <- lift (PyDict.getitem "layer" (teleporter elevator)) ;;
   actors <- lift (actors_for_layer level layer) ;;
   name <- lift (PyDict.getitem "actor" (teleporter elevator)) ;;
   actor <- lift (PyDict.getitem name actors) ;;
   _ <- lift (usable_of (teleporter elevator) actor) ;;
   dest_scenario <- lift (PyDict.getitem "scenario" (destination elevator)) ;;
   actor1 <- lift (update_usable (Json.setattr "sScenarioName" (JStr dest_scenario)) actor) ;;
   store_scenario scenario (with_actor level layer name actor1) ;;
   dest_actor <- lift (PyDict.getitem "actor" (destination elevator)) ;;
   actor2 <- lift (update_usable (Json.setattr "sTargetSpawnPoint" (JStr dest_actor)) actor1) ;;
   store_scenario scenario (with_actor level layer name actor2))%ed.

Definition patch_elevators (elevators_config : list Elevator) : M unit :=
  for_each elevators_config patch_elevator.

(** *** patch_pickups *)

Definition base_bmsat : string := "system/animtrees/base.bmsat".
Definition timeline_bmsas : string := "actors/items/itemsphere/charclasses/timeline.bmsas".
Definition powerup_lua_path : string :=
  "actors/items/randomizer_powerup/scripts/randomizer_powerup.lc".

(** The body of [for level_pkg in pkgs_for_level]. *)
Definition ensure_dependencies (level_pkg : string) : M unit :=
  (editor_ensure_present level_pkg base_bmsat ;;
   editor_ensure_present level_pkg timeline_bmsas ;;
   for_each model_dependencies (fun dep => editor_ensure_present level_pkg dep))%ed.

(** [actor.pComponents.pop("LIFE", None)], seen from the actor. *)
Definition pop_life (actor : json) : result json :=
  (components <-? Json.getattr "pComponents" actor;
   components <-? Json.pop "LIFE" components;
   Json.setattr "pComponents" components actor)%res.

(** One turn of the pickup loop: pickup [i] with the groups gathered so
    far; it gives the groups gathered after it. *)
Definition patch_pickup (i : nat) (pickup : Pickup) (pkgs_for_lua : gset string)
  : M (gset string) :=
  (scenario <- lift (PyDict.getitem "scenario" (pickup_actor pickup)) ;;
   found <- editor_find_pkgs (path_for_level scenario +:+ ".brfld") ;;
   let pkgs_for_level : gset string := list_to_set found in
   let pkgs_for_lua := pkgs_for_lua ∪ pkgs_for_level in
   level <- get_scenario scenario ;;
   layer <- lift (PyDict.getitem "layer" (pickup_actor pickup)) ;;
   actors <- lift (actors_for_layer level layer) ;;
   name <- lift (PyDict.getitem "actor" (pickup_actor pickup)) ;;
   actor <- lift (PyDict.getitem name actors) ;;
   template <- lift (new_template (template_powerup_bmsad assets) i pickup) ;;
   editor_add_new_asset (powerup_path i)
     (DataResource (ResBmsad template (target_game repo))) (PkgsSet pkgs_for_level) ;;
   actor1 <- lift (Json.setattr "oActorDefLink" (JStr ("actordef:" +:+ powerup_path i)) actor) ;;
   store_scenario scenario (with_actor level layer name actor1) ;;
   actor2 <- lift (pop_life actor1) ;;
   store_scenario scenario (with_actor level layer name actor2) ;;
   for_each (elements pkgs_for_level) ensure_dependencies ;;
   ret pkgs_for_lua)%ed.

(** [for i, pickup in enumerate(pickups_config)], from index [i] on. *)
Fixpoint pickups_loop (i : nat) (pickups_config : list Pickup) (pkgs_for_lua : gset string)
  : M (gset string) :=
  match pickups_config with
  | [] => ret pkgs_for_lua
  | pickup :: rest =>
      (pkgs_for_lua <- patch_pickup i pickup pkgs_for_lua ;;
       pickups_loop (S i) rest pkgs_for_lua)%ed
  end.

Definition patch_pickups (pickups_config : list Pickup) : M unit :=
  (pkgs_for_lua <- pickups_loop 0 pickups_config ∅ ;;
   editor_add_new_asset powerup_lua_path
     (DataBytes (randomizer_powerup_lua assets)) (PkgsSet pkgs_for_lua))%ed.

End Editor.

(** ** patch *)

(** [s.encode("ascii")] *)
Definition encode_ascii (s : string) : result string :=
  if forallb (fun c => Nat.ltb (nat_of_ascii c) 128) (list_ascii_of_string s)
  then Ok s else Raise UnicodeEncodeError.

(** What the file system holds at a path. *)
Inductive fs_entry : Type :=
  | Absent
  | Directory
  | RegularFile.

(** [shutil.rmtree(path)] where the file system holds [entry]. *)
Definition rmtree (path : string) (entry : fs_entry) : result unit :=
  match entry with
  | Directory => Ok tt
  | Absent => Raise (FileNotFoundError path)
  | RegularFile => Raise (NotADirectoryError path)
  end.

Definition joinpath (path child : string) : string := path +:+ "/" +:+ child.

(** The stages of [patch] that edit in memory, the commit of the cache
    being the last of them. *)
Definition patch_edits (repo : Repository) (assets : Assets)
    (configuration : Configuration) : M unit :=
  (create_init_copy repo ;;
   script <- lift (create_custom_init (custom_init_lua assets)
                     (starting_items configuration) (starting_location configuration)) ;;
   script <- lift (encode_ascii script) ;;
   editor_replace_asset repo init_lc (DataBytes script) ;;
   match elevators configuration with
   | Some elevators_config => patch_elevators repo elevators_config
   | None => ret tt
   end ;;
   patch_pickups repo assets (pickups configuration) ;;
   flush_modified_assets repo)%ed.

(** The stages of [patch] once the editor is made: the edits, then the
    removal of the old output and the export. *)
Definition patch_stages (repo : Repository) (assets : Assets) (romfs_entry : fs_entry)
    (out_romfs : string) (configuration : Configuration) : M unit :=
  (patch_edits repo assets configuration ;;
   lift (rmtree out_romfs romfs_entry) ;;
   editor_save_modified_pkgs repo out_romfs)%ed.

(** [patch(input_path, output_path, configuration)]: [open_tree] is the
    constructor of the base class, [romfs_entry] what the file system
    holds at the romfs directory of the output when the run starts. *)
Definition patch (open_tree : string -> result Repository) (assets : Assets)
    (romfs_entry : fs_entry) (input_path output_path : string)
    (configuration : Configuration) : result unit * PatcherEditor :=
  if negb (schema_accepts assets configuration) then (Raise ValidationError, new_editor)
  else
    let out_romfs := joinpath output_path "romfs" in
    match open_tree input_path with
    | Raise e => (Raise e, new_editor)
    | Ok repo => patch_stages repo assets romfs_entry out_romfs configuration new_editor
    end.

(** ** A repository in memory

    Modelled from the spec: the Resource Repository, an external
    collaborator of which only the interface is described (raw and parsed
    lookup, existence checks, container-group membership, insertion
    targeted at container groups, "ensure present", export).  It is the
    repository at which the general statements below are instantiated. *)

Module MemoryRepo.

Record entry : Type := {
  raw : string;
  parsed : BaseResource;
  groups : list string
}.

Record store : Type := {
  entries : list (string * entry);
  ensured : list (string * string);
  exported : list string
}.

Definition entry_of_data (data : asset_data) : entry :=
  match data with
  | DataBytes b => {| raw := b; parsed := ResOther (JStr b); groups := [] |}
  | DataResource r => {| raw := EmptyString; parsed := r; groups := [] |}
  end.

Definition groups_of (st : store) (name : string) : result (list string) :=
  match PyDict.get name (entries st) with
  | Some e => Ok (groups e)
  | None => Raise (KeyError name)
  end.

Definition targets (st : store) (in_pkgs : in_pkgs_arg) : list string :=
  match in_pkgs with
  | PkgsSet pkgs => elements pkgs
  | PkgsOf name => match groups_of st name with Ok l => l | Raise _ => [] end
  end.

Definition step (c : call) (st : store) : store :=
  match c with
  | AddNewAsset name data in_pkgs =>
      if PyDict.mem name (entries st) then st
      else {| entries := PyDict.set name (entry_of_data data) (entries st);
              ensured := ensured st ++ map (fun pkg => (pkg, name)) (targets st in_pkgs);
              exported := exported st |}
  | ReplaceAsset name data =>
      match PyDict.get name (entries st) with
      | Some e =>
          {| entries := PyDict.set name
                          {| raw := raw (entry_of_data data);
                             parsed := parsed (entry_of_data data);
                             groups := groups e |} (entries st);
             ensured := ensured st;
             exported := exported st |}
      | None => st
      end
  | EnsurePresent pkg name =>
      {| entries := entries st;
         ensured := ensured st ++ [(pkg, name)];
         exported := exported st |}
  | SaveModifiedPkgs out =>
      {| entries := entries st; ensured := ensured st; exported := exported st ++ [out] |}
  | _ => st
  end.

(** The store after the calls of [h] (latest first), from [init]. *)
Definition replay (init : store) (h : list call) : store := fold_right step init h.

Definition repository (init : store) (game : string) : Repository := {|
  does_asset_exists h name := PyDict.mem name (entries (replay init h));
  get_raw_asset h name :=
    match PyDict.get name (entries (replay init h)) with
    | Some e => Ok (raw e)
    | None => Raise (ValueError ("Unknown asset_id: " +:+ name))
    end;
  get_parsed_asset h name :=
    match PyDict.get name (entries (replay init h)) with
    | Some e => Ok (parsed e)
    | None => Raise (ValueError ("Unknown asset_id: " +:+ name))
    end;
  find_pkgs h name := groups_of (replay init h) name;
  add_new_asset h name data in_pkgs :=
    if PyDict.mem name (entries (replay init h))
    then Raise (ValueError (name +:+ " already exists")) else Ok tt;
  replace_asset h name data :=
    if PyDict.mem name (entries (replay init h))
    then Ok tt else Raise (ValueError ("Unknown asset: " +:+ name));
  ensure_present h pkg name := Ok tt;
  save_modified_pkgs h out := Ok tt;
  target_game := game
|}.

End MemoryRepo.

(** ** Sample data *)

Module Sample.

Definition slot (type : string) (value : json) : json :=
  JDict [("type", JStr type); ("value", value)].

Definition params : json :=
  JDict [ ("Param1", slot "s" (JStr "ITEM_NONE"));
          ("Param2", slot "f" (JNum (PFloat 0)));
          ("Param4", slot "s" (JStr "Set"));
          ("Param5", slot "s" (JStr "NONE"));
          ("Param6", slot "s" (JStr "NONE"));
          ("Param8", slot "s" (JStr "NONE")) ].

Definition template : json :=
  JDict [ ("name", JStr "powerup");
          ("property",
           JDict [ ("components",
             JDict [ ("PICKABLE",
               JDict [ ("fields",
                         JDict [ ("fields",
                           JDict [ ("sOnPickCaption", JStr "caption");
                                   ("sOnPickFX", JStr "fx") ]) ]);
                       ("functions",
                         JList [ JDict [ ("name", JStr "SetCustomParams");
                                         ("params", params) ] ]) ]) ]) ]) ].

Definition usable : json :=
  JDict [ ("sScenarioName", JStr "s010_cave");
          ("sTargetSpawnPoint", JStr "StartPoint0");
          ("sUsableEntity", JStr "elevator") ].

Definition elevator_actor : json :=
  JDict [ ("sName", JStr "elevator_up");
          ("pComponents", JDict [ ("USABLE", usable); ("AUDIO", JDict []) ]) ].

Definition tank_actor : json :=
  JDict [ ("sName", JStr "ItemSphere_000");
          ("oActorDefLink", JStr "actordef:actors/items/itemsphere/charclasses/itemsphere.bmsad");
          ("pComponents", JDict [ ("LIFE", JDict []); ("AUDIO", JDict []) ]) ].

Definition statue_actor : json :=
  JDict [ ("sName", JStr "statue");
          ("pComponents", JDict [ ("AUDIO", JDict []) ]) ].

Definition cave : Brfld :=
  {| layers := [ ("default", [ ("elevator_up", elevator_actor);
                               ("ItemSphere_000", tank_actor);
                               ("statue", statue_actor) ]) ] |}.

Definition magma : Brfld :=
  {| layers := [ ("default", [ ("ItemSphere_001", tank_actor) ]) ] |}.

Definition cave_path : string := "maps/levels/c10_samus/s010_cave/s010_cave.brfld".
Definition magma_path : string := "maps/levels/c10_samus/s020_magma/s020_magma.brfld".

Definition tree : MemoryRepo.store :=
  {| MemoryRepo.entries :=
       [ (init_lc,
          {| MemoryRepo.raw := "Game.Init()";
             MemoryRepo.parsed := ResOther (JStr "Game.Init()");
             MemoryRepo.groups := ["packs/system/system.pkg"] |});
         (cave_path,
          {| MemoryRepo.raw := EmptyString;
             MemoryRepo.parsed := ResBrfld cave;
             MemoryRepo.groups := ["packs/maps/s010_cave/s010_cave.pkg";
                                   "packs/maps/s010_cave/subareas/subareapack_0.pkg"] |});
         (magma_path,
          {| MemoryRepo.raw := EmptyString;
             MemoryRepo.parsed := ResBrfld magma;
             MemoryRepo.groups := ["packs/maps/s020_magma/s020_magma.pkg"] |}) ];
     MemoryRepo.ensured := [];
     MemoryRepo.exported := [] |}.

Definition repo : Repository := MemoryRepo.repository tree "dread".

Definition custom_init : string :=
  "Init.tNewGameInventory = {" +:+ placeholder "new_game_inventory" +:+ "}; " +:+
  "Init.sStartingScenario = " +:+ placeholder "starting_scenario" +:+ "; " +:+
  "Init.sStartingActor = " +:+ placeholder "starting_actor".

Definition assets : Assets :=
  {| schema_accepts := fun _ => true;
     template_powerup_bmsad := template;
     randomizer_powerup_lua := "RandomizerPowerup = {}";
     custom_init_lua := custom_init |}.

Definition cave_elevator : actor_reference :=
  [("scenario", "s010_cave"); ("layer", "default"); ("actor", "elevator_up")].

Definition cave_statue : actor_reference :=
  [("scenario", "s010_cave"); ("layer", "default"); ("actor", "statue")].

Definition magma_start : actor_reference :=
  [("scenario", "s020_magma"); ("actor", "StartPoint0")].

Definition warp : Elevator :=
  {| teleporter := cave_elevator; destination := magma_start |}.

Definition bad_warp : Elevator :=
  {| teleporter := cave_statue; destination := magma_start |}.

Definition tank (qty : pynum) : Pickup :=
  {| pickup_actor := [("scenario", "s010_cave"); ("layer", "default"); ("actor", "ItemSphere_000")];
     item_id := "ITEM_ENERGY_TANKS";
     quantity := qty;
     caption := "Energy Tank acquired." |}.

Definition missiles : Pickup :=
  {| pickup_actor := [("scenario", "s020_magma"); ("layer", "default"); ("actor", "ItemSphere_001")];
     item_id := "ITEM_WEAPON_MISSILE_MAX";
     quantity := PInt 2;
     caption := "Missile Tank acquired." |}.

Definition configuration : Configuration :=
  {| starting_items := [("ITEM_MAX_LIFE", 99); ("ITEM_CURRENT_LIFE", 99)];
     starting_location := magma_start;
     elevators := Some [warp];
     pickups := [tank (PInt 1); missiles] |}.

(** The editor once the scene of the cave has been read. *)
Definition cave_cached : PatcherEditor :=
  {| calls := [GetParsedAsset cave_path];
     memory_files := [(cave_path, ResBrfld cave)] |}.

End Sample.

(** ** Notions used in the statements *)

(** [params[name]["value"]] *)
Definition param_value (name : string) (params : json) : result json :=
  Json.getpath [Key name; Key "value"] params.

(** The keys of a dict, in order. *)
Definition keys (j : json) : list string :=
  match j with
  | JDict d => map fst d
  | _ => []
  end.

(** The item id and the quantity that the parameters receive: the
    energy tank is renamed and counted in units of life. *)
Definition rewritten_item (item : string) : string :=
  if String.eqb item "ITEM_ENERGY_TANKS" then "fMaxLife" else item.

Definition rewritten_quantity (item : string) (qty : pynum) : result pynum :=
  if String.eqb item "ITEM_ENERGY_TANKS" then PyNum.mul_float qty 100 else Ok qty.

(** [name] is a parameter of the dict [d]: an entry that is itself a
    dict, whose value can be assigned. *)
Definition has_slot (d : list (string * json)) (name : string) : bool :=
  match PyDict.get name d with
  | Some (JDict _) => true
  | _ => false
  end.

(** The parameters that the code assigns for an item. *)
Definition assigned_params (item : string) : list string :=
  (if String.eqb item "ITEM_ENERGY_TANKS" then ["Param4"; "Param5"; "Param6"]
   else if String.eqb item "ITEM_WEAPON_MISSILE_MAX"
           || String.eqb item "ITEM_WEAPON_POWER_BOMB_MAX"
        then ["Param4"; "Param5"; "Param8"]
        else [])
  ++ ["Param1"; "Param2"].

(** The calls that a method adds are all among [Q]. *)
Definition emits {A} (Q : call -> bool) (m : M A) : Prop :=
  forall s, exists new,
    calls (snd (m s)) = new ++ calls s /\ forallb Q new = true.

Definition is_parse (c : call) : bool :=
  match c with GetParsedAsset _ => true | _ => false end.

Definition is_parse_of (path : string) (c : call) : bool :=
  match c with GetParsedAsset p => String.eqb p path | _ => false end.

Definition is_replace (c : call) : bool :=
  match c with ReplaceAsset _ _ => true | _ => false end.

Definition is_save (c : call) : bool :=
  match c with SaveModifiedPkgs _ => true | _ => false end.

(** How often the repository was asked to parse [path]. *)
Definition parses (path : string) (h : list call) : nat :=
  length (List.filter (is_parse_of path) h).

(** A path is parsed only to enter the cache. *)
Definition parsed_into_cache (s : PatcherEditor) : Prop :=
  forall path,
    (parses path (calls s) <= if PyDict.mem path (memory_files s) then 1 else 0)%nat.

Definition parsed_at_most_once (s : PatcherEditor) : Prop :=
  forall path, (parses path (calls s) <= 1)%nat.

(** A method that keeps [parsed_into_cache] as long as it does not raise,
    and never parses a path twice. *)
Definition caches_parses {A} (m : M A) : Prop :=
  forall s, parsed_into_cache s ->
    parsed_at_most_once (snd (m s)) /\
    (is_ok (fst (m s)) = true -> parsed_into_cache (snd (m s))).

(** A method that, entered with [parsed_into_cache], parses no path a
    second time. *)
Definition never_reparses {A} (m : M A) : Prop :=
  forall s, parsed_into_cache s -> parsed_at_most_once (snd (m s)).

(** The repository takes each of the writes of a commit, in turn. *)
Fixpoint writes_accepted (repo : Repository) (h : list call)
    (files : list (string * BaseResource)) : bool :=
  match files with
  | [] => true
  | item :: rest =>
      is_ok (replace_asset repo h (fst item) (DataResource (snd item)))
      && writes_accepted repo (ReplaceAsset (fst item) (DataResource (snd item)) :: h) rest
  end.

(** The writes of a commit, latest first. *)
Definition writes_of (files : list (string * BaseResource)) : list call :=
  rev (map (fun item => ReplaceAsset (fst item) (DataResource (snd item))) files).

(** What the existence check of a repository is expected to answer: a
    question asked of it changes no answer, and an asset that it took in
    exists from then on. *)
Definition existence_laws (repo : Repository) : Prop :=
  (forall h name name',
     does_asset_exists repo (DoesAssetExists name :: h) name'
     = does_asset_exists repo h name') /\
  (forall h name data in_pkgs,
     add_new_asset repo h name data in_pkgs = Ok tt ->
     does_asset_exists repo (AddNewAsset name data in_pkgs :: h) name = true).

(** The calls of [h] that change the repository. *)
Definition mutations (h : list call) : list call := List.filter is_mutation h.

(** The actor has the component that makes it a teleporter. *)
Definition has_usable (actor : json) : bool :=
  is_ok (c <-? Json.getattr "pComponents" actor; Json.getattr "USABLE" c)%res.

(** The actor [name] of [layer] in a scene. *)
Definition actor_at (level : BaseResource) (layer name : string) : result json :=
  (actors <-? actors_for_layer level layer; PyDict.getitem name actors)%res.

(** [s.find(old)]: where [old] first occurs in [s]. *)
Definition find (old s : string) : option nat := String.index 0 old s.

(** The text that stands for the inventory: a line for each item, in
    the order of the mapping. *)
Definition inventory_text (inventory : list (string * Z)) : string :=
  PyStr.join (String "010"%char EmptyString) (map inventory_line inventory).

(** The script as the spec words it: the template in which the three
    placeholders have been replaced, one after the other. *)
Definition substituted_script (template inventory_lines scenario actor : string) : string :=
  PyStr.replace (placeholder "starting_actor") (_wrap actor)
    (PyStr.replace (placeholder "starting_scenario") (_wrap scenario)
       (PyStr.replace (placeholder "new_game_inventory") inventory_lines template)).

Definition is_add (c : call) : bool :=
  match c with AddNewAsset _ _ _ => true | _ => false end.

Definition is_find (c : call) : bool :=
  match c with FindPkgs _ => true | _ => false end.

Definition is_ensure (c : call) : bool :=
  match c with EnsurePresent _ _ => true | _ => false end.

(** The insertions among the calls [h] (latest first), oldest first:
    the name inserted and the groups aimed at. *)
Fixpoint insertions (h : list call) : list (string * in_pkgs_arg) :=
  match h with
  | [] => []
  | AddNewAsset name _ in_pkgs :: h' => insertions h' ++ [(name, in_pkgs)]
  | _ :: h' => insertions h'
  end.

(** The container groups that the repository named, oldest first: for
    each call of find_pkgs among [new], the calls made after [base], that
    was answered, the path asked for and the set of the groups. *)
Fixpoint groups_found (repo : Repository) (base new : list call)
  : list (string * gset string) :=
  match new with
  | [] => []
  | c :: new' =>
      groups_found repo base new' ++
      match c with
      | FindPkgs path =>
          match find_pkgs repo (new' ++ base) path with
          | Ok found => [(path, list_to_set found)]
          | Raise _ => []
          end
      | _ => []
      end
  end.

(** The insertions of the actor definitions of the pickups from index
    [i] on, each aimed at the groups of its scene. *)
Fixpoint powerup_insertions (i : nat) (found : list (string * gset string))
  : list (string * in_pkgs_arg) :=
  match found with
  | [] => []
  | g :: rest => (powerup_path i, PkgsSet (snd g)) :: powerup_insertions (S i) rest
  end.

(** The path of the scene of a pickup. *)
Definition scene_path (pickup : Pickup) : option string :=
  match PyDict.get "scenario" (pickup_actor pickup) with
  | Some scenario => Some (path_for_level scenario +:+ ".brfld")
  | None => None
  end.

(** ** More notions used in the statements *)

(** The parameter dict of the first function of the PICKABLE component
    of an actor definition, and the captions of the component. *)
Definition pickable_params (definition : json) : result json :=
  Json.getpath [ Key "property"; Key "components"; Key "PICKABLE";
                 Key "functions"; Index 0; Key "params" ] definition.

Definition pickable_captions (definition : json) : result json :=
  Json.getpath [ Key "property"; Key "components"; Key "PICKABLE";
                 Key "fields"; Key "fields" ] definition.

(** Along the path every index is followed by a key, so that what is
    indexed is a list and no text. *)
Fixpoint keyed (path : list selector) : bool :=
  match path with
  | [] => true
  | Key _ :: rest => keyed rest
  | Index _ :: rest =>
      match rest with
      | Key _ :: _ => keyed rest
      | _ => false
      end
  end.

(** The key under which [get_scenario] caches the scene of a scenario. *)
Definition scene_key (scenario : string) : string :=
  path_for_level scenario +:+ ".brfld".

(** [path] is the key of a scene. *)
Definition is_scene_key (path : string) : Prop :=
  exists scenario, path = scene_key scenario.

(** Every key of the cache is the key of a scene. *)
Definition scene_keys (s : PatcherEditor) : Prop :=
  Forall is_scene_key (map fst (memory_files s)).

(** Every write-back among the calls [h] is of init.lc or of a scene. *)
Definition writes_scenes_only (h : list call) : Prop :=
  forall name data, In (ReplaceAsset name data) h -> name = init_lc \/ is_scene_key name.

(** A method that keeps a property of the editor, whether it raises or
    not. *)
Definition preserves {A} (I : PatcherEditor -> Prop) (m : M A) : Prop :=
  forall s, I s -> I (snd (m s)).

(** The dependencies that the pickup loop ensures in a group, in the
    order of the calls: the package and the asset. *)
Definition dependencies_of (level_pkg : string) : list (string * string) :=
  (level_pkg, base_bmsat) :: (level_pkg, timeline_bmsas)
  :: map (fun dep => (level_pkg, dep)) model_dependencies.

(** The calls of ensure_present for a list of pairs, latest first. *)
Definition ensure_calls (todo : list (string * string)) : list call :=
  rev (map (fun item => EnsurePresent (fst item) (snd item)) todo).

(** The dependencies that the pickup loop ensures in each group of a
    scene, in the order of the calls. *)
Definition pickup_dependencies : list string :=
  base_bmsat :: timeline_bmsas :: model_dependencies.

(** The dependencies ensured among the calls [h] (latest first), oldest
    first: the group and the asset. *)
Fixpoint ensured (h : list call) : list (string * string) :=
  match h with
  | [] => []
  | EnsurePresent pkg dep :: h' => ensured h' ++ [(pkg, dep)]
  | _ :: h' => ensured h'
  end.

(** The link of an actor to the actor definition of pickup [i]. *)
Definition actordef_link (i : nat) : json := JStr ("actordef:" +:+ powerup_path i).

(** [params[name]["type"]] *)
Definition param_type (name : string) (params : json) : result json :=
  Json.getpath [Key name; Key "type"] params.

(** The path [p] leaves the path [place] on the way: the two go together
    for a while and then on with different keys, or different indices,
    so that neither leads into what the other reaches. *)
Fixpoint leaves (place p : list selector) : bool :=
  match place, p with
  | Key k :: place', Key k' :: p' => if String.eqb k k' then leaves place' p' else true
  | Index i :: place', Index i' :: p' => if Nat.eqb i i' then leaves place' p' else true
  | _, _ => false
  end.

(** The places of the template of the actor definition that the pickup
    loop assigns: the name, the two captions of the PICKABLE component
    and the parameter dict of its first function. *)
Definition edited_places : list (list selector) :=
  [ [Key "name"];
    pickable_path ++ [Key "fields"; Key "fields"; Key "sOnPickCaption"];
    pickable_path ++ [Key "fields"; Key "fields"; Key "sOnPickTankUnknownCaption"];
    pickable_path ++ params_path ].

(** The places of the parameter dict that the parameter block assigns
    for an item: the values of the item's parameters, and Param13. *)
Definition assigned_places (item : string) : list (list selector) :=
  map (fun name => [Key name; Key "value"]) (assigned_params item) ++ [[Key "Param13"]].

(** The write-backs of [name] among the calls. *)
Definition is_replace_of (name : string) (c : call) : bool :=
  match c with ReplaceAsset n _ => String.eqb n name | _ => false end.

(** The actor that a warp edit names as its teleporter: scenario, layer
    and name. *)
Definition edited_actor (elevator : Elevator) : option (string * string * string) :=
  match PyDict.get "scenario" (teleporter elevator),
        PyDict.get "layer" (teleporter elevator),
        PyDict.get "actor" (teleporter elevator) with
  | Some scenario, Some layer, Some name => Some (scenario, layer, name)
  | _, _, _ => None
  end.

(** In the cache of [s] the actor [name] of [layer] in the scene of
    [scenario] is a teleporter to the actor [dest_actor] of
    [dest_scenario]. *)
Definition warps_to (s : PatcherEditor) (scenario layer name dest_scenario dest_actor : string)
  : Prop :=
  exists level actor,
    PyDict.get (path_for_level scenario +:+ ".brfld") (memory_files s) = Some level /\
    actor_at level layer name = Ok actor /\
    Json.getpath [Key "pComponents"; Key "USABLE"; Key "sScenarioName"] actor
    = Ok (JStr dest_scenario) /\
    Json.getpath [Key "pComponents"; Key "USABLE"; Key "sTargetSpawnPoint"] actor
    = Ok (JStr dest_actor).

(** A repository that refuses to write one asset and is [repo]
    otherwise. *)
Definition refusing (repo : Repository) (refused : string) (e : exn) : Repository := {|
  does_asset_exists := does_asset_exists repo;
  get_raw_asset := get_raw_asset repo;
  get_parsed_asset := get_parsed_asset repo;
  find_pkgs := find_pkgs repo;
  add_new_asset := add_new_asset repo;
  replace_asset h name data :=
    if String.eqb name refused then Raise e else replace_asset repo h name data;
  ensure_present := ensure_present repo;
  save_modified_pkgs := save_modified_pkgs repo;
  target_game := target_game repo
|}.

(** A scene with an actor whose USABLE component is no Container and an
    actor without components, and a repository that holds it. *)
Module Cases.

Definition door_actor : json :=
  JDict [ ("sName", JStr "door");
          ("pComponents", JDict [ ("USABLE", JNull) ]) ].

(** An actor without components. *)
Definition plate_actor : json := JDict [ ("sName", JStr "plate") ].

Definition lab : Brfld :=
  {| layers := [ ("default", [ ("door", door_actor); ("plate", plate_actor) ]) ] |}.

Definition lab_path : string := "maps/levels/c10_samus/s030_baselab/s030_baselab.brfld".

Definition tree : MemoryRepo.store :=
  {| MemoryRepo.entries :=
       [ (lab_path,
          {| MemoryRepo.raw := EmptyString;
             MemoryRepo.parsed := ResBrfld lab;
             MemoryRepo.groups := ["packs/maps/s030_baselab/s030_baselab.pkg"] |}) ];
     MemoryRepo.ensured := [];
     MemoryRepo.exported := [] |}.

Definition repo : Repository := MemoryRepo.repository tree "dread".

Definition door_warp : Elevator :=
  {| teleporter := [("scenario", "s030_baselab"); ("layer", "default"); ("actor", "door")];
     destination := Sample.magma_start |}.

Definition pickup_at (name : string) : Pickup :=
  {| pickup_actor := [("scenario", "s030_baselab"); ("layer", "default"); ("actor", name)];
     item_id := "ITEM_WEAPON_MISSILE_MAX";
     quantity := PInt 2;
     caption := "Missile Tank acquired." |}.

(** The editor once the groups of the lab have been asked for and its
    scene read. *)
Definition lab_read : PatcherEditor :=
  {| calls := [GetParsedAsset lab_path; FindPkgs lab_path];
     memory_files := [(lab_path, ResBrfld lab)] |}.

(** Assets whose template of the actor definition is no dict. *)
Definition broken_assets : Assets :=
  {| schema_accepts := schema_accepts Sample.assets;
     template_powerup_bmsad := JNull;
     randomizer_powerup_lua := randomizer_powerup_lua Sample.assets;
     custom_init_lua := custom_init_lua Sample.assets |}.

End Cases.

(** * Properties *)

(** ** Dicts *)

Module PyDictFacts.
Section Facts.
Context {A : Type}.
Implicit Types (d : list (string * A)) (k : string) (v : A).

Lemma get_set_eq k v d : PyDict.get k (PyDict.set k v d) = Some v.
Proof.
  induction d as [|[k' v'] d IH]; simpl.
  - by rewrite String.eqb_refl.
  - destruct (String.eqb k' k) eqn:E; simpl; rewrite E; auto.
Qed.

Lemma get_set_ne k k' v d : k <> k' -> PyDict.get k' (PyDict.set k v d) = PyDict.get k' d.
Proof.
  intros Hne. induction d as [|[k0 v0] d IH]; simpl.
  - destruct (String.eqb k k') eqn:E; auto.
    apply String.eqb_eq in E. congruence.
  - destruct (String.eqb k0 k) eqn:E; simpl.
    + apply String.eqb_eq in E. subst k0.
      destruct (String.eqb k k') eqn:E'; auto.
      apply String.eqb_eq in E'. congruence.
    + by rewrite IH.
Qed.

Lemma set_absent k v d : PyDict.get k d = None -> PyDict.set k v d = d ++ [(k, v)].
Proof.
  induction d as [|[k0 v0] d IH]; simpl; auto.
  destruct (String.eqb k0 k); [discriminate|].
  intros H. by rewrite IH.
Qed.

Lemma keys_set_present k v d :
  PyDict.mem k d = true -> map fst (PyDict.set k v d) = map fst d.
Proof.
  unfold PyDict.mem. induction d as [|[k0 v0] d IH]; simpl; [discriminate|].
  destruct (String.eqb k0 k) eqn:E; simpl; [done|].
  intros H. by rewrite IH.
Qed.

Lemma mem_set k k' v d :
  PyDict.mem k' (PyDict.set k v d) = String.eqb k k' || PyDict.mem k' d.
Proof.
  unfold PyDict.mem. destruct (String.eqb k k') eqn:E; simpl.
  - apply String.eqb_eq in E. subst k'. by rewrite get_set_eq.
  - apply String.eqb_neq in E. by rewrite get_set_ne.
Qed.

End Facts.
End PyDictFacts.

(** ** Numbers *)

Lemma SFleb_not_SFltb (x y : spec_float) : SFleb x y = true -> SFltb y x = false.
Proof.
  assert (Hpos : forall p q, Pos.compare_cont Eq q p = CompOpp (Pos.compare_cont Eq p q)).
  { intros p q. rewrite Pos.compare_cont_antisym. reflexivity. }
  unfold SFleb, SFltb.
  destruct x as [sx| sx| |sx mx ex], y as [sy| sy| |sy my ey]; simpl;
    try discriminate; try reflexivity;
    repeat match goal with b : bool |- _ => destruct b end;
    simpl; try discriminate; try reflexivity;
    rewrite (Z.compare_antisym ex ey);
    destruct (ex ?= ey)%Z eqn:E; simpl; try discriminate; try reflexivity;
    rewrite (Hpos mx my);
    destruct (Pos.compare_cont Eq mx my); simpl; try discriminate; reflexivity.
Qed.

(** A number that is at most one is not greater than one, NaN included. *)
Lemma le_one_not_gt_one (n : pynum) : PyNum.le_one n = true -> PyNum.gt_one n = false.
Proof.
  destruct n as [z|f]; simpl.
  - intros H. apply Z.leb_le in H. apply Z.ltb_ge. lia.
  - rewrite leb_spec, ltb_spec. apply SFleb_not_SFltb.
Qed.

(** ** The parameters of a pickup *)

Lemma rbind_ok {A B} (r : result A) (k : A -> result B) (b : B) :
  rbind r k = Ok b -> exists a, r = Ok a /\ k a = Ok b.
Proof. destruct r as [a|e]; simpl; [eauto | discriminate]. Qed.

Ltac rbind_inv H :=
  let a := fresh "x" in
  let Ha := fresh "Hx" in
  apply rbind_ok in H; destruct H as (a & Ha & H).

Lemma set_param_value_ok name v d e :
  PyDict.get name d = Some (JDict e) ->
  set_param_value name v (JDict d)
  = Ok (JDict (PyDict.set name (JDict (PyDict.set "value" v e)) d)).
Proof.
  intros H. unfold set_param_value. simpl. unfold PyDict.getitem. by rewrite H.
Qed.

Lemma set_param_value_inv name v p p' :
  set_param_value name v p = Ok p' ->
  exists d e, p = JDict d /\ PyDict.get name d = Some (JDict e) /\
              p' = JDict (PyDict.set name (JDict (PyDict.set "value" v e)) d).
Proof.
  unfold set_param_value. simpl. intros H.
  rbind_inv H. rbind_inv H.
  destruct p as [| | | | |d]; try discriminate.
  simpl in Hx. unfold PyDict.getitem in Hx.
  destruct (PyDict.get name d) as [c|] eqn:Hget; [|discriminate].
  injection Hx as <-.
  destruct c as [| | | | |e]; try discriminate.
  simpl in Hx0. injection Hx0 as <-. simpl in H. injection H as <-.
  by exists d, e.
Qed.

Lemma param_value_dict name d :
  param_value name (JDict d)
  = match PyDict.get name d with
    | Some c => Json.getitem "value" c
    | None => Raise (KeyError name)
    end.
Proof.
  unfold param_value. simpl. unfold PyDict.getitem.
  destruct (PyDict.get name d) as [c|]; simpl; [|done].
  by destruct (Json.getitem "value" c).
Qed.

(** The parameter just set reads back; the others read as before. *)
Lemma param_value_set_eq name v p p' :
  set_param_value name v p = Ok p' -> param_value name p' = Ok v.
Proof.
  intros H. apply set_param_value_inv in H as (d & e & -> & Hget & ->).
  rewrite param_value_dict, PyDictFacts.get_set_eq. simpl.
  unfold PyDict.getitem. by rewrite PyDictFacts.get_set_eq.
Qed.

Lemma param_value_set_ne name name' v p p' :
  set_param_value name v p = Ok p' -> name <> name' ->
  param_value name' p' = param_value name' p.
Proof.
  intros H Hne. apply set_param_value_inv in H as (d & e & -> & Hget & ->).
  by rewrite !param_value_dict, PyDictFacts.get_set_ne.
Qed.

Lemma getitem_set_ne name k v p p' :
  set_param_value name v p = Ok p' -> name <> k ->
  Json.getitem k p' = Json.getitem k p.
Proof.
  intros H Hne. apply set_param_value_inv in H as (d & e & -> & Hget & ->).
  simpl. unfold PyDict.getitem. by rewrite PyDictFacts.get_set_ne.
Qed.

Lemma keys_set_param_value name v p p' :
  set_param_value name v p = Ok p' -> keys p' = keys p.
Proof.
  intros H. apply set_param_value_inv in H as (d & e & -> & Hget & ->).
  simpl. apply PyDictFacts.keys_set_present. unfold PyDict.mem. by rewrite Hget.
Qed.

Lemma param_value_setitem_ne k name v p p' :
  Json.setitem k v p = Ok p' -> k <> name ->
  param_value name p' = param_value name p.
Proof.
  destruct p as [| | | | |d]; try discriminate. simpl.
  intros [= <-] Hne. by rewrite !param_value_dict, PyDictFacts.get_set_ne.
Qed.

Lemma getitem_setitem_eq k v p p' :
  Json.setitem k v p = Ok p' -> Json.getitem k p' = Ok v.
Proof.
  destruct p as [| | | | |d]; try discriminate. simpl.
  intros [= <-]. simpl. unfold PyDict.getitem. by rewrite PyDictFacts.get_set_eq.
Qed.

(** What the branch on the item id leaves alone: the keys of the
    parameter dict and every entry but those of Param4, 5, 6 and 8. *)
Lemma item_overrides_inv item qty params item' qty' p :
  item_overrides item qty params = Ok (item', qty', p) ->
  item' = rewritten_item item /\
  rewritten_quantity item qty = Ok qty' /\
  keys p = keys params /\
  forall k, k <> "Param4" -> k <> "Param5" -> k <> "Param6" -> k <> "Param8" ->
            Json.getitem k p = Json.getitem k params.
Proof.
  unfold item_overrides, rewritten_item, rewritten_quantity.
  destruct (String.eqb item "ITEM_ENERGY_TANKS") eqn:E.
  - intros H. rbind_inv H. rbind_inv H. rbind_inv H. rbind_inv H.
    injection H as <- <- <-. repeat split; auto.
    + rewrite (keys_set_param_value _ _ _ _ Hx2), (keys_set_param_value _ _ _ _ Hx1).
      apply (keys_set_param_value _ _ _ _ Hx0).
    + intros k H4 H5 H6 H8.
      rewrite (getitem_set_ne _ k _ _ _ Hx2), (getitem_set_ne _ k _ _ _ Hx1) by congruence.
      apply (getitem_set_ne _ k _ _ _ Hx0). congruence.
  - destruct (String.eqb item "ITEM_WEAPON_MISSILE_MAX"
              || String.eqb item "ITEM_WEAPON_POWER_BOMB_MAX").
    + intros H. rbind_inv H. rbind_inv H. rbind_inv H.
      injection H as <- <- <-. repeat split; auto.
      * rewrite (keys_set_param_value _ _ _ _ Hx1), (keys_set_param_value _ _ _ _ Hx0).
        apply (keys_set_param_value _ _ _ _ Hx).
      * intros k H4 H5 H6 H8.
        rewrite (getitem_set_ne _ k _ _ _ Hx1), (getitem_set_ne _ k _ _ _ Hx0) by congruence.
        apply (getitem_set_ne _ k _ _ _ Hx). congruence.
    + intros [= <- <- <-]. auto.
Qed.

Lemma has_slot_set d name name' e :
  has_slot d name' = true -> has_slot (PyDict.set name (JDict e) d) name' = true.
Proof.
  unfold has_slot. destruct (String.eqb name name') eqn:E.
  - apply String.eqb_eq in E. subst name'. by rewrite PyDictFacts.get_set_eq.
  - apply String.eqb_neq in E. by rewrite PyDictFacts.get_set_ne.
Qed.

(** An assignment to the value of an existing parameter succeeds and
    keeps every parameter in place. *)
Lemma set_param_value_total name v d :
  has_slot d name = true ->
  exists d', set_param_value name v (JDict d) = Ok (JDict d') /\
             forall n, has_slot d n = true -> has_slot d' n = true.
Proof.
  unfold has_slot at 1. destruct (PyDict.get name d) as [[| | | | |e]|] eqn:Hget; try discriminate.
  intros _. eexists. split; [by apply set_param_value_ok|].
  intros n. apply has_slot_set.
Qed.

Lemma forallb_slots d names name :
  forallb (has_slot d) names = true -> In name names -> has_slot d name = true.
Proof. intros H Hin. rewrite forallb_forall in H. auto. Qed.

Lemma item_overrides_total item qty qty' d :
  forallb (has_slot d) (assigned_params item) = true ->
  rewritten_quantity item qty = Ok qty' ->
  exists d', item_overrides item qty (JDict d) = Ok (rewritten_item item, qty', JDict d') /\
             forall n, has_slot d n = true -> has_slot d' n = true.
Proof.
  unfold assigned_params, item_overrides, rewritten_item, rewritten_quantity.
  destruct (String.eqb item "ITEM_ENERGY_TANKS") eqn:E.
  - intros Hs ->. simpl.
    destruct (set_param_value_total "Param4" (JStr "Full") d) as (d1 & H1 & K1);
      [apply (forallb_slots _ _ _ Hs); simpl; auto|].
    destruct (set_param_value_total "Param5" (JStr "fCurrentLife") d1) as (d2 & H2 & K2);
      [apply K1, (forallb_slots _ _ _ Hs); simpl; auto|].
    destruct (set_param_value_total "Param6" (JStr "LIFE") d2) as (d3 & H3 & K3);
      [apply K2, K1, (forallb_slots _ _ _ Hs); simpl; auto|].
    rewrite H1; cbn [rbind]. rewrite H2; cbn [rbind]. rewrite H3; cbn [rbind].
    exists d3. split; [done|]. auto.
  - destruct (String.eqb item "ITEM_WEAPON_MISSILE_MAX"
              || String.eqb item "ITEM_WEAPON_POWER_BOMB_MAX").
    + intros Hs [= ->].
      destruct (set_param_value_total "Param4" (JStr "Custom") d) as (d1 & H1 & K1);
        [apply (forallb_slots _ _ _ Hs); simpl; auto|].
      destruct (set_param_value_total "Param5"
                  (JStr (PyStr.replace "_MAX" "_CURRENT" item)) d1) as (d2 & H2 & K2);
        [apply K1, (forallb_slots _ _ _ Hs); simpl; auto|].
      destruct (set_param_value_total "Param8"
                  (JStr "guicallbacks.OnSecondaryGunsFire") d2) as (d3 & H3 & K3);
        [apply K2, K1, (forallb_slots _ _ _ Hs); simpl; auto|].
      rewrite H1; cbn [rbind]. rewrite H2; cbn [rbind]. rewrite H3; cbn [rbind].
      exists d3. split; [done|]. auto.
    + intros Hs [= ->]. exists d. auto.
Qed.

Lemma assigned_params_common (d : list (string * json)) item :
  forallb (has_slot d) (assigned_params item) = true ->
  has_slot d "Param1" = true /\ has_slot d "Param2" = true.
Proof.
  unfold assigned_params. rewrite forallb_app. simpl.
  intros H. apply andb_prop in H as [_ H].
  apply andb_prop in H as [H1 H]. apply andb_prop in H as [H2 _]. auto.
Qed.

(** With its parameters in place and a quantity within the doubles, the
    parameter block succeeds. *)
Lemma set_custom_params_total item qty qty' d :
  forallb (has_slot d) (assigned_params item) = true ->
  rewritten_quantity item qty = Ok qty' ->
  exists params', set_custom_params item qty (JDict d) = Ok params'.
Proof.
  intros Hs Hq. destruct (assigned_params_common d item Hs) as [S1 S2].
  destruct (item_overrides_total item qty qty' d Hs Hq) as (d0 & H0 & K0).
  destruct (set_param_value_total "Param1" (JStr (rewritten_item item)) d0) as (d1 & H1 & K1);
    [auto|].
  destruct (set_param_value_total "Param2" (JNum qty') d1) as (d2 & H2 & K2); [auto|].
  unfold set_custom_params. rewrite H0; cbn [rbind]. rewrite H1; cbn [rbind]. rewrite H2; cbn [rbind].
  destruct (PyNum.gt_one qty'); eauto.
Qed.

(** What a successful parameter block has done. *)
Lemma set_custom_params_inv item qty params params' :
  set_custom_params item qty params = Ok params' ->
  exists qty' p0 p1 p2,
    item_overrides item qty params = Ok (rewritten_item item, qty', p0) /\
    rewritten_quantity item qty = Ok qty' /\
    set_param_value "Param1" (JStr (rewritten_item item)) p0 = Ok p1 /\
    set_param_value "Param2" (JNum qty') p1 = Ok p2 /\
    (if PyNum.gt_one qty' then Json.setitem "Param13" (param13 qty') p2 else Ok p2) = Ok params'.
Proof.
  unfold set_custom_params. intros H. rbind_inv H.
  destruct x as [[item' qty'] p0].
  pose proof (item_overrides_inv _ _ _ _ _ _ Hx) as (-> & Hq & _).
  rbind_inv H. rbind_inv H.
  exists qty', p0, x, x0. auto.
Qed.

(** The last steps of the parameter block leave the parameters other
    than Param1, Param2 and Param13 as the branch on the item id set
    them. *)
Lemma set_custom_params_other item qty params params' name :
  set_custom_params item qty params = Ok params' ->
  name <> "Param1" -> name <> "Param2" -> name <> "Param13" ->
  exists qty' p0,
    item_overrides item qty params = Ok (rewritten_item item, qty', p0) /\
    param_value name params' = param_value name p0.
Proof.
  intros H N1 N2 N13.
  apply set_custom_params_inv in H as (qty' & p0 & p1 & p2 & H0 & Hq & H1 & H2 & H13).
  exists qty', p0. split; [done|].
  rewrite <- (param_value_set_ne _ name _ _ _ H1) by congruence.
  rewrite <- (param_value_set_ne _ name _ _ _ H2) by congruence.
  destruct (PyNum.gt_one qty').
  - apply (param_value_setitem_ne _ name _ _ _ H13). congruence.
  - by injection H13 as <-.
Qed.

Lemma set_custom_params_values item qty params params' :
  set_custom_params item qty params = Ok params' ->
  exists qty',
    rewritten_quantity item qty = Ok qty' /\
    param_value "Param1" params' = Ok (JStr (rewritten_item item)) /\
    param_value "Param2" params' = Ok (JNum qty') /\
    (PyNum.gt_one qty' = true -> Json.getitem "Param13" params' = Ok (param13 qty')) /\
    (PyNum.gt_one qty' = false ->
       Json.getitem "Param13" params' = Json.getitem "Param13" params /\
       keys params' = keys params).
Proof.
  intros H.
  apply set_custom_params_inv in H as (qty' & p0 & p1 & p2 & H0 & Hq & H1 & H2 & H13).
  apply item_overrides_inv in H0 as (_ & _ & Hkeys & Hother).
  exists qty'. split; [done|].
  assert (V1 : param_value "Param1" p2 = Ok (JStr (rewritten_item item))).
  { rewrite (param_value_set_ne _ "Param1" _ _ _ H2) by discriminate.
    apply (param_value_set_eq _ _ _ _ H1). }
  assert (V2 : param_value "Param2" p2 = Ok (JNum qty')).
  { apply (param_value_set_eq _ _ _ _ H2). }
  destruct (PyNum.gt_one qty').
  - rewrite (param_value_setitem_ne _ "Param1" _ _ _ H13) by discriminate.
    rewrite (param_value_setitem_ne _ "Param2" _ _ _ H13) by discriminate.
    split; [exact V1|]. split; [exact V2|]. split.
    + intros _. apply (getitem_setitem_eq _ _ _ _ H13).
    + discriminate.
  - injection H13 as <-.
    split; [exact V1|]. split; [exact V2|]. split; [discriminate|].
    intros _. split.
    + rewrite (getitem_set_ne _ "Param13" _ _ _ H2) by discriminate.
      rewrite (getitem_set_ne _ "Param13" _ _ _ H1) by discriminate.
      apply Hother; discriminate.
    + rewrite (keys_set_param_value _ _ _ _ H2), (keys_set_param_value _ _ _ _ H1).
      exact Hkeys.
Qed.

(** The parameters of the energy tank of quantity 2, after the block. *)
Lemma energy_tanks_params (qty : pynum) (params params' : json) :
  qty = PInt 2 \/ qty = PFloat 2 ->
  set_custom_params "ITEM_ENERGY_TANKS" qty params = Ok params' ->
  param_value "Param1" params' = Ok (JStr "fMaxLife") /\
  param_value "Param2" params' = Ok (JNum (PFloat 200)) /\
  param_value "Param4" params' = Ok (JStr "Full") /\
  param_value "Param5" params' = Ok (JStr "fCurrentLife") /\
  param_value "Param6" params' = Ok (JStr "LIFE").
Proof.
  intros Hqty H.
  assert (Hq : rewritten_quantity "ITEM_ENERGY_TANKS" qty = Ok (PFloat 200)).
  { destruct Hqty as [-> | ->]; reflexivity. }
  destruct (set_custom_params_values _ _ _ _ H) as (q & Hq' & V1 & V2 & _).
  rewrite Hq in Hq'. injection Hq' as <-.
  split; [exact V1|]. split; [exact V2|].
  assert (Hov : forall name, name <> "Param1" -> name <> "Param2" -> name <> "Param13" ->
            exists p0, item_overrides "ITEM_ENERGY_TANKS" qty params
                       = Ok ("fMaxLife", PFloat 200, p0) /\
                       param_value name params' = param_value name p0).
  { intros name N1 N2 N13.
    destruct (set_custom_params_other _ _ _ _ name H N1 N2 N13) as (q & p0 & H0 & Hv).
    pose proof (item_overrides_inv _ _ _ _ _ _ H0) as (_ & Hq' & _).
    rewrite Hq in Hq'. injection Hq' as <-. eauto. }
  assert (Hsteps : forall p0, item_overrides "ITEM_ENERGY_TANKS" qty params
                              = Ok ("fMaxLife", PFloat 200, p0) ->
            param_value "Param4" p0 = Ok (JStr "Full") /\
            param_value "Param5" p0 = Ok (JStr "fCurrentLife") /\
            param_value "Param6" p0 = Ok (JStr "LIFE")).
  { intros p0 H0. unfold item_overrides in H0. cbn [String.eqb Ascii.eqb Bool.eqb] in H0.
    rbind_inv H0. rbind_inv H0. rbind_inv H0. rbind_inv H0. injection H0 as _ <-.
    repeat split.
    - rewrite (param_value_set_ne _ "Param4" _ _ _ Hx2) by discriminate.
      rewrite (param_value_set_ne _ "Param4" _ _ _ Hx1) by discriminate.
      apply (param_value_set_eq _ _ _ _ Hx0).
    - rewrite (param_value_set_ne _ "Param5" _ _ _ Hx2) by discriminate.
      apply (param_value_set_eq _ _ _ _ Hx1).
    - apply (param_value_set_eq _ _ _ _ Hx2). }
  destruct (Hov "Param4") as (p4 & H4 & ->); try discriminate.
  destruct (Hov "Param5") as (p5 & H5 & ->); try discriminate.
  destruct (Hov "Param6") as (p6 & H6 & ->); try discriminate.
  split; [apply (Hsteps _ H4)|]. split; [apply (Hsteps _ H5)|apply (Hsteps _ H6)].
Qed.

(** The parameters of a missile or power bomb expansion, after the
    block. *)
Lemma expansions_params (item current : string) (qty : pynum) (params params' : json) :
  In (item, current)
     [ ("ITEM_WEAPON_MISSILE_MAX", "ITEM_WEAPON_MISSILE_CURRENT");
       ("ITEM_WEAPON_POWER_BOMB_MAX", "ITEM_WEAPON_POWER_BOMB_CURRENT") ] ->
  set_custom_params item qty params = Ok params' ->
  param_value "Param1" params' = Ok (JStr item) /\
  param_value "Param2" params' = Ok (JNum qty) /\
  param_value "Param4" params' = Ok (JStr "Custom") /\
  param_value "Param5" params' = Ok (JStr current) /\
  param_value "Param8" params' = Ok (JStr "guicallbacks.OnSecondaryGunsFire").
Proof.
  intros Hin H.
  assert (Hitem : rewritten_item item = item /\
                  rewritten_quantity item qty = Ok qty /\
                  PyStr.replace "_MAX" "_CURRENT" item = current /\
                  String.eqb item "ITEM_ENERGY_TANKS" = false /\
                  String.eqb item "ITEM_WEAPON_MISSILE_MAX"
                  || String.eqb item "ITEM_WEAPON_POWER_BOMB_MAX" = true).
  { destruct Hin as [[= <- <-]|[[= <- <-]|[]]]; repeat split; reflexivity. }
  destruct Hitem as (Hri & Hq & Hcur & Hne & Hexp).
  destruct (set_custom_params_values _ _ _ _ H) as (q & Hq' & V1 & V2 & _).
  rewrite Hq in Hq'. injection Hq' as <-. rewrite Hri in V1.
  split; [exact V1|]. split; [exact V2|].
  assert (Hsteps : forall q0 p0, item_overrides item qty params
                                 = Ok (rewritten_item item, q0, p0) ->
            param_value "Param4" p0 = Ok (JStr "Custom") /\
            param_value "Param5" p0 = Ok (JStr current) /\
            param_value "Param8" p0 = Ok (JStr "guicallbacks.OnSecondaryGunsFire")).
  { intros q0 p0 H0. unfold item_overrides in H0. rewrite Hne, Hexp, Hcur in H0.
    rbind_inv H0. rbind_inv H0. rbind_inv H0. injection H0 as _ _ <-.
    repeat split.
    - rewrite (param_value_set_ne _ "Param4" _ _ _ Hx1) by discriminate.
      rewrite (param_value_set_ne _ "Param4" _ _ _ Hx0) by discriminate.
      apply (param_value_set_eq _ _ _ _ Hx).
    - rewrite (param_value_set_ne _ "Param5" _ _ _ Hx1) by discriminate.
      apply (param_value_set_eq _ _ _ _ Hx0).
    - apply (param_value_set_eq _ _ _ _ Hx1). }
  destruct (set_custom_params_other _ _ _ _ "Param4" H) as (q4 & p4 & H4 & ->);
    try discriminate.
  destruct (set_custom_params_other _ _ _ _ "Param5" H) as (q5 & p5 & H5 & ->);
    try discriminate.
  destruct (set_custom_params_other _ _ _ _ "Param8" H) as (q8 & p8 & H8 & ->);
    try discriminate.
  split; [apply (Hsteps _ _ H4)|]. split; [apply (Hsteps _ _ H5)|apply (Hsteps _ _ H8)].
Qed.

(** ** The actor definition of a pickup *)

Lemma getpath_app p q j :
  Json.getpath (p ++ q) j = rbind (Json.getpath p j) (Json.getpath q).
Proof.
  revert j. induction p as [|sel p IH]; intros j; simpl; [done|].
  destruct (Json.select sel j) as [c|e]; simpl; [apply IH | done].
Qed.

(** What was stored under a selector is what the selector reads. *)
Lemma select_store sel v j j' :
  Json.store sel v j = Ok j' -> Json.select sel j' = Ok v.
Proof.
  destruct sel as [k|i], j as [| | | |l|d]; simpl; try discriminate.
  - intros [= <-]. simpl. unfold PyDict.getitem. by rewrite PyDictFacts.get_set_eq.
  - destruct (Nat.ltb i (length l)) eqn:E; [|discriminate].
    intros [= <-]. simpl. apply Nat.ltb_lt in E.
    by rewrite list_lookup_insert_eq.
Qed.

(** A store under one key leaves the other keys of a dict as they were. *)
Lemma select_store_other k k' v j j' :
  Json.store (Key k) v j = Ok j' -> k <> k' ->
  Json.select (Key k') j' = Json.select (Key k') j.
Proof.
  destruct j as [| | | |l|d]; simpl; try discriminate.
  intros [= <-] Hne. simpl. unfold PyDict.getitem. by rewrite PyDictFacts.get_set_ne.
Qed.

(** A mutation of the object at a path: the object was there, and the
    path leads to the mutated object afterwards. *)
Lemma update_getpath path f : forall j j',
  Json.update path f j = Ok j' ->
  exists c c', Json.getpath path j = Ok c /\ f c = Ok c' /\ Json.getpath path j' = Ok c'.
Proof.
  induction path as [|sel path IH]; intros j j'; simpl.
  - intros H. exists j, j'. auto.
  - intros H. rbind_inv H. rbind_inv H.
    destruct (IH _ _ Hx0) as (c & c' & Hget & Hf & Hget').
    exists c, c'. rewrite Hx. simpl. split; [done|]. split; [done|].
    by rewrite (select_store _ _ _ _ H).
Qed.

(** A mutation below one key of a dict is not seen below another key. *)
Lemma update_getpath_other k path f k' q j j' :
  Json.update (Key k :: path) f j = Ok j' -> k <> k' ->
  Json.getpath (Key k' :: q) j' = Json.getpath (Key k' :: q) j.
Proof.
  simpl. intros H Hne. rbind_inv H. rbind_inv H.
  pose proof (select_store_other _ _ _ _ _ H Hne) as Hsel. simpl in Hsel.
  by rewrite Hsel.
Qed.

Lemma setitem_getpath_other k v k' q j j' :
  Json.setitem k v j = Ok j' -> k <> k' ->
  Json.getpath (Key k' :: q) j' = Json.getpath (Key k' :: q) j.
Proof.
  destruct j as [| | | |l|d]; simpl; try discriminate.
  intros [= <-] Hne. simpl. unfold PyDict.getitem. by rewrite PyDictFacts.get_set_ne.
Qed.

(** The parameters of the actor definition of a pickup are those of the
    template after the parameter block; name and captions apart, they
    are where the definition differs from the template. *)
Lemma new_template_params template i pickup definition :
  new_template template i pickup = Ok definition ->
  exists params params',
    Json.getpath (pickable_path ++ params_path) template = Ok params /\
    set_custom_params (item_id pickup) (quantity pickup) params = Ok params' /\
    Json.getpath (pickable_path ++ params_path) definition = Ok params' /\
    Json.getitem "name" definition = Ok (JStr (powerup_name i)).
Proof.
  unfold new_template. intros H.
  rbind_inv H. rename x into t, Hx into Hname.
  rbind_inv H. rename x into P0, Hx into HP0.
  rbind_inv H. rename x into P1, Hx into HP1.
  rbind_inv H. rename x into P2, Hx into HP2.
  rbind_inv H. rename x into params, Hx into Hparams.
  rbind_inv H. rename x into params', Hx into Hblock.
  rbind_inv H. rename x into P3, Hx into HP3.
  exists params, params'.
  assert (Hp2 : Json.getpath params_path P0 = Ok params).
  { rewrite <- Hparams. unfold params_path.
    rewrite (update_getpath_other _ _ _ "functions" _ _ _ HP2) by discriminate.
    by rewrite (update_getpath_other _ _ _ "functions" _ _ _ HP1) by discriminate. }
  split.
  { rewrite getpath_app. unfold pickable_path in HP0 |- *.
    rewrite <- (setitem_getpath_other _ _ "property" _ _ _ Hname) by discriminate.
    rewrite HP0. exact Hp2. }
  split; [exact Hblock|].
  destruct (update_getpath _ _ _ _ HP3) as (c3 & c3' & _ & [= <-] & Hget3).
  destruct (update_getpath _ _ _ _ H) as (c & c' & _ & [= <-] & Hget).
  split.
  { rewrite getpath_app, Hget. exact Hget3. }
  pose proof (getitem_setitem_eq _ _ _ _ Hname) as Hn.
  assert (Hsame : Json.getpath [Key "name"] definition = Json.getpath [Key "name"] t).
  { unfold pickable_path in H.
    apply (update_getpath_other _ _ _ "name" [] _ _ H). discriminate. }
  simpl in Hsame. rewrite Hn in Hsame. simpl in Hsame.
  destruct (Json.getitem "name" definition); by inversion Hsame.
Qed.

(** ** Methods of the editor *)

Lemma bind_inv {A B} (m : M A) (k : A -> M B) s r s' :
  bind m k s = (r, s') ->
  (exists e, m s = (Raise e, s') /\ r = Raise e) \/
  (exists a s1, m s = (Ok a, s1) /\ k a s1 = (r, s')).
Proof.
  unfold bind. destruct (m s) as [[a|e] s1]; intros H.
  - right. eauto.
  - left. injection H as <- <-. eauto.
Qed.

Lemma bind_ok_inv {A B} (m : M A) (k : A -> M B) s b s' :
  bind m k s = (Ok b, s') ->
  exists a s1, m s = (Ok a, s1) /\ k a s1 = (Ok b, s').
Proof.
  intros H. apply bind_inv in H as [(e & _ & He)|H]; [discriminate|done].
Qed.

Lemma bind_ok {A B} (m : M A) (k : A -> M B) s a s1 :
  m s = (Ok a, s1) -> bind m k s = k a s1.
Proof. unfold bind. by intros ->. Qed.

Lemma lift_ok_inv {A} (r : result A) s a s' :
  lift r s = (Ok a, s') -> r = Ok a /\ s' = s.
Proof. unfold lift. by intros [= -> ->]. Qed.

Lemma editor_eta s : {| calls := calls s; memory_files := memory_files s |} = s.
Proof. by destruct s. Qed.

(** *** The calls a method adds *)

Lemma emits_weaken {A} (Q Q' : call -> bool) (m : M A) :
  (forall c, Q c = true -> Q' c = true) -> emits Q m -> emits Q' m.
Proof.
  intros HQ Hm s. destruct (Hm s) as (new & Hcalls & Hall).
  exists new. split; [done|].
  rewrite forallb_forall in *. auto.
Qed.

Lemma emits_ret {A} Q (a : A) : emits Q (ret a).
Proof. intros s. by exists []. Qed.

Lemma emits_lift {A} Q (r : result A) : emits Q (lift r).
Proof. intros s. by exists []. Qed.

Lemma emits_get_memory_files Q : emits Q get_memory_files.
Proof. intros s. by exists []. Qed.

Lemma emits_set_memory_files Q files : emits Q (set_memory_files files).
Proof. intros s. by exists []. Qed.

Lemma emits_invoke {A} (Q : call -> bool) c (answer : list call -> result A) :
  Q c = true -> emits Q (invoke c answer).
Proof. intros Hc s. exists [c]. simpl. by rewrite Hc. Qed.

Lemma emits_bind {A B} Q (m : M A) (k : A -> M B) :
  emits Q m -> (forall a, emits Q (k a)) -> emits Q (bind m k).
Proof.
  intros Hm Hk s. unfold bind.
  destruct (Hm s) as (new1 & H1 & Q1).
  destruct (m s) as [[a|e] s1]; simpl in *.
  - destruct (Hk a s1) as (new2 & H2 & Q2).
    exists (new2 ++ new1). rewrite H2, H1, app_assoc. split; [done|].
    rewrite forallb_app. by rewrite Q1, Q2.
  - by exists new1.
Qed.

Lemma emits_for_each {A} Q (xs : list A) (body : A -> M unit) :
  (forall x, emits Q (body x)) -> emits Q (for_each xs body).
Proof.
  intros Hbody. induction xs as [|x xs IH]; simpl.
  - apply emits_ret.
  - apply emits_bind; auto.
Qed.

Ltac emits_step :=
  lazymatch goal with
  | |- emits _ (bind _ _) => apply emits_bind; [|intros ?]
  | |- emits _ (ret _) => apply emits_ret
  | |- emits _ (lift _) => apply emits_lift
  | |- emits _ get_memory_files => apply emits_get_memory_files
  | |- emits _ (set_memory_files _) => apply emits_set_memory_files
  | |- emits _ (invoke _ _) => apply emits_invoke; reflexivity
  | |- emits _ (for_each _ _) => apply emits_for_each; intros ?
  | |- emits _ (if ?b then _ else _) => destruct b
  | |- emits _ (match ?x with _ => _ end) => destruct x
  end.

Ltac emits_auto := repeat (cbv zeta; emits_step).

Section EditorFacts.
Context (repo : Repository) (assets : Assets).

Lemma create_init_copy_emits :
  emits (fun c => negb (is_save c) && negb (is_parse c)) (create_init_copy repo).
Proof.
  unfold create_init_copy, editor_does_asset_exists, editor_get_raw_asset,
    editor_add_new_asset.
  emits_auto.
Qed.

Lemma get_file_emits path : emits is_parse (get_file repo path).
Proof. unfold get_file, editor_get_parsed_asset. emits_auto. Qed.

Lemma store_scenario_emits Q scenario level : emits Q (store_scenario scenario level).
Proof. unfold store_scenario. emits_auto. Qed.

Lemma patch_elevator_emits elevator : emits is_parse (patch_elevator repo elevator).
Proof.
  unfold patch_elevator, get_scenario.
  repeat first [ apply get_file_emits | apply store_scenario_emits | emits_step ].
Qed.

Lemma patch_elevators_emits config : emits is_parse (patch_elevators repo config).
Proof. apply emits_for_each, patch_elevator_emits. Qed.

Lemma ensure_dependencies_emits pkg :
  emits (fun c => negb (is_save c) && negb (is_parse c)) (ensure_dependencies repo pkg).
Proof. unfold ensure_dependencies, editor_ensure_present. emits_auto. Qed.

Lemma patch_pickup_emits i pickup acc :
  emits (fun c => negb (is_save c)) (patch_pickup repo assets i pickup acc).
Proof.
  unfold patch_pickup, get_scenario, editor_find_pkgs, editor_add_new_asset.
  repeat first
    [ apply (emits_weaken is_parse); [by intros []|apply get_file_emits]
    | apply store_scenario_emits
    | apply emits_for_each; intros ?;
      apply (emits_weaken (fun c => negb (is_save c) && negb (is_parse c)));
      [by intros []|apply ensure_dependencies_emits]
    | emits_step ].
Qed.

Lemma pickups_loop_emits config : forall i acc,
  emits (fun c => negb (is_save c)) (pickups_loop repo assets i config acc).
Proof.
  induction config as [|p rest IH]; intros i acc; simpl.
  - apply emits_ret.
  - apply emits_bind; [apply patch_pickup_emits|]. intros a. apply IH.
Qed.

Lemma patch_pickups_emits config :
  emits (fun c => negb (is_save c)) (patch_pickups repo assets config).
Proof.
  unfold patch_pickups, editor_add_new_asset.
  apply emits_bind; [apply pickups_loop_emits|]. intros a. emits_auto.
Qed.

Lemma flush_modified_assets_emits : emits is_replace (flush_modified_assets repo).
Proof. unfold flush_modified_assets, editor_replace_asset. emits_auto. Qed.

End EditorFacts.

(** ** The resource cache *)

Lemma parses_cons path c h :
  parses path (c :: h) = ((if is_parse_of path c then 1 else 0) + parses path h)%nat.
Proof. unfold parses. simpl. by destruct (is_parse_of path c). Qed.

Lemma parses_app path new h :
  parses path (new ++ h) = (parses path new + parses path h)%nat.
Proof. unfold parses. by rewrite List.filter_app, length_app. Qed.

Lemma parses_none path new :
  forallb (fun c => negb (is_parse c)) new = true -> parses path new = 0%nat.
Proof.
  induction new as [|c new IH]; simpl; [done|].
  intros H. apply andb_prop in H as [Hc Hnew].
  rewrite parses_cons, IH by done.
  destruct c; simpl in *; try done.
Qed.

Lemma parsed_into_cache_at_most_once s :
  parsed_into_cache s -> parsed_at_most_once s.
Proof.
  intros H path. specialize (H path).
  destruct (PyDict.mem path (memory_files s)); lia.
Qed.

Lemma emits_never_reparses {A} (m : M A) :
  emits (fun c => negb (is_parse c)) m -> never_reparses m.
Proof.
  intros Hm s Hs path. destruct (Hm s) as (new & -> & Hnew).
  rewrite parses_app, (parses_none _ _ Hnew).
  apply (parsed_into_cache_at_most_once _ Hs).
Qed.

Lemma never_reparses_bind {A B} (m : M A) (k : A -> M B) :
  caches_parses m -> (forall a, never_reparses (k a)) -> never_reparses (bind m k).
Proof.
  intros Hm Hk s Hs. unfold bind.
  destruct (Hm s Hs) as [Hmost Hinv].
  destruct (m s) as [[a|e] s1]; simpl in *; [|done].
  apply Hk. by apply Hinv.
Qed.

Lemma caches_parses_bind {A B} (m : M A) (k : A -> M B) :
  caches_parses m -> (forall a, caches_parses (k a)) -> caches_parses (bind m k).
Proof.
  intros Hm Hk s Hs. unfold bind.
  destruct (Hm s Hs) as [Hmost Hinv].
  destruct (m s) as [[a|e] s1]; simpl in *.
  - apply Hk. by apply Hinv.
  - split; [done | discriminate].
Qed.

(** A method that leaves the cache alone and does not ask for a parse. *)
Lemma caches_parses_pure {A} (m : M A) :
  (forall s, memory_files (snd (m s)) = memory_files s) ->
  emits (fun c => negb (is_parse c)) m ->
  caches_parses m.
Proof.
  intros Hfiles Hm s Hs.
  assert (Hinv : parsed_into_cache (snd (m s))).
  { intros path. destruct (Hm s) as (new & Hcalls & Hnew).
    rewrite Hcalls, Hfiles, parses_app, (parses_none _ _ Hnew). apply Hs. }
  split; [by apply parsed_into_cache_at_most_once | done].
Qed.

Lemma caches_parses_ret {A} (a : A) : caches_parses (ret a).
Proof. apply caches_parses_pure; [done | apply emits_ret]. Qed.

Lemma caches_parses_lift {A} (r : result A) : caches_parses (lift r).
Proof. apply caches_parses_pure; [done | apply emits_lift]. Qed.

Lemma caches_parses_invoke {A} c (answer : list call -> result A) :
  is_parse c = false -> caches_parses (invoke c answer).
Proof.
  intros Hc. apply caches_parses_pure; [done|].
  apply emits_invoke. by rewrite Hc.
Qed.

Lemma caches_parses_for_each {A} (xs : list A) (body : A -> M unit) :
  (forall x, caches_parses (body x)) -> caches_parses (for_each xs body).
Proof.
  intros Hbody. induction xs as [|x xs IH]; simpl.
  - apply caches_parses_ret.
  - apply caches_parses_bind; auto.
Qed.

Section CacheFacts.
Context (repo : Repository) (assets : Assets).

(** A cached path is answered from the cache: the editor is as before,
    the repository is not asked. *)
Lemma get_file_cached path s r :
  PyDict.get path (memory_files s) = Some r ->
  get_file repo path s = (Ok r, s).
Proof.
  intros H. unfold get_file, bind, get_memory_files, lift, ret, PyDict.mem, PyDict.getitem.
  rewrite H. simpl. by rewrite H.
Qed.

(** A path that is not cached is parsed by the repository, once, and the
    parsed resource enters the cache. *)
Lemma get_file_fresh path s :
  PyDict.get path (memory_files s) = None ->
  get_file repo path s
  = match get_parsed_asset repo (calls s) path with
    | Ok r => (Ok r, {| calls := GetParsedAsset path :: calls s;
                        memory_files := memory_files s ++ [(path, r)] |})
    | Raise e => (Raise e, {| calls := GetParsedAsset path :: calls s;
                              memory_files := memory_files s |})
    end.
Proof.
  intros H.
  unfold get_file, bind, get_memory_files, lift, ret, PyDict.mem, PyDict.getitem,
    editor_get_parsed_asset, invoke, set_memory_files.
  rewrite H. simpl.
  destruct (get_parsed_asset repo (calls s) path) as [r|e]; simpl; [|done].
  by rewrite PyDictFacts.get_set_eq, (PyDictFacts.set_absent _ _ _ H).
Qed.

Lemma get_file_again path s r s' :
  get_file repo path s = (Ok r, s') -> get_file repo path s' = (Ok r, s').
Proof.
  destruct (PyDict.get path (memory_files s)) as [r0|] eqn:Hget.
  - rewrite (get_file_cached _ _ _ Hget). intros [= <- <-]. by apply get_file_cached.
  - rewrite (get_file_fresh _ _ Hget).
    destruct (get_parsed_asset repo (calls s) path) as [r1|e]; [|discriminate].
    intros [= <- <-]. apply get_file_cached. simpl.
    by rewrite <- (PyDictFacts.set_absent _ _ _ Hget), PyDictFacts.get_set_eq.
Qed.

Lemma get_file_caches_parses path : caches_parses (get_file repo path).
Proof.
  intros s Hs.
  destruct (PyDict.get path (memory_files s)) as [r0|] eqn:Hget.
  - rewrite (get_file_cached _ _ _ Hget). simpl.
    split; [by apply parsed_into_cache_at_most_once | done].
  - rewrite (get_file_fresh _ _ Hget).
    assert (Hzero : parses path (calls s) = 0%nat).
    { specialize (Hs path). unfold PyDict.mem in Hs. rewrite Hget in Hs. lia. }
    assert (Hstep : forall p, (parses p (GetParsedAsset path :: calls s)
                               <= if String.eqb path p then 1 else parses p (calls s))%nat).
    { intros p. rewrite parses_cons. simpl.
      destruct (String.eqb path p) eqn:E; [|lia].
      apply String.eqb_eq in E. subst p. lia. }
    destruct (get_parsed_asset repo (calls s) path) as [r|e]; simpl.
    + assert (Hinv : parsed_into_cache
                {| calls := GetParsedAsset path :: calls s;
                   memory_files := memory_files s ++ [(path, r)] |}).
      { intros p. simpl. specialize (Hstep p). specialize (Hs p).
        rewrite <- (PyDictFacts.set_absent _ _ _ Hget), PyDictFacts.mem_set.
        destruct (String.eqb path p); simpl; [lia|].
        destruct (PyDict.mem p (memory_files s)); lia. }
      split; [by apply parsed_into_cache_at_most_once | done].
    + split; [|discriminate].
      intros p. simpl. specialize (Hstep p). specialize (Hs p).
      destruct (String.eqb path p); [lia|].
      destruct (PyDict.mem p (memory_files s)); lia.
Qed.

Lemma store_scenario_caches_parses scenario level :
  caches_parses (store_scenario scenario level).
Proof.
  intros s Hs. unfold store_scenario, bind, get_memory_files, set_memory_files. simpl.
  assert (Hinv : parsed_into_cache
            {| calls := calls s;
               memory_files := PyDict.set (path_for_level scenario +:+ ".brfld") level
                                 (memory_files s) |}).
  { intros p. simpl. specialize (Hs p). rewrite PyDictFacts.mem_set.
    destruct (String.eqb _ p); simpl; [|done].
    destruct (PyDict.mem p (memory_files s)); lia. }
  split; [by apply parsed_into_cache_at_most_once | done].
Qed.

Ltac caches_step :=
  lazymatch goal with
  | |- caches_parses (bind _ _) => apply caches_parses_bind; [|intros ?]
  | |- caches_parses (ret _) => apply caches_parses_ret
  | |- caches_parses (lift _) => apply caches_parses_lift
  | |- caches_parses (invoke _ _) => apply caches_parses_invoke; reflexivity
  | |- caches_parses (get_file _ _) => apply get_file_caches_parses
  | |- caches_parses (store_scenario _ _) => apply store_scenario_caches_parses
  | |- caches_parses (for_each _ _) => apply caches_parses_for_each; intros ?
  | |- caches_parses (if ?b then _ else _) => destruct b
  | |- caches_parses (match ?x with _ => _ end) => destruct x
  end.

Lemma create_init_copy_caches_parses : caches_parses (create_init_copy repo).
Proof.
  unfold create_init_copy, editor_does_asset_exists, editor_get_raw_asset,
    editor_add_new_asset.
  repeat caches_step.
Qed.

Lemma patch_elevators_caches_parses config : caches_parses (patch_elevators repo config).
Proof.
  apply caches_parses_for_each. intros e. unfold patch_elevator, get_scenario.
  repeat (cbv zeta; caches_step).
Qed.

Lemma patch_pickup_caches_parses i pickup acc :
  caches_parses (patch_pickup repo assets i pickup acc).
Proof.
  unfold patch_pickup, get_scenario, editor_find_pkgs, editor_add_new_asset,
    ensure_dependencies, editor_ensure_present.
  repeat (cbv zeta; caches_step).
Qed.

Lemma patch_pickups_caches_parses config : caches_parses (patch_pickups repo assets config).
Proof.
  unfold patch_pickups, editor_add_new_asset.
  apply caches_parses_bind; [|intros a; repeat caches_step].
  generalize 0%nat as i, (∅ : gset string) as acc.
  induction config as [|p rest IH]; intros i acc; simpl.
  - apply caches_parses_ret.
  - apply caches_parses_bind; [apply patch_pickup_caches_parses|]. intros a. apply IH.
Qed.

(** The writes of a commit and the cache after it. *)
Lemma for_each_replace_asset files : forall s,
  writes_accepted repo (calls s) files = true ->
  for_each files (fun item => editor_replace_asset repo (fst item) (DataResource (snd item))) s
  = (Ok tt, {| calls := writes_of files ++ calls s; memory_files := memory_files s |}).
Proof.
  induction files as [|item rest IH]; intros s; simpl.
  - intros _. unfold ret. by rewrite editor_eta.
  - intros H. apply andb_prop in H as [Hitem Hrest].
    unfold bind at 1. unfold editor_replace_asset at 1, invoke at 1.
    destruct (replace_asset repo (calls s) (fst item) (DataResource (snd item))) as [[]|e];
      [|discriminate].
    rewrite IH by done. simpl. unfold writes_of. simpl.
    by rewrite <- app_assoc.
Qed.

Lemma flush_modified_assets_accepted s :
  writes_accepted repo (calls s) (memory_files s) = true ->
  flush_modified_assets repo s
  = (Ok tt, {| calls := writes_of (memory_files s) ++ calls s; memory_files := [] |}).
Proof.
  intros H. unfold flush_modified_assets.
  unfold bind at 1. unfold get_memory_files at 1.
  unfold bind. by rewrite (for_each_replace_asset _ _ H).
Qed.

End CacheFacts.

Section RunFacts.
Context (repo : Repository) (assets : Assets).

Lemma never_reparses_then {A B} (m : M A) (k : A -> M B) :
  never_reparses m -> (forall a, emits (fun c => negb (is_parse c)) (k a)) ->
  never_reparses (bind m k).
Proof.
  intros Hm Hk s Hs path. specialize (Hm s Hs path). unfold bind.
  destruct (m s) as [[a|e] s1]; simpl in *; [|done].
  destruct (Hk a s1) as (new & -> & Hnew).
  by rewrite parses_app, (parses_none _ _ Hnew).
Qed.

Lemma patch_edits_never_reparses configuration :
  never_reparses (patch_edits repo assets configuration).
Proof.
  unfold patch_edits.
  apply never_reparses_bind; [apply create_init_copy_caches_parses|]. intros _.
  apply never_reparses_bind; [apply caches_parses_lift|]. intros script.
  apply never_reparses_bind; [apply caches_parses_lift|]. intros bytes.
  apply never_reparses_bind; [by apply caches_parses_invoke|]. intros _.
  apply never_reparses_bind.
  { destruct (elevators configuration);
      [apply patch_elevators_caches_parses | apply caches_parses_ret]. }
  intros _.
  apply never_reparses_bind; [apply patch_pickups_caches_parses|]. intros _.
  apply emits_never_reparses.
  apply (emits_weaken is_replace); [by intros []|apply flush_modified_assets_emits].
Qed.

Lemma patch_stages_never_reparses entry out configuration :
  never_reparses (patch_stages repo assets entry out configuration).
Proof.
  unfold patch_stages. apply never_reparses_then; [apply patch_edits_never_reparses|].
  intros _. unfold editor_save_modified_pkgs. emits_auto.
Qed.

End RunFacts.

Lemma new_editor_parsed_into_cache : parsed_into_cache new_editor.
Proof. intros path. simpl. unfold parses. simpl. lia. Qed.

Lemma patch_parses_at_most_once open_tree assets entry input_path output_path configuration :
  parsed_at_most_once
    (snd (patch open_tree assets entry input_path output_path configuration)).
Proof.
  unfold patch.
  destruct (negb (schema_accepts assets configuration)).
  { apply parsed_into_cache_at_most_once, new_editor_parsed_into_cache. }
  destruct (open_tree input_path) as [repo|e].
  - apply patch_stages_never_reparses, new_editor_parsed_into_cache.
  - apply parsed_into_cache_at_most_once, new_editor_parsed_into_cache.
Qed.

Lemma get_scenario_after_store repo scenario level s :
  get_scenario repo scenario (snd (store_scenario scenario level s))
  = (Ok level, snd (store_scenario scenario level s)).
Proof.
  unfold get_scenario. apply get_file_cached.
  unfold store_scenario, bind, get_memory_files, set_memory_files. simpl.
  apply PyDictFacts.get_set_eq.
Qed.

(** C5: a cached path is answered with the cached resource and leaves
    the editor as it was, the repository not being asked; a path that is
    not cached is parsed by the repository and cached, and is answered
    from the cache from then on; in a whole run of [patch] no path is
    parsed more than once; and a commit that the repository accepts
    writes every cached resource back under its path, in the order of
    the cache, and leaves the cache empty.  A resource changed in the
    cache is what the next read of its path answers. *)
Theorem resource_cache_contract (repo : Repository) (s : PatcherEditor)
    (path : string) (r : BaseResource) :
  (PyDict.get path (memory_files s) = Some r ->
     get_file repo path s = (Ok r, s)) /\
  (PyDict.get path (memory_files s) = None ->
   get_parsed_asset repo (calls s) path = Ok r ->
     let s' := {| calls := GetParsedAsset path :: calls s;
                  memory_files := memory_files s ++ [(path, r)] |} in
     get_file repo path s = (Ok r, s') /\ get_file repo path s' = (Ok r, s')) /\
  (forall open_tree assets entry input_path output_path configuration p,
     (parses p (calls (snd (patch open_tree assets entry input_path output_path
                              configuration))) <= 1)%nat) /\
  (writes_accepted repo (calls s) (memory_files s) = true ->
     flush_modified_assets repo s
     = (Ok tt, {| calls := writes_of (memory_files s) ++ calls s; memory_files := [] |})) /\
  (forall scenario level,
     get_scenario repo scenario (snd (store_scenario scenario level s))
     = (Ok level, snd (store_scenario scenario level s))).
Proof.
  split; [apply get_file_cached|].
  split.
  { intros Hnone Hparse. cbv zeta.
    assert (H : get_file repo path s
                = (Ok r, {| calls := GetParsedAsset path :: calls s;
                            memory_files := memory_files s ++ [(path, r)] |})).
    { by rewrite (get_file_fresh repo _ _ Hnone), Hparse. }
    split; [exact H | exact (get_file_again repo _ _ _ _ H)]. }
  split.
  { intros. apply patch_parses_at_most_once. }
  split; [apply flush_modified_assets_accepted|].
  intros scenario level. apply get_scenario_after_store.
Qed.

Lemma resource_cache_contract_witness :
  (PyDict.get Sample.cave_path (memory_files new_editor) = None /\
   get_parsed_asset Sample.repo (calls new_editor) Sample.cave_path
   = Ok (ResBrfld Sample.cave) /\
   get_file Sample.repo Sample.cave_path new_editor
   = (Ok (ResBrfld Sample.cave), Sample.cave_cached)) /\
  (PyDict.get Sample.cave_path (memory_files Sample.cave_cached)
   = Some (ResBrfld Sample.cave) /\
   get_file Sample.repo Sample.cave_path Sample.cave_cached
   = (Ok (ResBrfld Sample.cave), Sample.cave_cached)) /\
  (writes_accepted Sample.repo (calls Sample.cave_cached)
     (memory_files Sample.cave_cached) = true /\
   flush_modified_assets Sample.repo Sample.cave_cached
   = (Ok tt, {| calls := [ ReplaceAsset Sample.cave_path (DataResource (ResBrfld Sample.cave));
                          GetParsedAsset Sample.cave_path ];
                memory_files := [] |})).
Proof.
  split; [|split].
  - split; [reflexivity|]. split; [reflexivity|].
    apply (resource_cache_contract Sample.repo new_editor Sample.cave_path
             (ResBrfld Sample.cave)); reflexivity.
  - split; [reflexivity|].
    apply (resource_cache_contract Sample.repo Sample.cave_cached Sample.cave_path
             (ResBrfld Sample.cave)); reflexivity.
  - split; [reflexivity|].
    apply (resource_cache_contract Sample.repo Sample.cave_cached Sample.cave_path
             (ResBrfld Sample.cave)); reflexivity.
Defined.

(** ** The copy of the initialization script *)

Lemma memory_repo_existence_laws init game :
  existence_laws (MemoryRepo.repository init game).
Proof.
  split.
  - reflexivity.
  - intros h name data in_pkgs. simpl.
    destruct (PyDict.mem name (MemoryRepo.entries (MemoryRepo.replay init h))) eqn:E;
      [discriminate|].
    intros _. simpl. by rewrite PyDictFacts.mem_set, String.eqb_refl.
Qed.

Section InitCopy.
Context (repo : Repository).

Lemma create_init_copy_present s :
  does_asset_exists repo (calls s) original_init = true ->
  create_init_copy repo s
  = (Ok tt, {| calls := DoesAssetExists original_init :: calls s;
               memory_files := memory_files s |}).
Proof.
  intros H. unfold create_init_copy, bind, editor_does_asset_exists, invoke.
  by rewrite H.
Qed.

Lemma create_init_copy_absent s :
  does_asset_exists repo (calls s) original_init = false ->
  create_init_copy repo s
  = match get_raw_asset repo (DoesAssetExists original_init :: calls s) init_lc with
    | Ok original_lc =>
        (add_new_asset repo (GetRawAsset init_lc :: DoesAssetExists original_init :: calls s)
           original_init (DataBytes original_lc) (PkgsOf init_lc),
         {| calls := AddNewAsset original_init (DataBytes original_lc) (PkgsOf init_lc)
                     :: GetRawAsset init_lc :: DoesAssetExists original_init :: calls s;
            memory_files := memory_files s |})
    | Raise e =>
        (Raise e, {| calls := GetRawAsset init_lc :: DoesAssetExists original_init :: calls s;
                     memory_files := memory_files s |})
    end.
Proof.
  intros H.
  unfold create_init_copy, bind, editor_does_asset_exists, editor_get_raw_asset,
    editor_add_new_asset, invoke.
  rewrite H. simpl.
  by destruct (get_raw_asset repo (DoesAssetExists original_init :: calls s) init_lc).
Qed.

Lemma create_init_copy_repeated s s1 :
  existence_laws repo ->
  create_init_copy repo s = (Ok tt, s1) ->
  does_asset_exists repo (calls s1) original_init = true.
Proof.
  intros [Hread Hadd].
  destruct (does_asset_exists repo (calls s) original_init) eqn:E.
  - rewrite (create_init_copy_present _ E). intros [= <-]. simpl. by rewrite Hread.
  - rewrite (create_init_copy_absent _ E).
    destruct (get_raw_asset repo _ init_lc) as [lc|e]; [|discriminate].
    intros [= Hok <-]. simpl. by apply Hadd.
Qed.

End InitCopy.

(** C8: where the copy of the initialization script exists, the editor
    only asks whether it does, and changes nothing in the repository;
    where it does not exist, the bytes of the live script are read and
    inserted under the name of the copy, aimed at the groups of the live
    script; and after a run that succeeded, on a repository that
    remembers what it took in, a further run finds the copy and changes
    nothing. *)
Theorem init_copy_made_once (repo : Repository) (s : PatcherEditor) :
  (does_asset_exists repo (calls s) original_init = true ->
     create_init_copy repo s
     = (Ok tt, {| calls := DoesAssetExists original_init :: calls s;
                  memory_files := memory_files s |}) /\
     mutations (calls (snd (create_init_copy repo s))) = mutations (calls s)) /\
  (forall original_lc,
     does_asset_exists repo (calls s) original_init = false ->
     get_raw_asset repo (DoesAssetExists original_init :: calls s) init_lc = Ok original_lc ->
     create_init_copy repo s
     = (add_new_asset repo (GetRawAsset init_lc :: DoesAssetExists original_init :: calls s)
          original_init (DataBytes original_lc) (PkgsOf init_lc),
        {| calls := AddNewAsset original_init (DataBytes original_lc) (PkgsOf init_lc)
                    :: GetRawAsset init_lc :: DoesAssetExists original_init :: calls s;
           memory_files := memory_files s |})) /\
  (forall s1,
     existence_laws repo ->
     create_init_copy repo s = (Ok tt, s1) ->
     create_init_copy repo s1
     = (Ok tt, {| calls := DoesAssetExists original_init :: calls s1;
                  memory_files := memory_files s1 |}) /\
     mutations (calls (snd (create_init_copy repo s1))) = mutations (calls s1)).
Proof.
  split; [|split].
  - intros H. rewrite (create_init_copy_present _ _ H). by split.
  - intros lc H Hraw. by rewrite (create_init_copy_absent _ _ H), Hraw.
  - intros s1 Hlaws Hrun.
    pose proof (create_init_copy_repeated _ _ _ Hlaws Hrun) as H.
    rewrite (create_init_copy_present _ _ H). by split.
Qed.

Lemma init_copy_made_once_witness :
  (does_asset_exists Sample.repo (calls new_editor) original_init = false /\
   get_raw_asset Sample.repo (DoesAssetExists original_init :: calls new_editor) init_lc
   = Ok "Game.Init()" /\
   create_init_copy Sample.repo new_editor
   = (Ok tt, {| calls := [ AddNewAsset original_init (DataBytes "Game.Init()") (PkgsOf init_lc);
                          GetRawAsset init_lc;
                          DoesAssetExists original_init ];
                memory_files := [] |})) /\
  (existence_laws Sample.repo /\
   create_init_copy Sample.repo (snd (create_init_copy Sample.repo new_editor))
   = (Ok tt, {| calls := [ DoesAssetExists original_init;
                          AddNewAsset original_init (DataBytes "Game.Init()") (PkgsOf init_lc);
                          GetRawAsset init_lc;
                          DoesAssetExists original_init ];
                memory_files := [] |})) /\
  (does_asset_exists Sample.repo
     (calls (snd (create_init_copy Sample.repo new_editor))) original_init = true /\
   mutations (calls (snd (create_init_copy Sample.repo
                            (snd (create_init_copy Sample.repo new_editor)))))
   = mutations (calls (snd (create_init_copy Sample.repo new_editor)))).
Proof.
  destruct (init_copy_made_once Sample.repo new_editor) as (_ & Hnew & Hagain).
  destruct (init_copy_made_once Sample.repo
              (snd (create_init_copy Sample.repo new_editor))) as (Hthere & _ & _).
  split; [|split].
  - split; [reflexivity|]. split; [reflexivity|].
    apply (Hnew "Game.Init()"); reflexivity.
  - split; [apply memory_repo_existence_laws|].
    apply (Hagain (snd (create_init_copy Sample.repo new_editor)));
      [apply memory_repo_existence_laws | reflexivity].
  - split; [reflexivity|].
    apply Hthere. reflexivity.
Defined.

(** ** The run of patch *)

Section PatchFacts.
Context (repo : Repository) (assets : Assets).

Lemma patch_edits_emits configuration :
  emits (fun c => negb (is_save c)) (patch_edits repo assets configuration).
Proof.
  unfold patch_edits, editor_replace_asset.
  apply emits_bind.
  { apply (emits_weaken (fun c => negb (is_save c) && negb (is_parse c)));
      [by intros []|apply create_init_copy_emits]. }
  intros _. apply emits_bind; [apply emits_lift|]. intros script.
  apply emits_bind; [apply emits_lift|]. intros bytes.
  apply emits_bind; [by apply emits_invoke|]. intros _.
  apply emits_bind.
  { destruct (elevators configuration); [|apply emits_ret].
    apply (emits_weaken is_parse); [by intros []|apply patch_elevators_emits]. }
  intros _. apply emits_bind; [apply patch_pickups_emits|]. intros _.
  apply (emits_weaken is_replace); [by intros []|apply flush_modified_assets_emits].
Qed.

(** With nothing at the romfs directory of the output, the stages end at
    the removal: the export is not called, whatever came before. *)
Lemma patch_stages_absent out configuration s :
  let run := patch_stages repo assets Absent out configuration s in
  is_ok (fst run) = false /\
  exists new, calls (snd run) = new ++ calls s /\
              forallb (fun c => negb (is_save c)) new = true.
Proof.
  cbv zeta. unfold patch_stages, bind.
  destruct (patch_edits_emits configuration s) as (new & Hcalls & Hnew).
  destruct (patch_edits repo assets configuration s) as [[[]|e] s1]; simpl in *; eauto.
Qed.

Lemma patch_stages_absent_after_edits out configuration s s1 :
  patch_edits repo assets configuration s = (Ok tt, s1) ->
  patch_stages repo assets Absent out configuration s = (Raise (FileNotFoundError out), s1).
Proof. intros H. unfold patch_stages, bind. by rewrite H. Qed.

Lemma patch_stages_directory_after_edits out configuration s s1 :
  patch_edits repo assets configuration s = (Ok tt, s1) ->
  patch_stages repo assets Directory out configuration s
  = (save_modified_pkgs repo (calls s1) out,
     {| calls := SaveModifiedPkgs out :: calls s1; memory_files := memory_files s1 |}).
Proof. intros H. unfold patch_stages, bind. by rewrite H. Qed.

End PatchFacts.

(** C10: a run of [patch] that finds nothing at the romfs directory of
    the output never succeeds and never calls the export; when the
    configuration is valid, the tree opens and the edits in memory with
    the commit of the cache have gone through, the run ends in the error
    of the removal of that directory, the editor being as the commit
    left it, whereas with a directory there the export is called. *)
Theorem patch_without_output_directory (open_tree : string -> result Repository)
    (assets : Assets) (input_path output_path : string) (configuration : Configuration) :
  is_ok (fst (patch open_tree assets Absent input_path output_path configuration)) = false /\
  forallb (fun c => negb (is_save c))
    (calls (snd (patch open_tree assets Absent input_path output_path configuration))) = true /\
  (forall repo s,
     schema_accepts assets configuration = true ->
     open_tree input_path = Ok repo ->
     patch_edits repo assets configuration new_editor = (Ok tt, s) ->
     patch open_tree assets Absent input_path output_path configuration
     = (Raise (FileNotFoundError (joinpath output_path "romfs")), s) /\
     patch open_tree assets Directory input_path output_path configuration
     = (save_modified_pkgs repo (calls s) (joinpath output_path "romfs"),
        {| calls := SaveModifiedPkgs (joinpath output_path "romfs") :: calls s;
           memory_files := memory_files s |})).
Proof.
  unfold patch.
  destruct (schema_accepts assets configuration) eqn:Hvalid; simpl.
  2:{ split; [done|]. split; [done|]. intros repo s Hfalse. discriminate. }
  destruct (open_tree input_path) as [repo|e] eqn:Hopen.
  2:{ split; [done|]. split; [done|]. intros repo s _ Hfalse. discriminate. }
  destruct (patch_stages_absent repo assets (joinpath output_path "romfs")
              configuration new_editor) as (Hfail & new & Hcalls & Hnew).
  split; [exact Hfail|]. split.
  - rewrite Hcalls. simpl. by rewrite app_nil_r.
  - intros repo' s _ [= <-] Hedits. split; [by apply patch_stages_absent_after_edits|].
    by apply patch_stages_directory_after_edits.
Qed.

Lemma patch_without_output_directory_witness :
  schema_accepts Sample.assets Sample.configuration = true /\
  (fun _ : string => Ok Sample.repo) "in" = Ok Sample.repo /\
  fst (patch_edits Sample.repo Sample.assets Sample.configuration new_editor) = Ok tt /\
  patch (fun _ => Ok Sample.repo) Sample.assets Absent "in" "out" Sample.configuration
  = (Raise (FileNotFoundError "out/romfs"),
     snd (patch_edits Sample.repo Sample.assets Sample.configuration new_editor)).
Proof.
  split; [reflexivity|]. split; [reflexivity|]. split; [vm_compute; reflexivity|].
  destruct (patch_without_output_directory (fun _ => Ok Sample.repo) Sample.assets
              "in" "out" Sample.configuration) as (_ & _ & Hrun).
  apply (Hrun Sample.repo); [reflexivity | reflexivity |].
  vm_compute. reflexivity.
Defined.

(** ** The warp patcher *)

Lemma getitem_some {A} k (d : list (string * A)) v :
  PyDict.get k d = Some v -> PyDict.getitem k d = Ok v.
Proof. unfold PyDict.getitem. by intros ->. Qed.

Lemma bind_lift {A B} (r : result A) (k : A -> M B) s :
  bind (lift r) k s = match r with Ok a => k a s | Raise e => (Raise e, s) end.
Proof. unfold bind, lift. by destruct r. Qed.

Lemma set_set {A} k (v v' : A) d :
  PyDict.set k v (PyDict.set k v' d) = PyDict.set k v d.
Proof.
  induction d as [|[k0 v0] d IH]; simpl.
  - by rewrite String.eqb_refl.
  - destruct (String.eqb k0 k) eqn:E; simpl; rewrite E; [done|]. by rewrite IH.
Qed.

Lemma bind_store_scenario {B} scenario level (k : unit -> M B) s :
  bind (store_scenario scenario level) k s
  = k tt {| calls := calls s;
            memory_files := PyDict.set (path_for_level scenario +:+ ".brfld") level
                              (memory_files s) |}.
Proof. reflexivity. Qed.

Lemma usable_of_absent ref actor :
  has_usable actor = false -> usable_of ref actor = Raise (not_a_teleporter ref).
Proof.
  unfold has_usable, usable_of.
  destruct actor as [| | | | |fields]; simpl; try done.
  destruct (PyDict.get "pComponents" fields) as [c|]; simpl; [|done].
  destruct c as [| | | | |comps]; simpl; try done.
  by destruct (PyDict.get "USABLE" comps).
Qed.

Lemma usable_of_present ref fields comps usable :
  PyDict.get "pComponents" fields = Some (JDict comps) ->
  PyDict.get "USABLE" comps = Some usable ->
  usable_of ref (JDict fields) = Ok usable.
Proof. intros H1 H2. unfold usable_of. simpl. rewrite H1. simpl. by rewrite H2. Qed.

(** An assignment to a field of the USABLE component, seen from the
    actor. *)
Lemma update_usable_setattr field v fields comps usable :
  PyDict.get "pComponents" fields = Some (JDict comps) ->
  PyDict.get "USABLE" comps = Some (JDict usable) ->
  update_usable (Json.setattr field v) (JDict fields)
  = Ok (JDict (PyDict.set "pComponents"
                 (JDict (PyDict.set "USABLE" (JDict (PyDict.set field v usable)) comps))
                 fields)).
Proof.
  intros H1 H2. unfold update_usable. simpl.
  rewrite (getitem_some _ _ _ H1). simpl.
  by rewrite (getitem_some _ _ _ H2).
Qed.

(** What the read of a scene does to the editor: nothing when the scene
    is cached, else one parse and one new entry of the cache. *)
Lemma get_scenario_effect repo scenario s level s1 :
  get_scenario repo scenario s = (Ok level, s1) ->
  s1 = s \/
  s1 = {| calls := GetParsedAsset (path_for_level scenario +:+ ".brfld") :: calls s;
          memory_files := memory_files s ++ [(path_for_level scenario +:+ ".brfld", level)] |}.
Proof.
  unfold get_scenario.
  destruct (PyDict.get (path_for_level scenario +:+ ".brfld") (memory_files s)) as [r|] eqn:E.
  - rewrite (get_file_cached _ _ _ _ E). intros [= <- <-]. by left.
  - rewrite (get_file_fresh _ _ _ E).
    destruct (get_parsed_asset repo (calls s) _) as [r|e]; [|discriminate].
    intros [= <- <-]. by right.
Qed.

Lemma actor_at_with_actor level layer name actor layer' name' :
  layer' <> layer \/ name' <> name ->
  actor_at (with_actor level layer name actor) layer' name' = actor_at level layer' name'.
Proof.
  intros Hne. unfold actor_at, with_actor.
  destruct level as [b| |]; try done.
  destruct (PyDict.get layer (layers b)) as [actors|] eqn:E; [|done].
  simpl. unfold PyDict.getitem at 1 3.
  destruct (String.eqb layer layer') eqn:El.
  - apply String.eqb_eq in El. subst layer'.
    rewrite PyDictFacts.get_set_eq, E. simpl.
    destruct Hne as [Hne|Hne]; [done|].
    unfold PyDict.getitem. by rewrite PyDictFacts.get_set_ne.
  - apply String.eqb_neq in El. by rewrite PyDictFacts.get_set_ne.
Qed.

Lemma actor_at_with_actor_eq level layer name actor actors :
  actors_for_layer level layer = Ok actors ->
  actor_at (with_actor level layer name actor) layer name = Ok actor.
Proof.
  unfold actor_at, with_actor, actors_for_layer.
  destruct level as [b| |]; try done.
  unfold PyDict.getitem at 1.
  destruct (PyDict.get layer (layers b)) as [acts|] eqn:E; [|done].
  intros _. simpl. unfold PyDict.getitem. rewrite PyDictFacts.get_set_eq. simpl.
  by rewrite PyDictFacts.get_set_eq.
Qed.

(** C4, as amended: for a warp edit whose source actor is found, (1) if
    the actor has no USABLE component the edit raises a ValueError whose
    message holds the actor reference as printed and the words "is not
    a teleporter"; the repository is not written to and every resource
    of the cache is as before, the scene of the actor having entered
    the cache if it was not there; (2) if the component is there, the
    edit succeeds and the cached scene differs from the one read in the
    fields sScenarioName and sTargetSpawnPoint of that component only,
    which hold the scenario and the actor of the destination. *)
Theorem warp_edit_outcome (repo : Repository) (s s1 : PatcherEditor) (elevator : Elevator)
    (scenario layer name : string) (level : BaseResource)
    (actors : list (string * json)) (actor : json) :
  PyDict.get "scenario" (teleporter elevator) = Some scenario ->
  PyDict.get "layer" (teleporter elevator) = Some layer ->
  PyDict.get "actor" (teleporter elevator) = Some name ->
  get_scenario repo scenario s = (Ok level, s1) ->
  actors_for_layer level layer = Ok actors ->
  PyDict.get name actors = Some actor ->
  (has_usable actor = false ->
     patch_elevator repo elevator s
     = (Raise (ValueError ("Actor " +:+ PyStr.str_dict (teleporter elevator)
                           +:+ " is not a teleporter")), s1) /\
     (s1 = s \/
      s1 = {| calls := GetParsedAsset (path_for_level scenario +:+ ".brfld") :: calls s;
              memory_files :=
                memory_files s ++ [(path_for_level scenario +:+ ".brfld", level)] |}) /\
     mutations (calls s1) = mutations (calls s) /\
     (forall p r, PyDict.get p (memory_files s) = Some r ->
                  PyDict.get p (memory_files s1) = Some r)) /\
  (forall fields comps usable dest_scenario dest_actor,
     actor = JDict fields ->
     PyDict.get "pComponents" fields = Some (JDict comps) ->
     PyDict.get "USABLE" comps = Some (JDict usable) ->
     PyDict.get "scenario" (destination elevator) = Some dest_scenario ->
     PyDict.get "actor" (destination elevator) = Some dest_actor ->
     let usable' := PyDict.set "sTargetSpawnPoint" (JStr dest_actor)
                      (PyDict.set "sScenarioName" (JStr dest_scenario) usable) in
     let actor' := JDict (PyDict.set "pComponents"
                            (JDict (PyDict.set "USABLE" (JDict usable') comps)) fields) in
     let level' := with_actor level layer name actor' in
     patch_elevator repo elevator s
     = (Ok tt, {| calls := calls s1;
                  memory_files := PyDict.set (path_for_level scenario +:+ ".brfld") level'
                                    (memory_files s1) |}) /\
     actor_at level' layer name = Ok actor' /\
     (forall layer' name', layer' <> layer \/ name' <> name ->
        actor_at level' layer' name' = actor_at level layer' name') /\
     PyDict.get "sScenarioName" usable' = Some (JStr dest_scenario) /\
     PyDict.get "sTargetSpawnPoint" usable' = Some (JStr dest_actor) /\
     (forall field, field <> "sScenarioName" -> field <> "sTargetSpawnPoint" ->
        PyDict.get field usable' = PyDict.get field usable)).
Proof.
  intros Hscen Hlayer Hname Hlevel Hactors Hactor.
  assert (Hrun : patch_elevator repo elevator s
                 = bind (lift (usable_of (teleporter elevator) actor))
                     (fun _ =>
                        (dest_scenario <- lift (PyDict.getitem "scenario" (destination elevator)) ;;
                         actor1 <- lift (update_usable
                                           (Json.setattr "sScenarioName" (JStr dest_scenario))
                                           actor) ;;
                         store_scenario scenario (with_actor level layer name actor1) ;;
                         dest_actor <- lift (PyDict.getitem "actor" (destination elevator)) ;;
                         actor2 <- lift (update_usable
                                           (Json.setattr "sTargetSpawnPoint" (JStr dest_actor))
                                           actor1) ;;
                         store_scenario scenario (with_actor level layer name actor2))%ed) s1).
  { unfold patch_elevator.
    rewrite bind_lift, (getitem_some _ _ _ Hscen).
    rewrite (bind_ok _ _ _ _ _ Hlevel).
    rewrite bind_lift, (getitem_some _ _ _ Hlayer).
    rewrite bind_lift, Hactors.
    rewrite bind_lift, (getitem_some _ _ _ Hname).
    rewrite bind_lift, (getitem_some _ _ _ Hactor).
    reflexivity. }
  split.
  - intros Hno. rewrite Hrun, bind_lift, (usable_of_absent _ _ Hno).
    split; [reflexivity|].
    pose proof (get_scenario_effect _ _ _ _ _ Hlevel) as Heff.
    split; [exact Heff|].
    destruct Heff as [->| ->]; [by split|]. simpl. split; [done|].
    intros p r Hp. clear -Hp. induction (memory_files s) as [|[k v] d IH]; simpl in *;
      [discriminate|]. destruct (String.eqb k p); auto.
  - intros fields comps usable dest_scenario dest_actor -> Hcomps Husable Hds Hda.
    cbv zeta. split; [|split; [|split; [|split; [|split]]]].
    + rewrite Hrun, bind_lift, (usable_of_present _ _ _ _ Hcomps Husable).
      rewrite bind_lift, (getitem_some _ _ _ Hds).
      rewrite bind_lift, (update_usable_setattr _ _ _ _ _ Hcomps Husable).
      rewrite bind_store_scenario.
      rewrite bind_lift, (getitem_some _ _ _ Hda).
      rewrite bind_lift.
      rewrite (update_usable_setattr "sTargetSpawnPoint" (JStr dest_actor) _ _ _
                 (PyDictFacts.get_set_eq _ _ _) (PyDictFacts.get_set_eq _ _ _)).
      unfold store_scenario, bind, get_memory_files, set_memory_files. simpl.
      by rewrite !set_set.
    + by apply (actor_at_with_actor_eq _ _ _ _ actors).
    + intros layer' name' Hne. by apply actor_at_with_actor.
    + by rewrite PyDictFacts.get_set_ne, PyDictFacts.get_set_eq.
    + by rewrite PyDictFacts.get_set_eq.
    + intros field H1 H2. by rewrite !PyDictFacts.get_set_ne.
Qed.

Lemma warp_edit_outcome_witness :
  PyDict.get "scenario" (teleporter Sample.warp) = Some "s010_cave" /\
  PyDict.get "layer" (teleporter Sample.warp) = Some "default" /\
  PyDict.get "actor" (teleporter Sample.warp) = Some "elevator_up" /\
  get_scenario Sample.repo "s010_cave" new_editor
  = (Ok (ResBrfld Sample.cave), Sample.cave_cached) /\
  actors_for_layer (ResBrfld Sample.cave) "default"
  = Ok [ ("elevator_up", Sample.elevator_actor);
         ("ItemSphere_000", Sample.tank_actor);
         ("statue", Sample.statue_actor) ] /\
  PyDict.get "scenario" (destination Sample.warp) = Some "s020_magma" /\
  PyDict.get "actor" (destination Sample.warp) = Some "StartPoint0" /\
  patch_elevator Sample.repo Sample.warp new_editor
  = (Ok tt,
     {| calls := [GetParsedAsset Sample.cave_path];
        memory_files :=
          [ (Sample.cave_path,
             ResBrfld
               {| layers :=
                    [ ("default",
                       [ ("elevator_up",
                          JDict [ ("sName", JStr "elevator_up");
                                  ("pComponents",
                                   JDict [ ("USABLE",
                                            JDict [ ("sScenarioName", JStr "s020_magma");
                                                    ("sTargetSpawnPoint", JStr "StartPoint0");
                                                    ("sUsableEntity", JStr "elevator") ]);
                                           ("AUDIO", JDict []) ]) ]);
                         ("ItemSphere_000", Sample.tank_actor);
                         ("statue", Sample.statue_actor) ]) ] |}) ] |}).
Proof.
  do 7 (split; [reflexivity|]).
  pose proof (warp_edit_outcome Sample.repo new_editor Sample.cave_cached Sample.warp
                "s010_cave" "default" "elevator_up" (ResBrfld Sample.cave)
                [ ("elevator_up", Sample.elevator_actor);
                  ("ItemSphere_000", Sample.tank_actor);
                  ("statue", Sample.statue_actor) ]
                Sample.elevator_actor
                eq_refl eq_refl eq_refl eq_refl eq_refl eq_refl) as (_ & Hdone).
  pose proof (Hdone [ ("sName", JStr "elevator_up");
                      ("pComponents", JDict [ ("USABLE", Sample.usable); ("AUDIO", JDict []) ]) ]
                    [ ("USABLE", Sample.usable); ("AUDIO", JDict []) ]
                    [ ("sScenarioName", JStr "s010_cave");
                      ("sTargetSpawnPoint", JStr "StartPoint0");
                      ("sUsableEntity", JStr "elevator") ]
                    "s020_magma" "StartPoint0"
                    eq_refl eq_refl eq_refl eq_refl eq_refl) as (Hrun & _).
  exact Hrun.
Defined.

(** C4 as stated fails: the warp edit of an actor that is no teleporter
    raises a ValueError, and it leaves the scene of the actor in the
    cache, which was empty. *)
Lemma warp_edit_of_a_statue_fills_the_cache :
  has_usable Sample.statue_actor = false /\
  actor_at (ResBrfld Sample.cave) "default" "statue" = Ok Sample.statue_actor /\
  patch_elevator Sample.repo Sample.bad_warp new_editor
  = (Raise (ValueError
       "Actor {'scenario': 's010_cave', 'layer': 'default', 'actor': 'statue'} is not a teleporter"),
     Sample.cave_cached) /\
  memory_files new_editor = [] /\
  memory_files Sample.cave_cached = [(Sample.cave_path, ResBrfld Sample.cave)] /\
  memory_files Sample.cave_cached <> memory_files new_editor.
Proof.
  repeat (split; [reflexivity|]). discriminate.
Qed.

(** ** The script injector *)

Lemma app_cons c (a b : string) : String c a +:+ b = String c (a +:+ b).
Proof. reflexivity. Qed.

Lemma app_empty (b : string) : EmptyString +:+ b = b.
Proof. reflexivity. Qed.

Lemma prefix_app old y : String.prefix old (old +:+ y) = true.
Proof.
  induction old as [|c old IH].
  - rewrite app_empty. by destruct y.
  - rewrite app_cons. simpl. by destruct (ascii_dec c c).
Qed.

Lemma string_app_assoc (a b c : string) : (a +:+ b) +:+ c = a +:+ (b +:+ c).
Proof.
  induction a as [|x a IH]; [done|].
  rewrite !app_cons. by rewrite IH.
Qed.

(** The scan passes over the rest of a match. *)
Lemma replace_scan_skip old new o y :
  PyStr.replace_scan old new (String.length o) (o +:+ y) = PyStr.replace_scan old new 0 y.
Proof.
  induction o as [|c o IH].
  - rewrite app_empty. by destruct y.
  - rewrite app_cons. exact IH.
Qed.

(** Up to the first occurrence the text is kept, the occurrence is
    replaced, and the scan goes on behind it. *)
Lemma replace_scan_first old new x y :
  old <> EmptyString ->
  find old (x +:+ old +:+ y) = Some (String.length x) ->
  PyStr.replace_scan old new 0 (x +:+ old +:+ y)
  = x +:+ new +:+ PyStr.replace_scan old new 0 y.
Proof.
  intros Hold. unfold find. induction x as [|c x IH].
  - intros _. rewrite !app_empty. destruct old as [|c old]; [done|].
    rewrite app_cons. cbn [PyStr.replace_scan]. rewrite <- app_cons, prefix_app.
    f_equal.
    replace (String.length (String c old) - 1)%nat with (String.length old)
      by (simpl; lia).
    apply replace_scan_skip.
  - rewrite !app_cons. cbn [String.index PyStr.replace_scan String.length].
    destruct (String.prefix old (String c (x +:+ old +:+ y))) eqn:E; [discriminate|].
    destruct (String.index 0 old (x +:+ old +:+ y)) as [n|] eqn:En; [|discriminate].
    intros [= ->]. by rewrite IH.
Qed.

(** A text without an occurrence is left as it is. *)
Lemma replace_scan_none old new s :
  old <> EmptyString -> find old s = None -> PyStr.replace_scan old new 0 s = s.
Proof.
  intros Hold. unfold find. induction s as [|c s IH]; [done|].
  cbn [String.index PyStr.replace_scan].
  destruct (String.prefix old (String c s)) eqn:E; [discriminate|].
  destruct (String.index 0 old s) as [n|] eqn:En; [discriminate|].
  intros _. by rewrite IH.
Qed.

Lemma replace_placeholder_first key new x y :
  find (placeholder key) (x +:+ placeholder key +:+ y) = Some (String.length x) ->
  PyStr.replace (placeholder key) new (x +:+ placeholder key +:+ y)
  = x +:+ new +:+ PyStr.replace (placeholder key) new y.
Proof. intros H. by apply (replace_scan_first (placeholder key)). Qed.

Lemma replace_placeholder_none key new s :
  find (placeholder key) s = None -> PyStr.replace (placeholder key) new s = s.
Proof. intros H. by apply (replace_scan_none (placeholder key)). Qed.

Lemma create_custom_init_unfold template inventory location scenario actor :
  PyDict.get "scenario" location = Some scenario ->
  PyDict.get "actor" location = Some actor ->
  create_custom_init template inventory location
  = Ok (substituted_script template (inventory_text inventory) scenario actor).
Proof.
  intros Hs Ha. unfold create_custom_init.
  by rewrite (getitem_some _ _ _ Hs), (getitem_some _ _ _ Ha).
Qed.

(** C6: the script is the template in which the three placeholders
    TEMPLATE("new_game_inventory"), TEMPLATE("starting_scenario") and
    TEMPLATE("starting_actor") have been replaced, in this order, by the
    inventory text, by the scenario between two double quotes and by
    the actor between two double quotes; the inventory text has a line
    "key = value," for each item, in the order of the mapping, the lines
    being joined by a newline; and for a template that holds each
    placeholder once, in texts that do not make up a placeholder
    themselves, the script is the template with the three texts in the
    places of the placeholders. *)
Theorem script_injector_substitutes (a b c d : string) (template : string)
    (inventory : list (string * Z)) (location : actor_reference) (scenario actor : string) :
  PyDict.get "scenario" location = Some scenario ->
  PyDict.get "actor" location = Some actor ->
  let quoted := fun v : string => String "034"%char (v +:+ String "034"%char EmptyString) in
  let hole := fun key : string =>
    "TEMPLATE(" +:+ String "034"%char (key +:+ String "034"%char ")") in
  create_custom_init template inventory location
  = Ok (PyStr.replace (hole "starting_actor") (quoted actor)
          (PyStr.replace (hole "starting_scenario") (quoted scenario)
             (PyStr.replace (hole "new_game_inventory") (inventory_text inventory)
                template))) /\
  (forall key value rest,
     inventory_text ((key, value) :: rest)
     = match rest with
       | [] => key +:+ " = " +:+ PyStr.str_int value +:+ ","
       | _ :: _ => (key +:+ " = " +:+ PyStr.str_int value +:+ ",")
                   +:+ String "010"%char EmptyString +:+ inventory_text rest
       end) /\
  (let lines := inventory_text inventory in
   let p1 := hole "new_game_inventory" in
   let p2 := hole "starting_scenario" in
   let p3 := hole "starting_actor" in
   find p1 (a +:+ p1 +:+ b +:+ p2 +:+ c +:+ p3 +:+ d) = Some (String.length a) ->
   find p1 (b +:+ p2 +:+ c +:+ p3 +:+ d) = None ->
   find p2 ((a +:+ lines +:+ b) +:+ p2 +:+ c +:+ p3 +:+ d)
   = Some (String.length (a +:+ lines +:+ b)) ->
   find p2 (c +:+ p3 +:+ d) = None ->
   find p3 ((a +:+ lines +:+ b +:+ quoted scenario +:+ c) +:+ p3 +:+ d)
   = Some (String.length (a +:+ lines +:+ b +:+ quoted scenario +:+ c)) ->
   find p3 d = None ->
   create_custom_init (a +:+ p1 +:+ b +:+ p2 +:+ c +:+ p3 +:+ d) inventory location
   = Ok (a +:+ lines +:+ b +:+ quoted scenario +:+ c +:+ quoted actor +:+ d)).
Proof.
  intros Hs Ha quoted hole.
  change quoted with _wrap. change hole with placeholder. clear quoted hole.
  split; [by apply create_custom_init_unfold|]. split.
  { intros key value [|item rest]; reflexivity. }
  cbv zeta. intros H1 H1' H2 H2' H3 H3'.
  rewrite (create_custom_init_unfold _ _ _ _ _ Hs Ha). f_equal.
  unfold substituted_script.
  rewrite (replace_placeholder_first _ _ _ _ H1), (replace_placeholder_none _ _ _ H1').
  replace (a +:+ inventory_text inventory +:+ b +:+ placeholder "starting_scenario"
           +:+ c +:+ placeholder "starting_actor" +:+ d)
    with ((a +:+ inventory_text inventory +:+ b) +:+ placeholder "starting_scenario"
          +:+ c +:+ placeholder "starting_actor" +:+ d)
    by (by rewrite !string_app_assoc).
  rewrite (replace_placeholder_first _ _ _ _ H2), (replace_placeholder_none _ _ _ H2').
  replace ((a +:+ inventory_text inventory +:+ b) +:+ _wrap scenario
           +:+ c +:+ placeholder "starting_actor" +:+ d)
    with ((a +:+ inventory_text inventory +:+ b +:+ _wrap scenario +:+ c)
          +:+ placeholder "starting_actor" +:+ d)
    by (by rewrite !string_app_assoc).
  rewrite (replace_placeholder_first _ _ _ _ H3), (replace_placeholder_none _ _ _ H3').
  by rewrite !string_app_assoc.
Qed.

Lemma script_injector_substitutes_witness :
  PyDict.get "scenario" Sample.magma_start = Some "s020_magma" /\
  PyDict.get "actor" Sample.magma_start = Some "StartPoint0" /\
  Sample.custom_init
  = "Init.tNewGameInventory = {TEMPLATE("
    +:+ String "034"%char ("new_game_inventory"
    +:+ String "034"%char (")}; Init.sStartingScenario = TEMPLATE("
    +:+ String "034"%char ("starting_scenario"
    +:+ String "034"%char ("); Init.sStartingActor = TEMPLATE("
    +:+ String "034"%char ("starting_actor" +:+ String "034"%char ")"))))) /\
  create_custom_init Sample.custom_init
    [("ITEM_MAX_LIFE", 99); ("ITEM_CURRENT_LIFE", 99)] Sample.magma_start
  = Ok ("Init.tNewGameInventory = {ITEM_MAX_LIFE = 99,"
        +:+ String "010"%char ("ITEM_CURRENT_LIFE = 99,}; Init.sStartingScenario = "
        +:+ String "034"%char ("s020_magma"
        +:+ String "034"%char ("; Init.sStartingActor = "
        +:+ String "034"%char ("StartPoint0" +:+ String "034"%char EmptyString))))).
Proof.
  do 3 (split; [reflexivity|]).
  pose proof (script_injector_substitutes
                "Init.tNewGameInventory = {" "}; Init.sStartingScenario = "
                "; Init.sStartingActor = " EmptyString EmptyString
                [("ITEM_MAX_LIFE", 99); ("ITEM_CURRENT_LIFE", 99)]
                Sample.magma_start "s020_magma" "StartPoint0" eq_refl eq_refl)
    as (_ & _ & Hshape).
  exact (Hshape eq_refl eq_refl eq_refl eq_refl eq_refl eq_refl).
Defined.

(** C7, as amended: a placeholder that the template lacks is no error.
    With the scenario and the actor of the starting location given the
    script injector returns a script, which is the template itself when
    none of the placeholders occurs in it; it raises only for a starting
    location without its scenario or its actor, a KeyError. *)
Theorem script_injector_failures (template : string) (inventory : list (string * Z))
    (location : actor_reference) :
  (forall scenario actor,
     PyDict.get "scenario" location = Some scenario ->
     PyDict.get "actor" location = Some actor ->
     is_ok (create_custom_init template inventory location) = true /\
     (find (placeholder "new_game_inventory") template = None ->
      find (placeholder "starting_scenario") template = None ->
      find (placeholder "starting_actor") template = None ->
      create_custom_init template inventory location = Ok template)) /\
  (forall e,
     create_custom_init template inventory location = Raise e <->
     (PyDict.get "scenario" location = None /\ e = KeyError "scenario") \/
     (PyDict.get "scenario" location <> None /\
      PyDict.get "actor" location = None /\ e = KeyError "actor")).
Proof.
  split.
  - intros scenario actor Hs Ha.
    rewrite (create_custom_init_unfold _ _ _ _ _ Hs Ha). split; [done|].
    intros H1 H2 H3. f_equal. unfold substituted_script.
    rewrite (replace_placeholder_none _ _ _ H1), (replace_placeholder_none _ _ _ H2).
    apply (replace_placeholder_none _ _ _ H3).
  - intros e. unfold create_custom_init, PyDict.getitem.
    destruct (PyDict.get "scenario" location) as [scenario|]; simpl.
    + destruct (PyDict.get "actor" location) as [actor|]; simpl.
      * split; [discriminate|]. intros [[? _]|(_ & ? & _)]; discriminate.
      * split.
        -- intros [= <-]. right. by repeat split.
        -- intros [[? _]|(_ & _ & ->)]; [discriminate|done].
    + split.
      * intros [= <-]. by left.
      * intros [[_ ->]|(H & _)]; [done|by destruct H].
Qed.

Lemma script_injector_failures_witness :
  PyDict.get "scenario" Sample.magma_start = Some "s020_magma" /\
  PyDict.get "actor" Sample.magma_start = Some "StartPoint0" /\
  find (placeholder "new_game_inventory") "Game.Init()" = None /\
  find (placeholder "starting_scenario") "Game.Init()" = None /\
  find (placeholder "starting_actor") "Game.Init()" = None /\
  create_custom_init "Game.Init()" [("ITEM_MAX_LIFE", 99)] Sample.magma_start
  = Ok "Game.Init()".
Proof.
  do 5 (split; [reflexivity|]).
  destruct (script_injector_failures "Game.Init()" [("ITEM_MAX_LIFE", 99)]
              Sample.magma_start) as (Hreturns & _).
  apply (Hreturns "s020_magma" "StartPoint0"); reflexivity.
Defined.

(** C7 as stated fails: a template with no placeholder at all is
    returned as the script, and nothing is raised. *)
Lemma template_without_placeholders_is_returned :
  find (placeholder "new_game_inventory") "Game.Init()" = None /\
  find (placeholder "starting_scenario") "Game.Init()" = None /\
  find (placeholder "starting_actor") "Game.Init()" = None /\
  create_custom_init "Game.Init()" [("ITEM_MAX_LIFE", 99)] Sample.magma_start
  = Ok "Game.Init()" /\
  is_ok (create_custom_init "Game.Init()" [("ITEM_MAX_LIFE", 99)] Sample.magma_start) = true.
Proof. repeat split. Qed.

(** ** The pickup patcher *)

Lemma insertions_app n2 n1 : insertions (n2 ++ n1) = insertions n1 ++ insertions n2.
Proof.
  induction n2 as [|c n2 IH]; simpl; [by rewrite app_nil_r|].
  destruct c; try exact IH. by rewrite IH, app_assoc.
Qed.

Lemma insertions_none new :
  forallb (fun c => negb (is_add c)) new = true -> insertions new = [].
Proof.
  induction new as [|c new IH]; simpl; [done|].
  intros H. apply andb_prop in H as [Hc Hnew].
  destruct c; simpl in *; auto. discriminate.
Qed.

Lemma groups_found_app repo base n2 n1 :
  groups_found repo base (n2 ++ n1)
  = groups_found repo base n1 ++ groups_found repo (n1 ++ base) n2.
Proof.
  induction n2 as [|c n2 IH]; simpl; [by rewrite app_nil_r|].
  by rewrite IH, <- !app_assoc.
Qed.

Lemma groups_found_none repo base new :
  forallb (fun c => negb (is_find c)) new = true -> groups_found repo base new = [].
Proof.
  induction new as [|c new IH]; simpl; [done|].
  intros H. apply andb_prop in H as [Hc Hnew]. rewrite IH by done.
  destruct c; simpl in *; auto. discriminate.
Qed.

Lemma forallb_weaken {A} (P Q : A -> bool) l :
  (forall x, P x = true -> Q x = true) -> forallb P l = true -> forallb Q l = true.
Proof. intros HPQ. rewrite !forallb_forall. auto. Qed.

Lemma powerup_path_is_not_the_script i :
  String.eqb (powerup_path i) powerup_lua_path = false.
Proof. reflexivity. Qed.

Lemma powerup_insertions_without_script found : forall i,
  List.filter (fun x => String.eqb (fst x) powerup_lua_path) (powerup_insertions i found) = [].
Proof.
  induction found as [|g rest IH]; intros i; [done|].
  cbn [powerup_insertions List.filter fst].
  rewrite powerup_path_is_not_the_script. apply IH.
Qed.

Section PickupFacts.
Context (repo : Repository) (assets : Assets).

Lemma ensure_dependencies_only_ensures pkg :
  emits is_ensure (ensure_dependencies repo pkg).
Proof. unfold ensure_dependencies, editor_ensure_present. emits_auto. Qed.

Tactic Notation "step" hyp(H) "as" ident(a) ident(s) ident(Hstep) :=
  apply bind_ok_inv in H as (a & s & Hstep & H).

Tactic Notation "lift_step" hyp(H) "as" ident(a) ident(Hval) :=
  let s := fresh "s" in
  apply bind_ok_inv in H as (a & s & Hval & H);
  apply lift_ok_inv in Hval as [Hval ->].

(** One turn of the pickup loop, as the calls it adds: the groups of the
    scene are asked for, the scene is read, the actor definition made
    from the template is inserted, aimed at these groups, and the
    dependencies are ensured. *)
Lemma patch_pickup_calls i pickup acc s acc' s' :
  patch_pickup repo assets i pickup acc s = (Ok acc', s') ->
  exists scenario found definition ensures reads,
    PyDict.get "scenario" (pickup_actor pickup) = Some scenario /\
    find_pkgs repo (calls s) (path_for_level scenario +:+ ".brfld") = Ok found /\
    new_template (template_powerup_bmsad assets) i pickup = Ok definition /\
    acc' = acc ∪ list_to_set found /\
    forallb is_ensure ensures = true /\
    forallb is_parse reads = true /\
    calls s'
    = (ensures
       ++ AddNewAsset (powerup_path i)
            (DataResource (ResBmsad definition (target_game repo)))
            (PkgsSet (list_to_set found))
       :: reads ++ [FindPkgs (path_for_level scenario +:+ ".brfld")]) ++ calls s.
Proof.
  intros H. unfold patch_pickup in H.
  lift_step H as scenario Hval.
  assert (Hscen : PyDict.get "scenario" (pickup_actor pickup) = Some scenario).
  { unfold PyDict.getitem in Hval.
    destruct (PyDict.get "scenario" (pickup_actor pickup)); by inversion Hval. }
  step H as found s1 Hfind.
  unfold editor_find_pkgs, invoke in Hfind. injection Hfind as Hfound <-.
  cbv zeta in H.
  step H as level s2 Hlevel.
  destruct (get_file_emits repo (path_for_level scenario +:+ ".brfld")
              {| calls := FindPkgs (path_for_level scenario +:+ ".brfld") :: calls s;
                 memory_files := memory_files s |}) as (n2 & Hc2 & Hq2).
  unfold get_scenario in Hlevel. rewrite Hlevel in Hc2. simpl in Hc2.
  lift_step H as layer Hlayer. lift_step H as actors Hactors.
  lift_step H as name Hname. lift_step H as actor Hactor.
  lift_step H as template Htemplate.
  step H as u3 s3 Hadd.
  unfold editor_add_new_asset, invoke in Hadd. injection Hadd as _ <-.
  lift_step H as actor1 Hactor1.
  step H as u4 s4 Hstore1.
  unfold store_scenario, bind, get_memory_files, set_memory_files in Hstore1.
  injection Hstore1 as _ <-.
  lift_step H as actor2 Hactor2.
  step H as u5 s5 Hstore2.
  unfold store_scenario, bind, get_memory_files, set_memory_files in Hstore2.
  injection Hstore2 as _ <-.
  step H as u6 s6 Hensure.
  match type of Hensure with
  | for_each ?xs ?body ?st = _ =>
      destruct (emits_for_each is_ensure xs body ensure_dependencies_only_ensures st)
        as (n5 & Hc5 & Hq5)
  end.
  rewrite Hensure in Hc5. simpl in Hc5.
  unfold ret in H. injection H as <- <-.
  exists scenario, found, template, n5, n2.
  do 6 (split; [done|]).
  rewrite Hc5, Hc2. rewrite <- app_assoc. simpl. rewrite <- app_assoc. reflexivity.
Qed.

(** One turn of the pickup loop: the groups of the scene are asked for
    once, the actor definition is inserted once, aimed at these groups,
    and the groups join those gathered. *)
Lemma patch_pickup_trace i pickup acc s acc' s' :
  patch_pickup repo assets i pickup acc s = (Ok acc', s') ->
  exists scenario found new,
    PyDict.get "scenario" (pickup_actor pickup) = Some scenario /\
    find_pkgs repo (calls s) (path_for_level scenario +:+ ".brfld") = Ok found /\
    acc' = acc ∪ list_to_set found /\
    calls s' = new ++ calls s /\
    insertions new = [(powerup_path i, PkgsSet (list_to_set found))] /\
    groups_found repo (calls s) new
    = [(path_for_level scenario +:+ ".brfld", list_to_set found)].
Proof.
  intros H. apply patch_pickup_calls in H
    as (scenario & found & definition & n5 & n2 & Hscen & Hfound & _ & -> & Hq5 & Hq2 & Hc).
  exists scenario, found. eexists. split; [done|]. split; [done|]. split; [done|].
  split; [exact Hc|]. split.
  - rewrite insertions_app. simpl. rewrite insertions_app. simpl.
    rewrite (insertions_none n2), (insertions_none n5); [done| |].
    + by apply (forallb_weaken is_ensure); [intros []|].
    + by apply (forallb_weaken is_parse); [intros []|].
  - rewrite groups_found_app. simpl. rewrite groups_found_app. simpl.
    rewrite Hfound.
    rewrite (groups_found_none _ _ n2), (groups_found_none _ _ n5); [done| |].
    + by apply (forallb_weaken is_ensure); [intros []|].
    + by apply (forallb_weaken is_parse); [intros []|].
Qed.

Lemma pickups_loop_trace config : forall i acc s acc' s',
  pickups_loop repo assets i config acc s = (Ok acc', s') ->
  exists new,
    calls s' = new ++ calls s /\
    map scene_path config = map (fun g => Some (fst g)) (groups_found repo (calls s) new) /\
    insertions new = powerup_insertions i (groups_found repo (calls s) new) /\
    acc' = acc ∪ ⋃ (snd <$> groups_found repo (calls s) new).
Proof.
  induction config as [|pickup rest IH]; intros i acc s acc' s'; simpl.
  - unfold ret. intros [= <- <-]. exists []. simpl.
    repeat split; auto. by rewrite (right_id_L ∅ (∪)).
  - intros H. apply bind_ok_inv in H as (acc1 & s1 & Hturn & H).
    apply patch_pickup_trace in Hturn
      as (scenario & found & n1 & Hscen & Hfound & -> & Hc1 & Hi1 & Hg1).
    apply IH in H as (n2 & Hc2 & Hpaths & Hi2 & ->).
    rewrite Hc1 in Hc2, Hpaths, Hi2 |- *.
    exists (n2 ++ n1). rewrite <- app_assoc. split; [done|].
    rewrite groups_found_app, insertions_app, Hg1, Hi1, Hi2. simpl.
    split; [|split].
    + unfold scene_path at 1. rewrite Hscen. by rewrite Hpaths.
    + done.
    + by rewrite (assoc_L (∪)).
Qed.

End PickupFacts.

(** C9: in a run of the pickup patcher that succeeds, the groups of the
    scene of each pickup are asked for once, in the order of the
    pickups; the actor definition of pickup i is inserted once, under
    the path of its index, aimed at the groups of the scene of that
    pickup; and the script is inserted after them, once in all, aimed
    at the union of the groups of all these scenes. *)
Theorem shared_script_inserted_once (repo : Repository) (assets : Assets)
    (pickups_config : list Pickup) (s s' : PatcherEditor) :
  patch_pickups repo assets pickups_config s = (Ok tt, s') ->
  exists new,
    calls s' = new ++ calls s /\
    map scene_path pickups_config
    = map (fun g => Some (fst g)) (groups_found repo (calls s) new) /\
    insertions new
    = powerup_insertions 0 (groups_found repo (calls s) new)
      ++ [(powerup_lua_path, PkgsSet (⋃ (snd <$> groups_found repo (calls s) new)))] /\
    length (List.filter (fun x => String.eqb (fst x) powerup_lua_path) (insertions new))
    = 1%nat.
Proof.
  intros H. unfold patch_pickups in H.
  apply bind_ok_inv in H as (acc & s1 & Hloop & H).
  apply pickups_loop_trace in Hloop as (n1 & Hc1 & Hpaths & Hi1 & ->).
  unfold editor_add_new_asset, invoke in H. injection H as _ <-.
  eexists (AddNewAsset _ _ _ :: n1). simpl. rewrite Hc1. split; [done|].
  rewrite app_nil_r, Hi1, (left_id_L ∅ (∪)).
  split; [done|]. split; [done|].
  rewrite List.filter_app, powerup_insertions_without_script. reflexivity.
Qed.

Lemma shared_script_inserted_once_witness :
  patch_pickups Sample.repo Sample.assets [Sample.tank (PInt 1); Sample.missiles] new_editor
  = (Ok tt, snd (patch_pickups Sample.repo Sample.assets
                   [Sample.tank (PInt 1); Sample.missiles] new_editor)) /\
  insertions (calls (snd (patch_pickups Sample.repo Sample.assets
                            [Sample.tank (PInt 1); Sample.missiles] new_editor)))
  = [ (powerup_path 0,
       PkgsSet (list_to_set [ "packs/maps/s010_cave/s010_cave.pkg";
                              "packs/maps/s010_cave/subareas/subareapack_0.pkg" ]));
      (powerup_path 1, PkgsSet (list_to_set ["packs/maps/s020_magma/s020_magma.pkg"]));
      (powerup_lua_path,
       PkgsSet (list_to_set [ "packs/maps/s010_cave/s010_cave.pkg";
                              "packs/maps/s010_cave/subareas/subareapack_0.pkg";
                              "packs/maps/s020_magma/s020_magma.pkg" ])) ] /\
  exists new,
    calls (snd (patch_pickups Sample.repo Sample.assets
                  [Sample.tank (PInt 1); Sample.missiles] new_editor))
    = new ++ calls new_editor /\
    map scene_path [Sample.tank (PInt 1); Sample.missiles]
    = map (fun g => Some (fst g)) (groups_found Sample.repo (calls new_editor) new) /\
    insertions new
    = powerup_insertions 0 (groups_found Sample.repo (calls new_editor) new)
      ++ [(powerup_lua_path,
           PkgsSet (⋃ (snd <$> groups_found Sample.repo (calls new_editor) new)))] /\
    length (List.filter (fun x => String.eqb (fst x) powerup_lua_path) (insertions new))
    = 1%nat.
Proof.
  split; [vm_compute; reflexivity|]. split; [vm_compute; reflexivity|].
  apply (shared_script_inserted_once Sample.repo Sample.assets
           [Sample.tank (PInt 1); Sample.missiles] new_editor).
  vm_compute. reflexivity.
Defined.

(** ** The parameters of the actor definitions that the pickup patcher inserts *)

(** A mutation at a path that reads succeeds when the mutation of what
    is read does. *)
Lemma update_total path f : forall j c c',
  keyed path = true ->
  Json.getpath path j = Ok c -> f c = Ok c' ->
  exists j', Json.update path f j = Ok j'.
Proof.
  induction path as [|sel path IH]; intros j c c' Hkeyed Hget Hf.
  - simpl in Hget. injection Hget as ->. by exists c'.
  - cbn [Json.getpath] in Hget. cbn [Json.update].
    destruct (Json.select sel j) as [c0|e] eqn:Hsel; [|discriminate]. cbn [rbind] in Hget |- *.
    assert (Hrest : keyed path = true).
    { destruct sel as [k|i]; [exact Hkeyed|]. simpl in Hkeyed.
      by destruct path as [|[k|i'] path]. }
    destruct (IH c0 c c' Hrest Hget Hf) as (c0' & ->). cbn [rbind].
    destruct sel as [k|i].
    + destruct j as [| | | | |d]; try discriminate. by eexists.
    + destruct j as [| | |text|l|d]; try discriminate.
      * simpl in Hkeyed. destruct path as [|[k|i'] path]; try discriminate.
        simpl in Hsel. destruct (Nat.ltb i (String.length text)); [|discriminate].
        injection Hsel as <-. discriminate.
      * simpl in Hsel |- *. destruct (l !! i) as [v|] eqn:Hl; [|discriminate].
        apply lookup_lt_Some in Hl. apply Nat.ltb_lt in Hl. rewrite Hl. by eexists.
Qed.

(** The builder of the actor definition succeeds on a template that has
    the captions of the PICKABLE component and a parameter dict on
    which the parameter block succeeds. *)
Lemma new_template_total template i pickup captions params params' :
  pickable_captions template = Ok (JDict captions) ->
  pickable_params template = Ok params ->
  set_custom_params (item_id pickup) (quantity pickup) params = Ok params' ->
  exists definition, new_template template i pickup = Ok definition.
Proof.
  unfold pickable_captions, pickable_params. intros Hcaptions Hparams Hblock.
  change (Json.getpath (pickable_path ++ [Key "fields"; Key "fields"]) template
          = Ok (JDict captions)) in Hcaptions.
  change (Json.getpath (pickable_path ++ params_path) template = Ok params) in Hparams.
  rewrite getpath_app in Hcaptions, Hparams.
  destruct (Json.getpath pickable_path template) as [P0|e] eqn:HP0; [|discriminate].
  cbn [rbind] in Hcaptions, Hparams.
  assert (exists top, template = JDict top) as (top & ->).
  { destruct template; try discriminate. by eexists. }
  unfold new_template. cbn [Json.setitem rbind].
  assert (Ht : Json.getpath pickable_path (JDict (PyDict.set "name" (JStr (powerup_name i)) top))
               = Ok P0).
  { rewrite <- HP0. unfold pickable_path.
    by apply (setitem_getpath_other "name" (JStr (powerup_name i)) "property" _ (JDict top)). }
  rewrite Ht. cbn [rbind].
  destruct (update_total [Key "fields"; Key "fields"]
              (Json.setitem "sOnPickCaption" (JStr (caption pickup))) P0 _ _
              eq_refl Hcaptions eq_refl) as (P1 & HP1).
  rewrite HP1. cbn [rbind].
  destruct (update_getpath _ _ _ _ HP1) as (c1 & c1' & Hc1 & Hset1 & Hc1').
  rewrite Hcaptions in Hc1. injection Hc1 as <-. simpl in Hset1. injection Hset1 as <-.
  destruct (update_total [Key "fields"; Key "fields"]
              (Json.setitem "sOnPickTankUnknownCaption" (JStr (caption pickup))) P1 _ _
              eq_refl Hc1' eq_refl) as (P2 & HP2).
  rewrite HP2. cbn [rbind].
  assert (Hp2 : Json.getpath params_path P2 = Ok params).
  { rewrite <- Hparams. unfold params_path.
    rewrite (update_getpath_other _ _ _ "functions" _ _ _ HP2) by discriminate.
    by rewrite (update_getpath_other _ _ _ "functions" _ _ _ HP1) by discriminate. }
  rewrite Hp2. cbn [rbind]. rewrite Hblock. cbn [rbind].
  destruct (update_total params_path (fun _ => Ok params') P2 params params'
              eq_refl Hp2 eq_refl) as (P3 & HP3).
  rewrite HP3. cbn [rbind].
  apply (update_total pickable_path (fun _ => Ok P3) _ P0 P3 eq_refl Ht eq_refl).
Qed.

(** The parameter dict of the actor definition that the builder makes:
    that of the template after the parameter block. *)
Lemma new_template_pickable_params template i pickup definition :
  new_template template i pickup = Ok definition ->
  exists params params',
    pickable_params template = Ok params /\
    set_custom_params (item_id pickup) (quantity pickup) params = Ok params' /\
    pickable_params definition = Ok params'.
Proof.
  intros H. apply new_template_params in H as (params & params' & Ht & Hblock & Hd & _).
  by exists params, params'.
Qed.

Section InsertedFacts.
Context (repo : Repository) (assets : Assets).

(** The actor definitions that a run of the pickup loop inserts: for
    the pickup at each place of the list, what the builder makes of the
    template for its index, under the path of its index. *)
Lemma pickups_loop_definitions config : forall base acc s acc' s',
  pickups_loop repo assets base config acc s = (Ok acc', s') ->
  exists new,
    calls s' = new ++ calls s /\
    forall i pickup, config !! i = Some pickup ->
      exists definition in_pkgs,
        new_template (template_powerup_bmsad assets) (base + i) pickup = Ok definition /\
        In (AddNewAsset (powerup_path (base + i))
              (DataResource (ResBmsad definition (target_game repo))) in_pkgs) new.
Proof.
  induction config as [|first rest IH]; intros base acc s acc' s'; simpl.
  - unfold ret. intros [= <- <-]. exists []. split; [done|]. intros i pickup H. discriminate.
  - intros H. apply bind_ok_inv in H as (acc1 & s1 & Hturn & H).
    apply patch_pickup_calls in Hturn
      as (scenario & found & definition & ensures & reads & _ & _ & Hdef & _ & _ & _ & Hc1).
    apply IH in H as (n2 & Hc2 & Hrest).
    eexists (n2 ++ _). split.
    { rewrite Hc2, Hc1. by rewrite app_assoc. }
    intros [|i] pickup Hlookup.
    + injection Hlookup as <-. rewrite Nat.add_0_r.
      exists definition, (PkgsSet (list_to_set found)). split; [exact Hdef|].
      apply in_or_app. right. apply in_or_app. right. by left.
    + destruct (Hrest i pickup Hlookup) as (d & pkgs & Hd & Hin).
      replace (base + S i)%nat with (S base + i)%nat by lia.
      exists d, pkgs. split; [exact Hd|]. apply in_or_app. by left.
Qed.

Lemma patch_pickups_definitions config s s' i pickup :
  patch_pickups repo assets config s = (Ok tt, s') ->
  config !! i = Some pickup ->
  exists new definition in_pkgs,
    calls s' = new ++ calls s /\
    new_template (template_powerup_bmsad assets) i pickup = Ok definition /\
    In (AddNewAsset (powerup_path i)
          (DataResource (ResBmsad definition (target_game repo))) in_pkgs) new.
Proof.
  intros H Hlookup. unfold patch_pickups in H.
  apply bind_ok_inv in H as (acc & s1 & Hloop & H).
  apply pickups_loop_definitions in Hloop as (n1 & Hc1 & Hdefs).
  unfold editor_add_new_asset, invoke in H. injection H as _ <-.
  destruct (Hdefs i pickup Hlookup) as (definition & in_pkgs & Hdef & Hin).
  eexists (AddNewAsset _ _ _ :: n1), definition, in_pkgs. simpl.
  split; [by rewrite Hc1|]. split; [exact Hdef|]. by right.
Qed.

End InsertedFacts.

(** C1, as amended: for every record that a run of the pickup patcher
    processes, the actor definition inserted under the path of the
    record's index is the one built from the template for that record,
    and in the parameter dict of the first function of its PICKABLE
    component Param1 is the item id and Param2 the quantity, both as
    rewritten for the item; Param13 is there with the rewritten quantity
    as its value when the rewritten quantity is greater than one, and
    when the rewritten quantity is at most one no parameter is added and
    Param13 is as the template had it.  The definition is built whenever
    the template has the captions and the parameters that the record's
    item assigns, and the quantity is within the doubles. *)
Theorem display_parameter_follows_rewritten_quantity (repo : Repository) (assets : Assets)
    (pickups_config : list Pickup) (s s' : PatcherEditor) (i : nat) (pickup : Pickup) :
  pickups_config !! i = Some pickup ->
  (forall captions d qty',
     pickable_captions (template_powerup_bmsad assets) = Ok (JDict captions) ->
     pickable_params (template_powerup_bmsad assets) = Ok (JDict d) ->
     forallb (has_slot d) (assigned_params (item_id pickup)) = true ->
     rewritten_quantity (item_id pickup) (quantity pickup) = Ok qty' ->
     exists definition,
       new_template (template_powerup_bmsad assets) i pickup = Ok definition) /\
  (patch_pickups repo assets pickups_config s = (Ok tt, s') ->
   exists new definition in_pkgs params params' qty',
     calls s' = new ++ calls s /\
     new_template (template_powerup_bmsad assets) i pickup = Ok definition /\
     In (AddNewAsset (powerup_path i)
           (DataResource (ResBmsad definition (target_game repo))) in_pkgs) new /\
     pickable_params (template_powerup_bmsad assets) = Ok params /\
     pickable_params definition = Ok params' /\
     rewritten_quantity (item_id pickup) (quantity pickup) = Ok qty' /\
     param_value "Param1" params' = Ok (JStr (rewritten_item (item_id pickup))) /\
     param_value "Param2" params' = Ok (JNum qty') /\
     (PyNum.gt_one qty' = true ->
        Json.getitem "Param13" params'
        = Ok (JDict [("type", JStr "f"); ("value", JNum qty')])) /\
     (PyNum.le_one qty' = true ->
        Json.getitem "Param13" params' = Json.getitem "Param13" params /\
        keys params' = keys params)).
Proof.
  intros Hlookup. split.
  - intros captions d qty' Hcaptions Hparams Hslots Hqty.
    destruct (set_custom_params_total _ _ _ d Hslots Hqty) as (params' & Hblock).
    apply (new_template_total _ _ _ captions (JDict d) params' Hcaptions Hparams Hblock).
  - intros Hrun.
    destruct (patch_pickups_definitions repo assets _ _ _ _ _ Hrun Hlookup)
      as (new & definition & in_pkgs & Hcalls & Hdef & Hin).
    destruct (new_template_pickable_params _ _ _ _ Hdef)
      as (params & params' & Ht & Hblock & Hd).
    destruct (set_custom_params_values _ _ _ _ Hblock) as (qty' & Hq & V1 & V2 & Hgt & Hle).
    exists new, definition, in_pkgs, params, params', qty'.
    do 8 (split; [done|]). split; [exact Hgt|].
    intros Hone. apply Hle. by apply le_one_not_gt_one.
Qed.

Lemma display_parameter_follows_rewritten_quantity_witness :
  (exists definition, new_template Sample.template 1 Sample.missiles = Ok definition) /\
  exists new definition in_pkgs params',
    calls (snd (patch_pickups Sample.repo Sample.assets
                  [Sample.tank (PInt 1); Sample.missiles] new_editor))
    = new ++ calls new_editor /\
    In (AddNewAsset (powerup_path 1) (DataResource (ResBmsad definition "dread")) in_pkgs) new /\
    pickable_params definition = Ok params' /\
    param_value "Param1" params' = Ok (JStr "ITEM_WEAPON_MISSILE_MAX") /\
    param_value "Param2" params' = Ok (JNum (PInt 2)) /\
    Json.getitem "Param13" params' = Ok (JDict [("type", JStr "f"); ("value", JNum (PInt 2))]).
Proof.
  destruct (display_parameter_follows_rewritten_quantity Sample.repo Sample.assets
              [Sample.tank (PInt 1); Sample.missiles] new_editor
              (snd (patch_pickups Sample.repo Sample.assets
                      [Sample.tank (PInt 1); Sample.missiles] new_editor))
              1 Sample.missiles eq_refl) as [Hbuilt Hrun].
  split.
  - apply (Hbuilt [("sOnPickCaption", JStr "caption"); ("sOnPickFX", JStr "fx")]
             [ ("Param1", Sample.slot "s" (JStr "ITEM_NONE"));
               ("Param2", Sample.slot "f" (JNum (PFloat 0)));
               ("Param4", Sample.slot "s" (JStr "Set"));
               ("Param5", Sample.slot "s" (JStr "NONE"));
               ("Param6", Sample.slot "s" (JStr "NONE"));
               ("Param8", Sample.slot "s" (JStr "NONE")) ] (PInt 2)); reflexivity.
  - destruct Hrun as (new & definition & in_pkgs & params & params' & qty'
                      & Hcalls & _ & Hin & _ & Hd & Hq & V1 & V2 & Hgt & _).
    { vm_compute. reflexivity. }
    injection Hq as <-.
    exists new, definition, in_pkgs, params'.
    split; [exact Hcalls|]. split; [exact Hin|]. split; [exact Hd|].
    split; [exact V1|]. split; [exact V2|]. apply Hgt. reflexivity.
Defined.

(** C1 as stated fails: a record of one energy tank has quantity 1, and
    the template has no Param13, yet the actor definition that the
    pickup patcher inserts for it has Param13, with the rewritten
    quantity 100.0. *)
Lemma display_parameter_of_one_energy_tank :
  PyNum.le_one (quantity (Sample.tank (PInt 1))) = true /\
  (exists params, pickable_params Sample.template = Ok params /\
                  Json.getitem "Param13" params = Raise (KeyError "Param13")) /\
  fst (patch_pickups Sample.repo Sample.assets [Sample.tank (PInt 1)] new_editor) = Ok tt /\
  exists definition in_pkgs params',
    In (AddNewAsset (powerup_path 0) (DataResource (ResBmsad definition "dread")) in_pkgs)
       (calls (snd (patch_pickups Sample.repo Sample.assets [Sample.tank (PInt 1)]
                      new_editor))) /\
    pickable_params definition = Ok params' /\
    Json.getitem "Param13" params'
    = Ok (JDict [("type", JStr "f"); ("value", JNum (PFloat 100))]).
Proof.
  split; [reflexivity|]. split; [eexists; split; reflexivity|].
  split; [vm_compute; reflexivity|].
  destruct (patch_pickups_definitions Sample.repo Sample.assets [Sample.tank (PInt 1)]
              new_editor
              (snd (patch_pickups Sample.repo Sample.assets [Sample.tank (PInt 1)] new_editor))
              0 (Sample.tank (PInt 1)))
    as (new & definition & in_pkgs & Hcalls & Hdef & Hin);
    [vm_compute; reflexivity | reflexivity |].
  vm_compute in Hdef. injection Hdef as <-.
  eexists _, in_pkgs, _. split.
  { rewrite Hcalls. apply in_or_app. left. exact Hin. }
  split; reflexivity.
Qed.

(** C2: for a record of ITEM_ENERGY_TANKS with quantity 2 (the int or
    the float) that a run of the pickup patcher processes, the actor
    definition inserted under the path of the record's index is the one
    built from the template for that record, and in the parameter dict
    of the first function of its PICKABLE component Param1 is
    "fMaxLife", Param2 is 200.0, and Param4, Param5 and Param6 select
    the update of the current life to the full amount.  The definition
    is built whenever the template has the captions and these five
    parameters. *)
Theorem energy_tanks_of_quantity_two (repo : Repository) (assets : Assets)
    (pickups_config : list Pickup) (s s' : PatcherEditor) (i : nat) (pickup : Pickup) :
  pickups_config !! i = Some pickup ->
  item_id pickup = "ITEM_ENERGY_TANKS" ->
  quantity pickup = PInt 2 \/ quantity pickup = PFloat 2 ->
  (forall captions d,
     pickable_captions (template_powerup_bmsad assets) = Ok (JDict captions) ->
     pickable_params (template_powerup_bmsad assets) = Ok (JDict d) ->
     forallb (has_slot d) ["Param4"; "Param5"; "Param6"; "Param1"; "Param2"] = true ->
     exists definition,
       new_template (template_powerup_bmsad assets) i pickup = Ok definition) /\
  (patch_pickups repo assets pickups_config s = (Ok tt, s') ->
   exists new definition in_pkgs params',
     calls s' = new ++ calls s /\
     new_template (template_powerup_bmsad assets) i pickup = Ok definition /\
     In (AddNewAsset (powerup_path i)
           (DataResource (ResBmsad definition (target_game repo))) in_pkgs) new /\
     pickable_params definition = Ok params' /\
     param_value "Param1" params' = Ok (JStr "fMaxLife") /\
     param_value "Param2" params' = Ok (JNum (PFloat 200)) /\
     param_value "Param4" params' = Ok (JStr "Full") /\
     param_value "Param5" params' = Ok (JStr "fCurrentLife") /\
     param_value "Param6" params' = Ok (JStr "LIFE")).
Proof.
  intros Hlookup Hitem Hqty. split.
  - intros captions d Hcaptions Hparams Hslots.
    assert (Hq : rewritten_quantity (item_id pickup) (quantity pickup) = Ok (PFloat 200)).
    { rewrite Hitem. destruct Hqty as [-> | ->]; reflexivity. }
    destruct (set_custom_params_total (item_id pickup) (quantity pickup) (PFloat 200) d)
      as (params' & Hblock); [by rewrite Hitem | exact Hq |].
    apply (new_template_total _ _ _ captions (JDict d) params' Hcaptions Hparams Hblock).
  - intros Hrun.
    destruct (patch_pickups_definitions repo assets _ _ _ _ _ Hrun Hlookup)
      as (new & definition & in_pkgs & Hcalls & Hdef & Hin).
    destruct (new_template_pickable_params _ _ _ _ Hdef)
      as (params & params' & Ht & Hblock & Hd).
    rewrite Hitem in Hblock.
    exists new, definition, in_pkgs, params'.
    do 4 (split; [done|]).
    apply (energy_tanks_params _ _ _ Hqty Hblock).
Qed.

Lemma energy_tanks_of_quantity_two_witness :
  (exists definition, new_template Sample.template 0 (Sample.tank (PInt 2)) = Ok definition) /\
  exists new definition in_pkgs params',
    calls (snd (patch_pickups Sample.repo Sample.assets
                  [Sample.tank (PInt 2); Sample.missiles] new_editor))
    = new ++ calls new_editor /\
    In (AddNewAsset (powerup_path 0) (DataResource (ResBmsad definition "dread")) in_pkgs) new /\
    pickable_params definition = Ok params' /\
    param_value "Param1" params' = Ok (JStr "fMaxLife") /\
    param_value "Param2" params' = Ok (JNum (PFloat 200)) /\
    param_value "Param4" params' = Ok (JStr "Full") /\
    param_value "Param5" params' = Ok (JStr "fCurrentLife") /\
    param_value "Param6" params' = Ok (JStr "LIFE").
Proof.
  destruct (energy_tanks_of_quantity_two Sample.repo Sample.assets
              [Sample.tank (PInt 2); Sample.missiles] new_editor
              (snd (patch_pickups Sample.repo Sample.assets
                      [Sample.tank (PInt 2); Sample.missiles] new_editor))
              0 (Sample.tank (PInt 2)) eq_refl eq_refl (or_introl eq_refl))
    as [Hbuilt Hrun].
  split.
  - apply (Hbuilt [("sOnPickCaption", JStr "caption"); ("sOnPickFX", JStr "fx")]
             [ ("Param1", Sample.slot "s" (JStr "ITEM_NONE"));
               ("Param2", Sample.slot "f" (JNum (PFloat 0)));
               ("Param4", Sample.slot "s" (JStr "Set"));
               ("Param5", Sample.slot "s" (JStr "NONE"));
               ("Param6", Sample.slot "s" (JStr "NONE"));
               ("Param8", Sample.slot "s" (JStr "NONE")) ]); reflexivity.
  - destruct Hrun as (new & definition & in_pkgs & params' & Hcalls & _ & Hin & Hd & Hvalues).
    { vm_compute. reflexivity. }
    exists new, definition, in_pkgs, params'.
    split; [exact Hcalls|]. split; [exact Hin|]. split; [exact Hd | exact Hvalues].
Defined.

(** C3: for a record of ITEM_WEAPON_MISSILE_MAX or of
    ITEM_WEAPON_POWER_BOMB_MAX that a run of the pickup patcher
    processes, the actor definition inserted under the path of the
    record's index is the one built from the template for that record,
    and in the parameter dict of the first function of its PICKABLE
    component Param1 is the item id as given, Param2 the quantity as
    given, Param4 is "Custom", Param5 names the matching _CURRENT
    counter and Param8 the secondary-fire callback.  The definition is
    built whenever the template has the captions and these five
    parameters. *)
Theorem expansions_use_custom_update (repo : Repository) (assets : Assets)
    (pickups_config : list Pickup) (s s' : PatcherEditor) (i : nat) (pickup : Pickup)
    (current : string) :
  pickups_config !! i = Some pickup ->
  In (item_id pickup, current)
     [ ("ITEM_WEAPON_MISSILE_MAX", "ITEM_WEAPON_MISSILE_CURRENT");
       ("ITEM_WEAPON_POWER_BOMB_MAX", "ITEM_WEAPON_POWER_BOMB_CURRENT") ] ->
  (forall captions d,
     pickable_captions (template_powerup_bmsad assets) = Ok (JDict captions) ->
     pickable_params (template_powerup_bmsad assets) = Ok (JDict d) ->
     forallb (has_slot d) ["Param4"; "Param5"; "Param8"; "Param1"; "Param2"] = true ->
     exists definition,
       new_template (template_powerup_bmsad assets) i pickup = Ok definition) /\
  (patch_pickups repo assets pickups_config s = (Ok tt, s') ->
   exists new definition in_pkgs params',
     calls s' = new ++ calls s /\
     new_template (template_powerup_bmsad assets) i pickup = Ok definition /\
     In (AddNewAsset (powerup_path i)
           (DataResource (ResBmsad definition (target_game repo))) in_pkgs) new /\
     pickable_params definition = Ok params' /\
     param_value "Param1" params' = Ok (JStr (item_id pickup)) /\
     param_value "Param2" params' = Ok (JNum (quantity pickup)) /\
     param_value "Param4" params' = Ok (JStr "Custom") /\
     param_value "Param5" params' = Ok (JStr current) /\
     param_value "Param8" params' = Ok (JStr "guicallbacks.OnSecondaryGunsFire")).
Proof.
  intros Hlookup Hitem. split.
  - intros captions d Hcaptions Hparams Hslots.
    assert (Hnames : assigned_params (item_id pickup)
                     = ["Param4"; "Param5"; "Param8"; "Param1"; "Param2"]).
    { destruct Hitem as [[= Hid _]|[[= Hid _]|[]]]; rewrite <- Hid; reflexivity. }
    assert (Hq : rewritten_quantity (item_id pickup) (quantity pickup) = Ok (quantity pickup)).
    { destruct Hitem as [[= Hid _]|[[= Hid _]|[]]]; rewrite <- Hid; reflexivity. }
    destruct (set_custom_params_total (item_id pickup) (quantity pickup) (quantity pickup) d)
      as (params' & Hblock); [by rewrite Hnames | exact Hq |].
    apply (new_template_total _ _ _ captions (JDict d) params' Hcaptions Hparams Hblock).
  - intros Hrun.
    destruct (patch_pickups_definitions repo assets _ _ _ _ _ Hrun Hlookup)
      as (new & definition & in_pkgs & Hcalls & Hdef & Hin).
    destruct (new_template_pickable_params _ _ _ _ Hdef)
      as (params & params' & Ht & Hblock & Hd).
    exists new, definition, in_pkgs, params'.
    do 4 (split; [done|]).
    apply (expansions_params _ _ _ _ _ Hitem Hblock).
Qed.

Lemma expansions_use_custom_update_witness :
  (exists definition, new_template Sample.template 1 Sample.missiles = Ok definition) /\
  exists new definition in_pkgs params',
    calls (snd (patch_pickups Sample.repo Sample.assets
                  [Sample.tank (PInt 1); Sample.missiles] new_editor))
    = new ++ calls new_editor /\
    In (AddNewAsset (powerup_path 1) (DataResource (ResBmsad definition "dread")) in_pkgs) new /\
    pickable_params definition = Ok params' /\
    param_value "Param1" params' = Ok (JStr "ITEM_WEAPON_MISSILE_MAX") /\
    param_value "Param2" params' = Ok (JNum (PInt 2)) /\
    param_value "Param4" params' = Ok (JStr "Custom") /\
    param_value "Param5" params' = Ok (JStr "ITEM_WEAPON_MISSILE_CURRENT") /\
    param_value "Param8" params' = Ok (JStr "guicallbacks.OnSecondaryGunsFire").
Proof.
  destruct (expansions_use_custom_update Sample.repo Sample.assets
              [Sample.tank (PInt 1); Sample.missiles] new_editor
              (snd (patch_pickups Sample.repo Sample.assets
                      [Sample.tank (PInt 1); Sample.missiles] new_editor))
              1 Sample.missiles "ITEM_WEAPON_MISSILE_CURRENT" eq_refl (or_introl eq_refl))
    as [Hbuilt Hrun].
  split.
  - apply (Hbuilt [("sOnPickCaption", JStr "caption"); ("sOnPickFX", JStr "fx")]
             [ ("Param1", Sample.slot "s" (JStr "ITEM_NONE"));
               ("Param2", Sample.slot "f" (JNum (PFloat 0)));
               ("Param4", Sample.slot "s" (JStr "Set"));
               ("Param5", Sample.slot "s" (JStr "NONE"));
               ("Param6", Sample.slot "s" (JStr "NONE"));
               ("Param8", Sample.slot "s" (JStr "NONE")) ]); reflexivity.
  - destruct Hrun as (new & definition & in_pkgs & params' & Hcalls & _ & Hin & Hd & Hvalues).
    { vm_compute. reflexivity. }
    exists new, definition, in_pkgs, params'.
    split; [exact Hcalls|]. split; [exact Hin|]. split; [exact Hd | exact Hvalues].
Defined.

(** * Further properties *)

(** ** Paths and names *)

Lemma string_length_app (a b : string) :
  String.length (a +:+ b) = (String.length a + String.length b)%nat.
Proof.
  induction a as [|x a IH]; [done|].
  rewrite app_cons. simpl. by rewrite IH.
Qed.

(** Two splits of a text at the same place are the same split. *)
Lemma string_app_same_length (x x' y y' : string) :
  x +:+ y = x' +:+ y' -> String.length x = String.length x' -> x = x' /\ y = y'.
Proof.
  revert x'. induction x as [|c x IH]; intros [|c' x'] H Hlen; try discriminate.
  - by rewrite !app_empty in H.
  - rewrite !app_cons in H. injection H as -> H. injection Hlen as Hlen.
    destruct (IH x' H Hlen) as [-> ->]. done.
Qed.

Lemma string_app_cancel_r (x x' y : string) : x +:+ y = x' +:+ y -> x = x'.
Proof.
  intros H. apply (string_app_same_length x x' y y H).
  apply (f_equal String.length) in H. rewrite !string_length_app in H. lia.
Qed.

Lemma path_for_level_inj (a b : string) : path_for_level a = path_for_level b -> a = b.
Proof.
  unfold path_for_level. intros H.
  apply (inj (String.app "maps/levels/c10_samus/")) in H.
  apply (string_app_same_length a b ("/" +:+ a) ("/" +:+ b) H).
  apply (f_equal String.length) in H. rewrite !string_length_app in H. simpl in H. lia.
Qed.

Lemma scene_key_inj (a b : string) : scene_key a = scene_key b -> a = b.
Proof.
  unfold scene_key. intros H. apply string_app_cancel_r in H.
  by apply path_for_level_inj.
Qed.

(** X1: the scenes of two scenarios are cached under two keys, so that
    a change of the cached scene of one scenario leaves the cached scene
    of any other scenario as it was. *)
Theorem scenes_do_not_share_a_cache_entry (a b : string) (level : BaseResource)
    (s : PatcherEditor) :
  a <> b ->
  path_for_level a +:+ ".brfld" <> path_for_level b +:+ ".brfld" /\
  PyDict.get (path_for_level a +:+ ".brfld") (memory_files (snd (store_scenario b level s)))
  = PyDict.get (path_for_level a +:+ ".brfld") (memory_files s).
Proof.
  intros Hne.
  assert (Hkeys : path_for_level b +:+ ".brfld" <> path_for_level a +:+ ".brfld").
  { intros H. apply Hne. symmetry. by apply scene_key_inj. }
  split; [congruence|].
  unfold store_scenario, bind, get_memory_files, set_memory_files. simpl.
  by apply PyDictFacts.get_set_ne.
Qed.

Lemma scenes_do_not_share_a_cache_entry_witness :
  "s010_cave" <> "s020_magma" /\
  PyDict.get Sample.cave_path
    (memory_files (snd (store_scenario "s020_magma" (ResBrfld Sample.magma)
                          Sample.cave_cached)))
  = Some (ResBrfld Sample.cave).
Proof.
  split; [discriminate|].
  destruct (scenes_do_not_share_a_cache_entry "s010_cave" "s020_magma"
              (ResBrfld Sample.magma) Sample.cave_cached) as [_ H]; [discriminate|].
  exact H.
Defined.

Lemma powerup_path_inj (i j : nat) : powerup_path i = powerup_path j -> i = j.
Proof.
  unfold powerup_path. intros H.
  apply (inj (String.app _)) in H.
  apply string_app_cancel_r in H.
  by apply (inj pretty) in H.
Qed.

Lemma powerup_insertions_names found : forall i,
  map fst (powerup_insertions i found) = map powerup_path (seq i (length found)).
Proof.
  induction found as [|g rest IH]; intros i; simpl; [done|]. by rewrite IH.
Qed.

Lemma NoDup_powerup_paths n : forall i, NoDup (map powerup_path (seq i n)).
Proof.
  induction n as [|n IH]; intros i; simpl; constructor; [|apply IH].
  rewrite list_elem_of_In, in_map_iff. intros (j & Hj & Hin).
  apply powerup_path_inj in Hj. subst j. apply in_seq in Hin. lia.
Qed.

(** X2: the actor definitions of a run are inserted under the names of
    the indices 0, 1, ... of the pickups, the script after them, and no
    name is inserted twice. *)
Theorem inserted_names_are_distinct (repo : Repository) (assets : Assets)
    (pickups_config : list Pickup) (s s' : PatcherEditor) :
  patch_pickups repo assets pickups_config s = (Ok tt, s') ->
  exists new,
    calls s' = new ++ calls s /\
    map fst (insertions new)
    = map powerup_path (seq 0 (length pickups_config)) ++ [powerup_lua_path] /\
    NoDup (map fst (insertions new)).
Proof.
  intros H. unfold patch_pickups in H.
  apply bind_ok_inv in H as (acc & s1 & Hloop & H).
  apply pickups_loop_trace in Hloop as (n1 & Hc1 & Hpaths & Hi1 & _).
  unfold editor_add_new_asset, invoke in H. injection H as _ <-.
  eexists (AddNewAsset _ _ _ :: n1). simpl. rewrite Hc1. split; [done|].
  assert (Hnames : map fst (insertions n1 ++ [(powerup_lua_path, PkgsSet acc)])
                   = map powerup_path (seq 0 (length pickups_config)) ++ [powerup_lua_path]).
  { rewrite map_app, Hi1, powerup_insertions_names. simpl. do 3 f_equal.
    apply (f_equal (@length _)) in Hpaths. by rewrite !length_map in Hpaths. }
  split; [exact Hnames|]. rewrite Hnames.
  apply NoDup_app. split; [apply NoDup_powerup_paths|]. split; [|apply NoDup_singleton].
  intros x Hx Hlua. apply list_elem_of_singleton in Hlua. subst x.
  apply list_elem_of_In, in_map_iff in Hx as (j & Hj & _).
  pose proof (powerup_path_is_not_the_script j) as Hne.
  rewrite Hj, String.eqb_refl in Hne. discriminate.
Qed.

Lemma inserted_names_are_distinct_witness :
  patch_pickups Sample.repo Sample.assets [Sample.tank (PInt 1); Sample.missiles] new_editor
  = (Ok tt, snd (patch_pickups Sample.repo Sample.assets
                   [Sample.tank (PInt 1); Sample.missiles] new_editor)) /\
  exists new,
    calls (snd (patch_pickups Sample.repo Sample.assets
                  [Sample.tank (PInt 1); Sample.missiles] new_editor))
    = new ++ calls new_editor /\
    map fst (insertions new)
    = map powerup_path (seq 0 (length [Sample.tank (PInt 1); Sample.missiles]))
      ++ [powerup_lua_path] /\
    NoDup (map fst (insertions new)).
Proof.
  split; [vm_compute; reflexivity|].
  apply (inserted_names_are_distinct Sample.repo Sample.assets
           [Sample.tank (PInt 1); Sample.missiles] new_editor).
  vm_compute. reflexivity.
Defined.

(** ** The cache: failures and what the commit writes *)

(** X3: when the repository cannot parse a path that is not cached, the
    read raises the error of the repository and caches nothing, so that
    the next read of the path asks the repository again. *)
Theorem failed_parse_is_not_cached (repo : Repository) (path : string)
    (s : PatcherEditor) (e : exn) :
  PyDict.get path (memory_files s) = None ->
  get_parsed_asset repo (calls s) path = Raise e ->
  get_file repo path s
  = (Raise e, {| calls := GetParsedAsset path :: calls s; memory_files := memory_files s |}) /\
  calls (snd (get_file repo path (snd (get_file repo path s))))
  = GetParsedAsset path :: GetParsedAsset path :: calls s.
Proof.
  intros Hnone Hparse.
  assert (H : get_file repo path s
              = (Raise e, {| calls := GetParsedAsset path :: calls s;
                             memory_files := memory_files s |})).
  { by rewrite (get_file_fresh repo _ _ Hnone), Hparse. }
  split; [exact H|]. rewrite H. cbn [snd].
  rewrite get_file_fresh by exact Hnone. cbn [calls memory_files].
  by destruct (get_parsed_asset repo (GetParsedAsset path :: calls s) path).
Qed.

Lemma failed_parse_is_not_cached_witness :
  PyDict.get "maps/levels/c10_samus/s090_skybase/s090_skybase.brfld"
    (memory_files Sample.cave_cached) = None /\
  get_parsed_asset Sample.repo (calls Sample.cave_cached)
    "maps/levels/c10_samus/s090_skybase/s090_skybase.brfld"
  = Raise (ValueError
      "Unknown asset_id: maps/levels/c10_samus/s090_skybase/s090_skybase.brfld") /\
  get_file Sample.repo "maps/levels/c10_samus/s090_skybase/s090_skybase.brfld"
    Sample.cave_cached
  = (Raise (ValueError
       "Unknown asset_id: maps/levels/c10_samus/s090_skybase/s090_skybase.brfld"),
     {| calls := [ GetParsedAsset "maps/levels/c10_samus/s090_skybase/s090_skybase.brfld";
                   GetParsedAsset Sample.cave_path ];
        memory_files := [(Sample.cave_path, ResBrfld Sample.cave)] |}).
Proof.
  split; [reflexivity|]. split; [reflexivity|].
  apply (failed_parse_is_not_cached Sample.repo
           "maps/levels/c10_samus/s090_skybase/s090_skybase.brfld" Sample.cave_cached);
    reflexivity.
Defined.

Section CommitFacts.
Context (repo : Repository).

Lemma for_each_app {A} (xs ys : list A) (body : A -> M unit) s :
  for_each (xs ++ ys) body s
  = bind (for_each xs body) (fun _ => for_each ys body) s.
Proof.
  revert s. induction xs as [|x xs IH]; intros s; simpl.
  - unfold bind, ret. reflexivity.
  - unfold bind. destruct (body x s) as [[[]|e] s1]; [|done].
    rewrite IH. reflexivity.
Qed.

(** The commit up to a write that the repository refuses. *)
Lemma for_each_replace_asset_refused written item rest e : forall s,
  writes_accepted repo (calls s) written = true ->
  replace_asset repo (writes_of written ++ calls s) (fst item) (DataResource (snd item))
  = Raise e ->
  for_each (written ++ item :: rest)
    (fun item => editor_replace_asset repo (fst item) (DataResource (snd item))) s
  = (Raise e, {| calls := ReplaceAsset (fst item) (DataResource (snd item))
                          :: writes_of written ++ calls s;
                 memory_files := memory_files s |}).
Proof.
  intros s Hacc Hrefused. rewrite for_each_app.
  unfold bind at 1. rewrite (for_each_replace_asset repo _ _ Hacc).
  simpl. unfold bind, editor_replace_asset, invoke. simpl. by rewrite Hrefused.
Qed.

End CommitFacts.

(** X4: a commit stops at the first write that the repository refuses:
    the error of that write is raised, the writes before it have been
    made, those after it have not, and the cache is not emptied. *)
Theorem commit_stops_at_refused_write (repo : Repository) (s : PatcherEditor)
    (written rest : list (string * BaseResource)) (item : string * BaseResource) (e : exn) :
  memory_files s = written ++ item :: rest ->
  writes_accepted repo (calls s) written = true ->
  replace_asset repo (writes_of written ++ calls s) (fst item) (DataResource (snd item))
  = Raise e ->
  flush_modified_assets repo s
  = (Raise e, {| calls := ReplaceAsset (fst item) (DataResource (snd item))
                          :: writes_of written ++ calls s;
                 memory_files := memory_files s |}).
Proof.
  intros Hfiles Hacc Hrefused. unfold flush_modified_assets.
  unfold bind at 1. unfold get_memory_files at 1. rewrite Hfiles at 1.
  unfold bind. by rewrite (for_each_replace_asset_refused repo _ _ _ _ _ Hacc Hrefused).
Qed.

Lemma commit_stops_at_refused_write_witness :
  memory_files {| calls := [];
                  memory_files := [ (Sample.cave_path, ResBrfld Sample.cave);
                                    (Sample.magma_path, ResBrfld Sample.magma) ] |}
  = [(Sample.cave_path, ResBrfld Sample.cave)]
    ++ (Sample.magma_path, ResBrfld Sample.magma) :: [] /\
  writes_accepted (refusing Sample.repo Sample.magma_path (RepositoryError "read-only"))
    [] [(Sample.cave_path, ResBrfld Sample.cave)] = true /\
  flush_modified_assets
    (refusing Sample.repo Sample.magma_path (RepositoryError "read-only"))
    {| calls := [];
       memory_files := [ (Sample.cave_path, ResBrfld Sample.cave);
                         (Sample.magma_path, ResBrfld Sample.magma) ] |}
  = (Raise (RepositoryError "read-only"),
     {| calls := [ ReplaceAsset Sample.magma_path (DataResource (ResBrfld Sample.magma));
                   ReplaceAsset Sample.cave_path (DataResource (ResBrfld Sample.cave)) ];
        memory_files := [ (Sample.cave_path, ResBrfld Sample.cave);
                          (Sample.magma_path, ResBrfld Sample.magma) ] |}).
Proof.
  split; [reflexivity|]. split; [reflexivity|].
  apply (commit_stops_at_refused_write
           (refusing Sample.repo Sample.magma_path (RepositoryError "read-only"))
           {| calls := [];
              memory_files := [ (Sample.cave_path, ResBrfld Sample.cave);
                                (Sample.magma_path, ResBrfld Sample.magma) ] |}
           [(Sample.cave_path, ResBrfld Sample.cave)] []
           (Sample.magma_path, ResBrfld Sample.magma)); reflexivity.
Defined.

(** *** What a method keeps *)

Lemma preserves_bind {A B} I (m : M A) (k : A -> M B) :
  preserves I m -> (forall a, preserves I (k a)) -> preserves I (bind m k).
Proof.
  intros Hm Hk s Hs. unfold bind. specialize (Hm s Hs).
  destruct (m s) as [[a|e] s1]; simpl in *; [by apply Hk | done].
Qed.

Lemma preserves_ret {A} I (a : A) : preserves I (ret a).
Proof. by intros s Hs. Qed.

Lemma preserves_lift {A} I (r : result A) : preserves I (lift r).
Proof. by intros s Hs. Qed.

Lemma preserves_get_memory_files I : preserves I get_memory_files.
Proof. by intros s Hs. Qed.

Lemma preserves_for_each {A} I (xs : list A) (body : A -> M unit) :
  (forall x, preserves I (body x)) -> preserves I (for_each xs body).
Proof.
  intros Hbody. induction xs as [|x xs IH]; simpl.
  - apply preserves_ret.
  - apply preserves_bind; auto.
Qed.

Lemma is_scene_key_scene scenario : is_scene_key (path_for_level scenario +:+ ".brfld").
Proof. by exists scenario. Qed.

Lemma scene_keys_set scenario (level : BaseResource)
    (files : list (string * BaseResource)) :
  Forall is_scene_key (map fst files) ->
  Forall is_scene_key
    (map fst (PyDict.set (path_for_level scenario +:+ ".brfld") level files)).
Proof.
  induction files as [|[k v] files IH]; simpl.
  - intros _. constructor; [apply is_scene_key_scene | constructor].
  - intros H. apply Forall_cons in H as [Hk H].
    destruct (String.eqb k _); simpl; constructor; auto.
Qed.

(** A property of an editor that the stages of patch keep: the cache
    holds scenes only, and the calls made so far have a property [W]
    that neither a call other than a write-back nor the write-back of
    a scene can break. *)
Section KeptFacts.
Context (repo : Repository) (assets : Assets).
Context (W : list call -> Prop).
Context (W_quiet : forall c h, is_replace c = false -> W h -> W (c :: h)).
Context (W_scene : forall name data h, is_scene_key name -> W h -> W (ReplaceAsset name data :: h)).

Abbreviation kept := (fun s => scene_keys s /\ W (calls s)).

Lemma preserves_invoke_quiet {A} c (answer : list call -> result A) :
  is_replace c = false -> preserves kept (invoke c answer).
Proof. intros Hc s [Hkeys Hcalls]. simpl. split; [exact Hkeys | by apply W_quiet]. Qed.

Lemma get_scenario_keeps scenario : preserves kept (get_scenario repo scenario).
Proof.
  intros s [Hkeys Hcalls]. unfold get_scenario.
  destruct (PyDict.get (path_for_level scenario +:+ ".brfld") (memory_files s))
    as [r|] eqn:E.
  - by rewrite (get_file_cached repo _ _ _ E).
  - rewrite (get_file_fresh repo _ _ E).
    assert (Hparse : W (GetParsedAsset (path_for_level scenario +:+ ".brfld") :: calls s))
      by (by apply W_quiet).
    destruct (get_parsed_asset repo (calls s) _) as [r|e]; simpl; [|done].
    split; [|exact Hparse]. unfold scene_keys. simpl.
    rewrite <- (PyDictFacts.set_absent _ _ _ E). by apply scene_keys_set.
Qed.

Lemma store_scenario_keeps scenario level : preserves kept (store_scenario scenario level).
Proof.
  intros s [Hkeys Hcalls].
  unfold store_scenario, bind, get_memory_files, set_memory_files. simpl.
  split; [by apply scene_keys_set | exact Hcalls].
Qed.

Ltac keeps_step :=
  lazymatch goal with
  | |- preserves _ (bind _ _) => apply preserves_bind; [|intros ?]
  | |- preserves _ (ret _) => apply preserves_ret
  | |- preserves _ (lift _) => apply preserves_lift
  | |- preserves _ (invoke _ _) => apply preserves_invoke_quiet; reflexivity
  | |- preserves _ (get_scenario _ _) => apply get_scenario_keeps
  | |- preserves _ (store_scenario _ _) => apply store_scenario_keeps
  | |- preserves _ (for_each _ _) => apply preserves_for_each; intros ?
  | |- preserves _ (if ?b then _ else _) => destruct b
  | |- preserves _ (match ?x with _ => _ end) => destruct x
  end.

Lemma create_init_copy_keeps : preserves kept (create_init_copy repo).
Proof.
  unfold create_init_copy, editor_does_asset_exists, editor_get_raw_asset,
    editor_add_new_asset.
  repeat keeps_step.
Qed.

Lemma patch_elevators_keeps config : preserves kept (patch_elevators repo config).
Proof.
  apply preserves_for_each. intros e. unfold patch_elevator.
  repeat (cbv zeta; keeps_step).
Qed.

Lemma patch_pickups_keeps config : preserves kept (patch_pickups repo assets config).
Proof.
  unfold patch_pickups, editor_add_new_asset.
  apply preserves_bind; [|intros a; repeat keeps_step].
  generalize 0%nat as i, (∅ : gset string) as acc.
  induction config as [|p rest IH]; intros i acc; simpl.
  - apply preserves_ret.
  - apply preserves_bind; [|intros a; apply IH].
    unfold patch_pickup, editor_find_pkgs, editor_add_new_asset,
      ensure_dependencies, editor_ensure_present.
    repeat (cbv zeta; keeps_step).
Qed.

(** The writes of a commit are of the keys of the cache. *)
Lemma for_each_replace_asset_keeps files : forall s,
  Forall is_scene_key (map fst files) ->
  kept s ->
  kept (snd (for_each files
               (fun item => editor_replace_asset repo (fst item) (DataResource (snd item)))
               s)).
Proof.
  induction files as [|item rest IH]; intros s Hfiles Hs; simpl; [done|].
  apply Forall_cons in Hfiles as [Hitem Hrest].
  assert (Hnext : kept {| calls := ReplaceAsset (fst item) (DataResource (snd item)) :: calls s;
                          memory_files := memory_files s |}).
  { destruct Hs as [Hkeys Hcalls]. split; [exact Hkeys | by apply W_scene]. }
  assert (E : editor_replace_asset repo (fst item) (DataResource (snd item)) s
              = (replace_asset repo (calls s) (fst item) (DataResource (snd item)),
                 {| calls := ReplaceAsset (fst item) (DataResource (snd item)) :: calls s;
                    memory_files := memory_files s |})) by reflexivity.
  unfold bind. rewrite E.
  destruct (replace_asset repo (calls s) (fst item) (DataResource (snd item)));
    [|exact Hnext].
  apply IH; [exact Hrest | exact Hnext].
Qed.

Lemma flush_modified_assets_keeps : preserves kept (flush_modified_assets repo).
Proof.
  intros s Hs.
  pose proof (for_each_replace_asset_keeps (memory_files s) s (proj1 Hs) Hs) as Hloop.
  assert (E : flush_modified_assets repo s
              = bind (for_each (memory_files s)
                        (fun item => editor_replace_asset repo (fst item)
                                       (DataResource (snd item))))
                  (fun _ => set_memory_files []) s) by reflexivity.
  rewrite E. unfold bind.
  destruct (for_each (memory_files s) _ s) as [[[]|e] s1]; cbn [snd] in Hloop |- *.
  - split; [constructor | exact (proj2 Hloop)].
  - exact Hloop.
Qed.

(** The stages of [patch_edits] that follow the write of init.lc. *)
Lemma patch_edits_tail_keeps configuration :
  preserves kept
    (match elevators configuration with
     | Some elevators_config => patch_elevators repo elevators_config
     | None => ret tt
     end ;;
     patch_pickups repo assets (pickups configuration) ;;
     flush_modified_assets repo)%ed.
Proof.
  apply preserves_bind.
  { destruct (elevators configuration);
      [apply patch_elevators_keeps | apply preserves_ret]. }
  intros _. apply preserves_bind; [apply patch_pickups_keeps|]. intros _.
  apply flush_modified_assets_keeps.
Qed.

End KeptFacts.

Lemma writes_scenes_only_quiet c h :
  is_replace c = false -> writes_scenes_only h -> writes_scenes_only (c :: h).
Proof.
  intros Hc Hwrites name data [Heq|Hin]; [|exact (Hwrites name data Hin)].
  subst c. discriminate.
Qed.

Lemma writes_scenes_only_scene name data h :
  is_scene_key name -> writes_scenes_only h -> writes_scenes_only (ReplaceAsset name data :: h).
Proof.
  intros Hkey Hwrites n d [[= <- <-]|Hin]; [by right | exact (Hwrites n d Hin)].
Qed.

Lemma patch_edits_keeps repo assets configuration :
  preserves (fun s => scene_keys s /\ writes_scenes_only (calls s))
    (patch_edits repo assets configuration).
Proof.
  unfold patch_edits.
  apply preserves_bind;
    [apply create_init_copy_keeps; apply writes_scenes_only_quiet|]. intros _.
  apply preserves_bind; [apply preserves_lift|]. intros script.
  apply preserves_bind; [apply preserves_lift|]. intros bytes.
  apply preserves_bind.
  { intros s [Hkeys Hwrites]. simpl. split; [exact Hkeys|].
    intros name data [[= <- _]|Hin]; [by left | exact (Hwrites name data Hin)]. }
  intros _.
  apply patch_edits_tail_keeps;
    [apply writes_scenes_only_quiet | apply writes_scenes_only_scene].
Qed.

(** X17: in a run of [patch], whatever its outcome, the only assets
    written back with replace_asset are init.lc and scenes: the commit
    of the cache writes scenes only, and never an actor definition or
    the script that the run inserted. *)
Theorem patch_writes_back_scenes_only (open_tree : string -> result Repository)
    (assets : Assets) (romfs_entry : fs_entry) (input_path output_path : string)
    (configuration : Configuration) :
  Forall (fun c =>
            match c with
            | ReplaceAsset name _ =>
                name = "system/scripts/init.lc" \/
                exists scenario, name = path_for_level scenario +:+ ".brfld"
            | _ => True
            end)
    (calls (snd (patch open_tree assets romfs_entry input_path output_path configuration))).
Proof.
  assert (Hnew : scene_keys new_editor /\ writes_scenes_only (calls new_editor)).
  { split; [constructor | intros n d []]. }
  assert (Hall : forall s, writes_scenes_only (calls s) ->
            Forall (fun c =>
                      match c with
                      | ReplaceAsset name _ =>
                          name = "system/scripts/init.lc" \/
                          exists scenario, name = path_for_level scenario +:+ ".brfld"
                      | _ => True
                      end) (calls s)).
  { intros s Hs. apply Forall_forall. intros [] Hin; try done.
    apply list_elem_of_In in Hin. exact (Hs _ _ Hin). }
  unfold patch.
  destruct (negb (schema_accepts assets configuration)); [by apply Hall, Hnew|].
  destruct (open_tree input_path) as [repo|e]; [|by apply Hall, Hnew].
  apply Hall.
  assert (Hkept : preserves (fun s => scene_keys s /\ writes_scenes_only (calls s))
                    (patch_stages repo assets romfs_entry
                       (joinpath output_path "romfs") configuration)).
  { unfold patch_stages, editor_save_modified_pkgs.
    apply preserves_bind; [apply patch_edits_keeps|]. intros _.
    apply preserves_bind; [apply preserves_lift|]. intros _.
    by apply preserves_invoke_quiet; [apply writes_scenes_only_quiet|]. }
  exact (proj2 (Hkept new_editor Hnew)).
Qed.

(** ** The warp patcher: errors *)

Section ElevatorFacts.
Context (repo : Repository).

Lemma patch_elevators_cons elevator rest s :
  patch_elevators repo (elevator :: rest) s
  = match patch_elevator repo elevator s with
    | (Ok _, s1) => patch_elevators repo rest s1
    | (Raise e, s1) => (Raise e, s1)
    end.
Proof.
  unfold patch_elevators. simpl. unfold bind.
  by destruct (patch_elevator repo elevator s) as [[[]|e] s1].
Qed.

(** The warp edit once the scene is read. *)
Lemma patch_elevator_scene elevator scenario level s s1 :
  PyDict.get "scenario" (teleporter elevator) = Some scenario ->
  get_scenario repo scenario s = (Ok level, s1) ->
  patch_elevator repo elevator s
  = (layer <- lift (PyDict.getitem "layer" (teleporter elevator)) ;;
     actors <- lift (actors_for_layer level layer) ;;
     name <- lift (PyDict.getitem "actor" (teleporter elevator)) ;;
     actor <- lift (PyDict.getitem name actors) ;;
     _ <- lift (usable_of (teleporter elevator) actor) ;;
     dest_scenario <- lift (PyDict.getitem "scenario" (destination elevator)) ;;
     actor1 <- lift (update_usable (Json.setattr "sScenarioName" (JStr dest_scenario))
                       actor) ;;
     store_scenario scenario (with_actor level layer name actor1) ;;
     dest_actor <- lift (PyDict.getitem "actor" (destination elevator)) ;;
     actor2 <- lift (update_usable (Json.setattr "sTargetSpawnPoint" (JStr dest_actor))
                       actor1) ;;
     store_scenario scenario (with_actor level layer name actor2))%ed s1.
Proof.
  intros Hscen Hlevel. unfold patch_elevator.
  rewrite bind_lift, (getitem_some _ _ _ Hscen).
  by rewrite (bind_ok _ _ _ _ _ Hlevel).
Qed.

(** The warp edit once the actor is found. *)
Lemma patch_elevator_actor elevator scenario layer name level actors actor s s1 :
  PyDict.get "scenario" (teleporter elevator) = Some scenario ->
  PyDict.get "layer" (teleporter elevator) = Some layer ->
  PyDict.get "actor" (teleporter elevator) = Some name ->
  get_scenario repo scenario s = (Ok level, s1) ->
  actors_for_layer level layer = Ok actors ->
  PyDict.get name actors = Some actor ->
  patch_elevator repo elevator s
  = (_ <- lift (usable_of (teleporter elevator) actor) ;;
     dest_scenario <- lift (PyDict.getitem "scenario" (destination elevator)) ;;
     actor1 <- lift (update_usable (Json.setattr "sScenarioName" (JStr dest_scenario))
                       actor) ;;
     store_scenario scenario (with_actor level layer name actor1) ;;
     dest_actor <- lift (PyDict.getitem "actor" (destination elevator)) ;;
     actor2 <- lift (update_usable (Json.setattr "sTargetSpawnPoint" (JStr dest_actor))
                       actor1) ;;
     store_scenario scenario (with_actor level layer name actor2))%ed s1.
Proof.
  intros Hscen Hlayer Hname Hlevel Hactors Hactor.
  rewrite (patch_elevator_scene _ _ _ _ _ Hscen Hlevel).
  rewrite bind_lift, (getitem_some _ _ _ Hlayer).
  rewrite bind_lift, Hactors.
  rewrite bind_lift, (getitem_some _ _ _ Hname).
  by rewrite bind_lift, (getitem_some _ _ _ Hactor).
Qed.

End ElevatorFacts.

(** X6: a warp edit whose layer is not in the scene, or whose actor is
    not in the layer, raises the KeyError of the missing name; the scene
    has been read before, nothing is changed in it, and the edits after
    it in the list are not attempted. *)
Theorem warp_edit_of_a_missing_actor (repo : Repository) (s s1 : PatcherEditor)
    (elevator : Elevator) (rest : list Elevator) (scenario layer name : string)
    (level : Brfld) :
  PyDict.get "scenario" (teleporter elevator) = Some scenario ->
  PyDict.get "layer" (teleporter elevator) = Some layer ->
  PyDict.get "actor" (teleporter elevator) = Some name ->
  get_scenario repo scenario s = (Ok (ResBrfld level), s1) ->
  (PyDict.get layer (layers level) = None ->
     patch_elevators repo (elevator :: rest) s = (Raise (KeyError layer), s1)) /\
  (forall actors,
     PyDict.get layer (layers level) = Some actors ->
     PyDict.get name actors = None ->
     patch_elevators repo (elevator :: rest) s = (Raise (KeyError name), s1)).
Proof.
  intros Hscen Hlayer Hname Hlevel. split.
  - intros Hnone. rewrite patch_elevators_cons.
    rewrite (patch_elevator_scene _ _ _ _ _ _ Hscen Hlevel).
    rewrite bind_lift, (getitem_some _ _ _ Hlayer).
    rewrite bind_lift. simpl. unfold PyDict.getitem. by rewrite Hnone.
  - intros actors Hactors Hnone. rewrite patch_elevators_cons.
    rewrite (patch_elevator_scene _ _ _ _ _ _ Hscen Hlevel).
    rewrite bind_lift, (getitem_some _ _ _ Hlayer).
    rewrite bind_lift. simpl. rewrite (getitem_some _ _ _ Hactors).
    rewrite bind_lift, (getitem_some _ _ _ Hname).
    rewrite bind_lift. unfold PyDict.getitem. by rewrite Hnone.
Qed.

Lemma warp_edit_of_a_missing_actor_witness :
  (PyDict.get "collision" (layers Sample.cave) = None /\
   patch_elevators Sample.repo
     [ {| teleporter := [("scenario", "s010_cave"); ("layer", "collision");
                         ("actor", "elevator_up")];
          destination := Sample.magma_start |}; Sample.warp ] new_editor
   = (Raise (KeyError "collision"), Sample.cave_cached)) /\
  (PyDict.get "default" (layers Sample.cave)
   = Some [ ("elevator_up", Sample.elevator_actor);
            ("ItemSphere_000", Sample.tank_actor);
            ("statue", Sample.statue_actor) ] /\
   patch_elevators Sample.repo
     [ {| teleporter := [("scenario", "s010_cave"); ("layer", "default");
                         ("actor", "elevator_down")];
          destination := Sample.magma_start |}; Sample.warp ] new_editor
   = (Raise (KeyError "elevator_down"), Sample.cave_cached)).
Proof.
  split.
  - split; [reflexivity|].
    pose proof (warp_edit_of_a_missing_actor Sample.repo new_editor Sample.cave_cached
                  {| teleporter := [("scenario", "s010_cave"); ("layer", "collision");
                                    ("actor", "elevator_up")];
                     destination := Sample.magma_start |} [Sample.warp]
                  "s010_cave" "collision" "elevator_up" Sample.cave
                  eq_refl eq_refl eq_refl eq_refl) as [Hlayer _].
    apply Hlayer. reflexivity.
  - split; [reflexivity|].
    pose proof (warp_edit_of_a_missing_actor Sample.repo new_editor Sample.cave_cached
                  {| teleporter := [("scenario", "s010_cave"); ("layer", "default");
                                    ("actor", "elevator_down")];
                     destination := Sample.magma_start |} [Sample.warp]
                  "s010_cave" "default" "elevator_down" Sample.cave
                  eq_refl eq_refl eq_refl eq_refl) as [_ Hactor].
    apply (Hactor _ eq_refl). reflexivity.
Defined.

(** X7: the two fields of a warp edit are written one after the other:
    when the destination has its scenario but not its actor, the edit
    raises KeyError "actor" after the scenario of the destination has
    been written to the cached scene, which stays half edited. *)
Theorem warp_edit_without_destination_actor (repo : Repository) (s s1 : PatcherEditor)
    (elevator : Elevator) (scenario layer name : string) (level : BaseResource)
    (actors fields comps usable : list (string * json)) (dest_scenario : string) :
  PyDict.get "scenario" (teleporter elevator) = Some scenario ->
  PyDict.get "layer" (teleporter elevator) = Some layer ->
  PyDict.get "actor" (teleporter elevator) = Some name ->
  get_scenario repo scenario s = (Ok level, s1) ->
  actors_for_layer level layer = Ok actors ->
  PyDict.get name actors = Some (JDict fields) ->
  PyDict.get "pComponents" fields = Some (JDict comps) ->
  PyDict.get "USABLE" comps = Some (JDict usable) ->
  PyDict.get "scenario" (destination elevator) = Some dest_scenario ->
  PyDict.get "actor" (destination elevator) = None ->
  let actor1 :=
    JDict (PyDict.set "pComponents"
             (JDict (PyDict.set "USABLE"
                       (JDict (PyDict.set "sScenarioName" (JStr dest_scenario) usable))
                       comps))
             fields) in
  patch_elevator repo elevator s
  = (Raise (KeyError "actor"),
     {| calls := calls s1;
        memory_files := PyDict.set (path_for_level scenario +:+ ".brfld")
                          (with_actor level layer name actor1) (memory_files s1) |}) /\
  actor_at (with_actor level layer name actor1) layer name = Ok actor1.
Proof.
  intros Hscen Hlayer Hname Hlevel Hactors Hactor Hcomps Husable Hds Hda. cbv zeta.
  split; [|by apply (actor_at_with_actor_eq _ _ _ _ actors)].
  rewrite (patch_elevator_actor _ _ _ _ _ _ _ _ _ _ Hscen Hlayer Hname Hlevel Hactors Hactor).
  rewrite bind_lift, (usable_of_present _ _ _ _ Hcomps Husable).
  rewrite bind_lift, (getitem_some _ _ _ Hds).
  rewrite bind_lift, (update_usable_setattr _ _ _ _ _ Hcomps Husable).
  rewrite bind_store_scenario.
  rewrite bind_lift. unfold PyDict.getitem. by rewrite Hda.
Qed.

Lemma warp_edit_without_destination_actor_witness :
  PyDict.get "actor" [("scenario", "s020_magma")] = None /\
  patch_elevator Sample.repo
    {| teleporter := Sample.cave_elevator; destination := [("scenario", "s020_magma")] |}
    new_editor
  = (Raise (KeyError "actor"),
     {| calls := [GetParsedAsset Sample.cave_path];
        memory_files :=
          [ (Sample.cave_path,
             with_actor (ResBrfld Sample.cave) "default" "elevator_up"
               (JDict [ ("sName", JStr "elevator_up");
                        ("pComponents",
                         JDict [ ("USABLE",
                                  JDict [ ("sScenarioName", JStr "s020_magma");
                                          ("sTargetSpawnPoint", JStr "StartPoint0");
                                          ("sUsableEntity", JStr "elevator") ]);
                                 ("AUDIO", JDict []) ]) ])) ] |}).
Proof.
  split; [reflexivity|].
  pose proof (warp_edit_without_destination_actor Sample.repo new_editor Sample.cave_cached
                {| teleporter := Sample.cave_elevator;
                   destination := [("scenario", "s020_magma")] |}
                "s010_cave" "default" "elevator_up" (ResBrfld Sample.cave)
                [ ("elevator_up", Sample.elevator_actor);
                  ("ItemSphere_000", Sample.tank_actor);
                  ("statue", Sample.statue_actor) ]
                [ ("sName", JStr "elevator_up");
                  ("pComponents", JDict [ ("USABLE", Sample.usable); ("AUDIO", JDict []) ]) ]
                [ ("USABLE", Sample.usable); ("AUDIO", JDict []) ]
                [ ("sScenarioName", JStr "s010_cave");
                  ("sTargetSpawnPoint", JStr "StartPoint0");
                  ("sUsableEntity", JStr "elevator") ]
                "s020_magma"
                eq_refl eq_refl eq_refl eq_refl eq_refl eq_refl eq_refl eq_refl eq_refl eq_refl)
    as [Hrun _].
  exact Hrun.
Defined.

(** X8: the check of a warp edit covers the read of the component only:
    an actor whose USABLE component is there but is no Container passes
    the check, and the edit raises the AttributeError of the assignment
    to sScenarioName, not the ValueError of the check; the cached scene
    is as it was read. *)
Theorem warp_edit_of_a_plain_usable (repo : Repository) (s s1 : PatcherEditor)
    (elevator : Elevator) (scenario layer name : string) (level : BaseResource)
    (actors fields comps : list (string * json)) (usable : json) (dest_scenario : string) :
  PyDict.get "scenario" (teleporter elevator) = Some scenario ->
  PyDict.get "layer" (teleporter elevator) = Some layer ->
  PyDict.get "actor" (teleporter elevator) = Some name ->
  get_scenario repo scenario s = (Ok level, s1) ->
  actors_for_layer level layer = Ok actors ->
  PyDict.get name actors = Some (JDict fields) ->
  PyDict.get "pComponents" fields = Some (JDict comps) ->
  PyDict.get "USABLE" comps = Some usable ->
  (forall d, usable <> JDict d) ->
  PyDict.get "scenario" (destination elevator) = Some dest_scenario ->
  patch_elevator repo elevator s = (Raise (AttributeError "sScenarioName"), s1).
Proof.
  intros Hscen Hlayer Hname Hlevel Hactors Hactor Hcomps Husable Hplain Hds.
  rewrite (patch_elevator_actor _ _ _ _ _ _ _ _ _ _ Hscen Hlayer Hname Hlevel Hactors Hactor).
  rewrite bind_lift, (usable_of_present _ _ _ _ Hcomps Husable).
  rewrite bind_lift, (getitem_some _ _ _ Hds).
  rewrite bind_lift. unfold update_usable. simpl.
  rewrite (getitem_some _ _ _ Hcomps). simpl. rewrite (getitem_some _ _ _ Husable). simpl.
  destruct usable; try reflexivity. by destruct (Hplain d).
Qed.

Lemma warp_edit_of_a_plain_usable_witness :
  get_scenario Cases.repo "s030_baselab" new_editor
  = (Ok (ResBrfld Cases.lab),
     {| calls := [GetParsedAsset Cases.lab_path];
        memory_files := [(Cases.lab_path, ResBrfld Cases.lab)] |}) /\
  PyDict.get "USABLE" [("USABLE", JNull)] = Some JNull /\
  (forall d, JNull <> JDict d) /\
  patch_elevator Cases.repo Cases.door_warp new_editor
  = (Raise (AttributeError "sScenarioName"),
     {| calls := [GetParsedAsset Cases.lab_path];
        memory_files := [(Cases.lab_path, ResBrfld Cases.lab)] |}).
Proof.
  split; [reflexivity|]. split; [reflexivity|]. split; [discriminate|].
  apply (warp_edit_of_a_plain_usable Cases.repo new_editor _ Cases.door_warp
           "s030_baselab" "default" "door" (ResBrfld Cases.lab)
           [("door", Cases.door_actor); ("plate", Cases.plate_actor)]
           [("sName", JStr "door"); ("pComponents", JDict [("USABLE", JNull)])]
           [("USABLE", JNull)] JNull "s020_magma");
    try reflexivity.
  discriminate.
Defined.

(** ** The pickup patcher: what a turn does *)

Lemma get_pop_ne {A} k k' (d : list (string * A)) :
  k <> k' -> PyDict.get k' (PyDict.pop k d) = PyDict.get k' d.
Proof.
  intros Hne. induction d as [|[k0 v0] d IH]; simpl; auto.
  destruct (String.eqb k0 k) eqn:E; simpl.
  - apply String.eqb_eq in E. subst k0.
    destruct (String.eqb k k') eqn:E'; auto.
    apply String.eqb_eq in E'. congruence.
  - by rewrite IH.
Qed.

Lemma get_absent {A} k (d : list (string * A)) :
  ~ In k (map fst d) -> PyDict.get k d = None.
Proof.
  induction d as [|[k0 v0] d IH]; simpl; [done|].
  intros Hnotin. destruct (String.eqb k0 k) eqn:E.
  - apply String.eqb_eq in E. tauto.
  - apply IH. tauto.
Qed.

Lemma get_pop_eq {A} k (d : list (string * A)) :
  NoDup (map fst d) -> PyDict.get k (PyDict.pop k d) = None.
Proof.
  induction d as [|[k0 v0] d IH]; simpl; [done|].
  intros Hnd. apply NoDup_cons in Hnd as [Hnotin Hnd].
  destruct (String.eqb k0 k) eqn:E; simpl.
  - apply String.eqb_eq in E. subst k0. apply get_absent.
    by rewrite <- list_elem_of_In.
  - rewrite E. auto.
Qed.

Lemma bind_congruence {A B} (m m' : M A) (k k' : A -> M B) s :
  m s = m' s -> (forall a s1, k a s1 = k' a s1) -> bind m k s = bind m' k' s.
Proof.
  intros Hm Hk. unfold bind. rewrite Hm.
  destruct (m' s) as [[a|e] s1]; [apply Hk | done].
Qed.

Section TurnFacts.
Context (repo : Repository) (assets : Assets).

Abbreviation ensure1 :=
  (fun item : string * string => editor_ensure_present repo (fst item) (snd item)).

Lemma ensure_dependencies_for_each pkg s :
  ensure_dependencies repo pkg s = for_each (dependencies_of pkg) ensure1 s.
Proof. reflexivity. Qed.

Lemma for_each_ensure_dependencies pkgs : forall s,
  for_each pkgs (ensure_dependencies repo) s
  = for_each (flat_map dependencies_of pkgs) ensure1 s.
Proof.
  induction pkgs as [|pkg pkgs IH]; intros s; [done|].
  cbn [for_each flat_map]. rewrite for_each_app.
  apply bind_congruence; [apply ensure_dependencies_for_each | intros _ s1; apply IH].
Qed.

Lemma for_each_ensure_ok todo : forall s s',
  for_each todo ensure1 s = (Ok tt, s') ->
  s' = {| calls := ensure_calls todo ++ calls s; memory_files := memory_files s |}.
Proof.
  induction todo as [|item todo IH]; intros s s'; simpl.
  - unfold ret. intros [= <-]. by rewrite editor_eta.
  - intros H. apply bind_ok_inv in H as (u & s1 & Hstep & H).
    unfold editor_ensure_present, invoke in Hstep. injection Hstep as _ <-.
    apply IH in H. rewrite H. simpl. unfold ensure_calls. simpl.
    by rewrite <- app_assoc.
Qed.

Tactic Notation "step" hyp(H) "as" ident(a) ident(s) ident(Hstep) :=
  apply bind_ok_inv in H as (a & s & Hstep & H).

Tactic Notation "lift_step" hyp(H) "as" ident(a) ident(Hval) :=
  let s := fresh "s" in
  apply bind_ok_inv in H as (a & s & Hval & H);
  apply lift_ok_inv in Hval as [Hval ->].

Lemma getitem_ok_inv {A} k (d : list (string * A)) v :
  PyDict.getitem k d = Ok v -> PyDict.get k d = Some v.
Proof. unfold PyDict.getitem. destruct (PyDict.get k d); by intros [= ->]. Qed.

(** The actor of a pickup after its rebinding: the link set, the LIFE
    component popped. *)
Lemma rebind_inv i actor actor1 actor2 :
  Json.setattr "oActorDefLink" (actordef_link i) actor = Ok actor1 ->
  pop_life actor1 = Ok actor2 ->
  exists fields comps,
    actor = JDict fields /\
    PyDict.get "pComponents" fields = Some (JDict comps) /\
    actor2 = JDict (PyDict.set "pComponents" (JDict (PyDict.pop "LIFE" comps))
                      (PyDict.set "oActorDefLink" (actordef_link i) fields)).
Proof.
  destruct actor as [| | | | |fields]; try discriminate. simpl. intros [= <-].
  unfold pop_life. simpl.
  rewrite PyDictFacts.get_set_ne by discriminate.
  destruct (PyDict.get "pComponents" fields) as [c|] eqn:E; [|discriminate]. simpl.
  destruct c as [| | | | |comps]; try discriminate. simpl. intros [= <-].
  by exists fields, comps.
Qed.

(** A turn of the pickup loop that succeeds, in full. *)
Lemma patch_pickup_outcome i pickup acc s acc' s' :
  patch_pickup repo assets i pickup acc s = (Ok acc', s') ->
  exists scenario layer name found level s1 fields comps definition,
    PyDict.get "scenario" (pickup_actor pickup) = Some scenario /\
    PyDict.get "layer" (pickup_actor pickup) = Some layer /\
    PyDict.get "actor" (pickup_actor pickup) = Some name /\
    find_pkgs repo (calls s) (path_for_level scenario +:+ ".brfld") = Ok found /\
    get_scenario repo scenario
      {| calls := FindPkgs (path_for_level scenario +:+ ".brfld") :: calls s;
         memory_files := memory_files s |} = (Ok level, s1) /\
    actor_at level layer name = Ok (JDict fields) /\
    PyDict.get "pComponents" fields = Some (JDict comps) /\
    new_template (template_powerup_bmsad assets) i pickup = Ok definition /\
    acc' = acc ∪ list_to_set found /\
    s' = {| calls :=
              ensure_calls (flat_map dependencies_of (elements (list_to_set found : gset string)))
              ++ AddNewAsset (powerup_path i)
                   (DataResource (ResBmsad definition (target_game repo)))
                   (PkgsSet (list_to_set found))
              :: calls s1;
            memory_files :=
              PyDict.set (path_for_level scenario +:+ ".brfld")
                (with_actor level layer name
                   (JDict (PyDict.set "pComponents" (JDict (PyDict.pop "LIFE" comps))
                             (PyDict.set "oActorDefLink" (actordef_link i) fields))))
                (memory_files s1) |}.
Proof.
  intros H. unfold patch_pickup in H.
  lift_step H as scenario Hscen. apply getitem_ok_inv in Hscen.
  step H as found s0 Hfind.
  unfold editor_find_pkgs, invoke in Hfind. injection Hfind as Hfound <-.
  cbv zeta in H.
  step H as level s1 Hlevel.
  lift_step H as layer Hlayer. apply getitem_ok_inv in Hlayer.
  lift_step H as actors Hactors.
  lift_step H as name Hname. apply getitem_ok_inv in Hname.
  lift_step H as actor Hactor.
  lift_step H as definition Hdefinition.
  step H as u3 s3 Hadd.
  unfold editor_add_new_asset, invoke in Hadd. injection Hadd as _ <-.
  lift_step H as actor1 Hactor1.
  step H as u4 s4 Hstore1.
  unfold store_scenario, bind, get_memory_files, set_memory_files in Hstore1.
  injection Hstore1 as _ <-.
  lift_step H as actor2 Hactor2.
  step H as u5 s5 Hstore2.
  unfold store_scenario, bind, get_memory_files, set_memory_files in Hstore2.
  injection Hstore2 as _ <-.
  step H as u6 s6 Hensure.
  rewrite for_each_ensure_dependencies in Hensure.
  destruct u6. apply for_each_ensure_ok in Hensure. subst s6.
  unfold ret in H. injection H as <- <-.
  destruct (rebind_inv _ _ _ _ Hactor1 Hactor2) as (fields & comps & -> & Hcomps & ->).
  exists scenario, layer, name, found, level, s1, fields, comps, definition.
  do 5 (split; [done|]).
  split. { unfold actor_at. by rewrite Hactors. }
  do 3 (split; [done|]).
  simpl. by rewrite set_set.
Qed.

End TurnFacts.

Lemma get_app_other {A} k k' (v : A) (d : list (string * A)) :
  k <> k' -> PyDict.get k' (d ++ [(k, v)]) = PyDict.get k' d.
Proof.
  intros Hne. induction d as [|[k0 v0] d IH]; simpl.
  - destruct (String.eqb k k') eqn:E; [|done].
    apply String.eqb_eq in E. congruence.
  - by destruct (String.eqb k0 k').
Qed.

Lemma ensured_app n2 n1 : ensured (n2 ++ n1) = ensured n1 ++ ensured n2.
Proof.
  induction n2 as [|c n2 IH]; simpl; [by rewrite app_nil_r|].
  destruct c; rewrite IH; try done. by rewrite app_assoc.
Qed.

Lemma ensured_ensure_calls todo : ensured (ensure_calls todo) = todo.
Proof.
  unfold ensure_calls. induction todo as [|[pkg dep] todo IH]; simpl; [done|].
  rewrite ensured_app. simpl. by rewrite IH.
Qed.

Lemma in_dependencies_of pkg dep level_pkg :
  In (pkg, dep) (dependencies_of level_pkg)
  <-> pkg = level_pkg /\ In dep pickup_dependencies.
Proof.
  unfold dependencies_of, pickup_dependencies. cbn [In]. rewrite in_map_iff. split.
  - intros [[= <- <-]|[[= <- <-]|(d & [= <- <-] & Hin)]]; (split; [done|]).
    + by left.
    + right. by left.
    + right. right. exact Hin.
  - intros [-> [<-|[<-|Hin]]]; [by left | right; by left |].
    right. right. by exists dep.
Qed.

Lemma length_flat_map_dependencies pkgs :
  length (flat_map dependencies_of pkgs) = (11 * length pkgs)%nat.
Proof. induction pkgs as [|pkg pkgs IH]; [done|]. cbn [flat_map]. rewrite length_app, IH. simpl. lia. Qed.

(** X9: a turn of the pickup loop that succeeds has edited the actor of
    the pickup in the cached scene, and nothing else of the cache: the
    actor is linked to the actor definition made for the pickup, its
    LIFE component is gone, its other attributes and components are as
    they were, and so are the other actors of the scene and the other
    resources of the cache; a scene that was in the cache is edited as
    the cache held it, so that what earlier edits made of its other
    actors stays. *)
Theorem pickup_edits_its_actor (repo : Repository) (assets : Assets) (i : nat)
    (pickup : Pickup) (acc acc' : gset string) (s s' : PatcherEditor) :
  patch_pickup repo assets i pickup acc s = (Ok acc', s') ->
  exists scenario layer name level level' fields comps fields' comps',
    PyDict.get "scenario" (pickup_actor pickup) = Some scenario /\
    PyDict.get "layer" (pickup_actor pickup) = Some layer /\
    PyDict.get "actor" (pickup_actor pickup) = Some name /\
    fst (get_scenario repo scenario
           {| calls := FindPkgs (scene_key scenario) :: calls s;
              memory_files := memory_files s |}) = Ok level /\
    actor_at level layer name = Ok (JDict fields) /\
    PyDict.get "pComponents" fields = Some (JDict comps) /\
    PyDict.get (scene_key scenario) (memory_files s') = Some level' /\
    actor_at level' layer name = Ok (JDict fields') /\
    PyDict.get "oActorDefLink" fields' = Some (JStr ("actordef:" +:+ powerup_path i)) /\
    PyDict.get "pComponents" fields' = Some (JDict comps') /\
    (forall attr, attr <> "oActorDefLink" -> attr <> "pComponents" ->
                  PyDict.get attr fields' = PyDict.get attr fields) /\
    (NoDup (map fst comps) -> PyDict.get "LIFE" comps' = None) /\
    (forall c, c <> "LIFE" -> PyDict.get c comps' = PyDict.get c comps) /\
    (forall layer' name', layer' <> layer \/ name' <> name ->
                          actor_at level' layer' name' = actor_at level layer' name') /\
    (forall path, path <> scene_key scenario ->
                  PyDict.get path (memory_files s') = PyDict.get path (memory_files s)) /\
    (forall cached, PyDict.get (scene_key scenario) (memory_files s) = Some cached ->
                    level = cached).
Proof.
  intros H.
  apply patch_pickup_outcome in H
    as (scenario & layer & name & found & level & s1 & fields & comps & definition
        & Hscen & Hlayer & Hname & Hfound & Hlevel & Hactor & Hcomps & Hdef & -> & ->).
  exists scenario, layer, name, level.
  eexists (with_actor level layer name _), fields, comps, _, (PyDict.pop "LIFE" comps).
  unfold scene_key. rewrite Hlevel. simpl.
  do 6 (split; [done|]).
  split; [apply PyDictFacts.get_set_eq|].
  split.
  { unfold actor_at in Hactor.
    destruct (actors_for_layer level layer) as [actors|] eqn:Hactors; [|done].
    apply (actor_at_with_actor_eq _ _ _ _ actors Hactors). }
  split. { rewrite PyDictFacts.get_set_ne by discriminate. apply PyDictFacts.get_set_eq. }
  split; [apply PyDictFacts.get_set_eq|].
  split. { intros attr H1 H2. by rewrite !PyDictFacts.get_set_ne. }
  split; [apply get_pop_eq|].
  split. { intros c Hc. by apply get_pop_ne. }
  split. { intros layer' name' Hne. by apply actor_at_with_actor. }
  split.
  - intros path Hpath. rewrite PyDictFacts.get_set_ne by done.
    apply get_scenario_effect in Hlevel as [->| ->]; simpl; [done|].
    by apply get_app_other.
  - intros cached Hcached. unfold get_scenario in Hlevel.
    rewrite (get_file_cached _ _ _ cached) in Hlevel by exact Hcached.
    by injection Hlevel as <- _.
Qed.

Lemma pickup_edits_its_actor_witness :
  exists level',
    PyDict.get Sample.cave_path
      (memory_files (snd (patch_pickup Sample.repo Sample.assets 0 (Sample.tank (PInt 1))
                            ∅ new_editor))) = Some level' /\
    actor_at level' "default" "ItemSphere_000"
    = Ok (JDict [ ("sName", JStr "ItemSphere_000");
                  ("oActorDefLink",
                   JStr "actordef:actors/items/randomizer_powerup/charclasses/randomizer_powerup_0.bmsad");
                  ("pComponents", JDict [ ("AUDIO", JDict []) ]) ]) /\
    actor_at level' "default" "elevator_up" = Ok Sample.elevator_actor.
Proof.
  destruct (pickup_edits_its_actor Sample.repo Sample.assets 0 (Sample.tank (PInt 1)) ∅
              (list_to_set [ "packs/maps/s010_cave/s010_cave.pkg";
                             "packs/maps/s010_cave/subareas/subareapack_0.pkg" ])
              new_editor
              (snd (patch_pickup Sample.repo Sample.assets 0 (Sample.tank (PInt 1))
                      ∅ new_editor)))
    as (scenario & layer & name & level & level' & fields & comps & fields' & comps'
        & Hscen & Hlayer & Hname & Hlevel & Hactor & Hcomps & Hcached & Hafter
        & Hlink & Hcomps' & Hattrs & Hlife & Hkept & Hothers & Hcache & _).
  { vm_compute. reflexivity. }
  injection Hscen as <-. injection Hlayer as <-. injection Hname as <-.
  exists level'. split; [exact Hcached|].
  vm_compute in Hcached. injection Hcached as <-.
  split; reflexivity.
Defined.

(** X10: a turn of the pickup loop that succeeds ensures, in each group
    of the scene of the pickup and in no other, the two assets of the
    item sphere named in the loop and the nine of the model, eleven
    calls for each group, a group that the repository names twice being
    served once. *)
Theorem pickup_dependencies_ensured (repo : Repository) (assets : Assets) (i : nat)
    (pickup : Pickup) (acc acc' : gset string) (s s' : PatcherEditor) :
  patch_pickup repo assets i pickup acc s = (Ok acc', s') ->
  exists scenario found new,
    PyDict.get "scenario" (pickup_actor pickup) = Some scenario /\
    find_pkgs repo (calls s) (scene_key scenario) = Ok found /\
    calls s' = new ++ calls s /\
    ensured new = flat_map dependencies_of (elements (list_to_set found : gset string)) /\
    (forall pkg dep, In (pkg, dep) (ensured new)
                     <-> In pkg found /\ In dep pickup_dependencies) /\
    length (ensured new) = (11 * size (list_to_set found : gset string))%nat.
Proof.
  intros H.
  apply patch_pickup_outcome in H
    as (scenario & layer & name & found & level & s1 & fields & comps & definition
        & Hscen & Hlayer & Hname & Hfound & Hlevel & Hactor & Hcomps & Hdef & -> & ->).
  set (todo := flat_map dependencies_of (elements (list_to_set found : gset string))).
  assert (exists new, calls s1 = new ++ FindPkgs (scene_key scenario) :: calls s
                      /\ ensured new = []) as (read & Hread & Hnone).
  { apply get_scenario_effect in Hlevel as [->| ->]; simpl.
    - by exists [].
    - by exists [GetParsedAsset (scene_key scenario)]. }
  exists scenario, found.
  eexists (ensure_calls todo ++ AddNewAsset _ _ _ :: read ++ [FindPkgs (scene_key scenario)]).
  split; [done|]. split; [done|].
  split. { simpl. rewrite Hread. rewrite <- !app_assoc. simpl. by rewrite <- app_assoc. }
  assert (ensured (ensure_calls todo ++ AddNewAsset (powerup_path i)
                     (DataResource (ResBmsad definition (target_game repo)))
                     (PkgsSet (list_to_set found))
                   :: read ++ [FindPkgs (scene_key scenario)]) = todo) as ->.
  { rewrite ensured_app. simpl. rewrite ensured_app, Hnone. simpl.
    apply ensured_ensure_calls. }
  split; [done|]. split.
  - intros pkg dep. unfold todo. rewrite in_flat_map. split.
    + intros (level_pkg & Hin & Hdep). apply in_dependencies_of in Hdep as [-> Hdep].
      split; [|done].
      apply list_elem_of_In, elem_of_elements, elem_of_list_to_set in Hin.
      by apply list_elem_of_In.
    + intros [Hin Hdep]. exists pkg. split; [|by apply in_dependencies_of].
      apply list_elem_of_In, elem_of_elements, elem_of_list_to_set.
      by apply list_elem_of_In.
  - unfold todo. apply length_flat_map_dependencies.
Qed.

Lemma pickup_dependencies_ensured_witness :
  exists new,
    calls (snd (patch_pickup Sample.repo Sample.assets 0 (Sample.tank (PInt 1))
                  ∅ new_editor)) = new ++ calls new_editor /\
    (forall pkg dep,
       In (pkg, dep) (ensured new)
       <-> In pkg [ "packs/maps/s010_cave/s010_cave.pkg";
                    "packs/maps/s010_cave/subareas/subareapack_0.pkg" ]
           /\ In dep pickup_dependencies) /\
    length (ensured new) = 22%nat.
Proof.
  destruct (pickup_dependencies_ensured Sample.repo Sample.assets 0 (Sample.tank (PInt 1)) ∅
              (list_to_set [ "packs/maps/s010_cave/s010_cave.pkg";
                             "packs/maps/s010_cave/subareas/subareapack_0.pkg" ])
              new_editor
              (snd (patch_pickup Sample.repo Sample.assets 0 (Sample.tank (PInt 1))
                      ∅ new_editor)))
    as (scenario & found & new & Hscen & Hfound & Hcalls & Hensured & Hiff & Hlen).
  { vm_compute. reflexivity. }
  injection Hscen as <-. vm_compute in Hfound. injection Hfound as <-.
  exists new. split; [exact Hcalls|]. split; [exact Hiff|].
  rewrite Hlen. vm_compute. reflexivity.
Defined.

Section TurnErrors.
Context (repo : Repository) (assets : Assets).

Lemma bind_invoke {A B} c (answer : list call -> result A) (k : A -> M B) s a :
  answer (calls s) = Ok a ->
  bind (invoke c answer) k s
  = k a {| calls := c :: calls s; memory_files := memory_files s |}.
Proof. intros H. unfold bind, invoke. by rewrite H. Qed.

(** The turn of a pickup once the scene is read and the actor looked
    up. *)
Lemma patch_pickup_scene i pickup acc s s1 scenario layer name found level actors :
  PyDict.get "scenario" (pickup_actor pickup) = Some scenario ->
  PyDict.get "layer" (pickup_actor pickup) = Some layer ->
  PyDict.get "actor" (pickup_actor pickup) = Some name ->
  find_pkgs repo (calls s) (scene_key scenario) = Ok found ->
  get_scenario repo scenario
    {| calls := FindPkgs (scene_key scenario) :: calls s;
       memory_files := memory_files s |} = (Ok level, s1) ->
  actors_for_layer level layer = Ok actors ->
  patch_pickup repo assets i pickup acc s
  = (actor <- lift (PyDict.getitem name actors) ;;
     template <- lift (new_template (template_powerup_bmsad assets) i pickup) ;;
     editor_add_new_asset repo (powerup_path i)
       (DataResource (ResBmsad template (target_game repo)))
       (PkgsSet (list_to_set found)) ;;
     actor1 <- lift (Json.setattr "oActorDefLink" (actordef_link i) actor) ;;
     store_scenario scenario (with_actor level layer name actor1) ;;
     actor2 <- lift (pop_life actor1) ;;
     store_scenario scenario (with_actor level layer name actor2) ;;
     for_each (elements (list_to_set found : gset string)) (ensure_dependencies repo) ;;
     ret (acc ∪ list_to_set found))%ed s1.
Proof.
  intros Hscen Hlayer Hname Hfound Hlevel Hactors. unfold patch_pickup.
  rewrite bind_lift, (getitem_some _ _ _ Hscen).
  unfold editor_find_pkgs. rewrite (bind_invoke _ _ _ _ found) by exact Hfound.
  cbv zeta. rewrite (bind_ok _ _ _ _ _ Hlevel).
  rewrite bind_lift, (getitem_some _ _ _ Hlayer).
  rewrite bind_lift, Hactors.
  by rewrite bind_lift, (getitem_some _ _ _ Hname).
Qed.

End TurnErrors.

(** X11: where a turn of the pickup loop stops when it raises.  With the
    scene read and the layer found: (1) an actor that is not in the
    layer raises the KeyError of its name, and (2) an error of the
    making of the actor definition passes as it is, both before
    anything is inserted or edited; (3) an actor without components
    raises the AttributeError of pComponents after the actor definition
    has been inserted and the actor linked to it in the cached scene;
    the dependencies are not ensured. *)
Theorem pickup_turn_failures (repo : Repository) (assets : Assets) (i : nat)
    (pickup : Pickup) (acc : gset string) (s s1 : PatcherEditor)
    (scenario layer name : string) (found : list string) (level : BaseResource)
    (actors : list (string * json)) :
  PyDict.get "scenario" (pickup_actor pickup) = Some scenario ->
  PyDict.get "layer" (pickup_actor pickup) = Some layer ->
  PyDict.get "actor" (pickup_actor pickup) = Some name ->
  find_pkgs repo (calls s) (scene_key scenario) = Ok found ->
  get_scenario repo scenario
    {| calls := FindPkgs (scene_key scenario) :: calls s;
       memory_files := memory_files s |} = (Ok level, s1) ->
  actors_for_layer level layer = Ok actors ->
  (PyDict.get name actors = None ->
     patch_pickup repo assets i pickup acc s = (Raise (KeyError name), s1)) /\
  (forall actor e,
     PyDict.get name actors = Some actor ->
     new_template (template_powerup_bmsad assets) i pickup = Raise e ->
     patch_pickup repo assets i pickup acc s = (Raise e, s1)) /\
  (forall fields definition,
     PyDict.get name actors = Some (JDict fields) ->
     PyDict.get "pComponents" fields = None ->
     new_template (template_powerup_bmsad assets) i pickup = Ok definition ->
     let inserted := AddNewAsset (powerup_path i)
                       (DataResource (ResBmsad definition (target_game repo)))
                       (PkgsSet (list_to_set found)) in
     add_new_asset repo (calls s1) (powerup_path i)
       (DataResource (ResBmsad definition (target_game repo)))
       (PkgsSet (list_to_set found)) = Ok tt ->
     patch_pickup repo assets i pickup acc s
     = (Raise (AttributeError "pComponents"),
        {| calls := inserted :: calls s1;
           memory_files :=
             PyDict.set (scene_key scenario)
               (with_actor level layer name
                  (JDict (PyDict.set "oActorDefLink"
                            (JStr ("actordef:" +:+ powerup_path i)) fields)))
               (memory_files s1) |})).
Proof.
  intros Hscen Hlayer Hname Hfound Hlevel Hactors.
  pose proof (patch_pickup_scene repo assets i pickup acc _ _ _ _ _ _ _ _
                Hscen Hlayer Hname Hfound Hlevel Hactors) as Hturn.
  split; [|split].
  - intros Hnone. rewrite Hturn, bind_lift. unfold PyDict.getitem. by rewrite Hnone.
  - intros actor e Hactor Hdef. rewrite Hturn.
    rewrite bind_lift, (getitem_some _ _ _ Hactor). by rewrite bind_lift, Hdef.
  - intros fields definition Hactor Hnone Hdef inserted Hadd. rewrite Hturn.
    rewrite bind_lift, (getitem_some _ _ _ Hactor).
    rewrite bind_lift, Hdef.
    unfold editor_add_new_asset. rewrite (bind_invoke _ _ _ _ tt) by exact Hadd.
    rewrite bind_lift. simpl Json.setattr. cbv iota beta.
    rewrite bind_store_scenario. cbn [calls memory_files].
    rewrite bind_lift. unfold pop_life. simpl.
    rewrite PyDictFacts.get_set_ne by discriminate. by rewrite Hnone.
Qed.

Lemma pickup_turn_failures_witness :
  (PyDict.get "crate" [("door", Cases.door_actor); ("plate", Cases.plate_actor)] = None /\
   patch_pickup Cases.repo Sample.assets 0 (Cases.pickup_at "crate") ∅ new_editor
   = (Raise (KeyError "crate"), Cases.lab_read)) /\
  (new_template JNull 0 (Cases.pickup_at "door") = Raise TypeError /\
   patch_pickup Cases.repo Cases.broken_assets 0 (Cases.pickup_at "door") ∅ new_editor
   = (Raise TypeError, Cases.lab_read)) /\
  (PyDict.get "pComponents" [("sName", JStr "plate")] = None /\
   exists definition,
     new_template Sample.template 0 (Cases.pickup_at "plate") = Ok definition /\
     patch_pickup Cases.repo Sample.assets 0 (Cases.pickup_at "plate") ∅ new_editor
     = (Raise (AttributeError "pComponents"),
        {| calls :=
             AddNewAsset (powerup_path 0) (DataResource (ResBmsad definition "dread"))
               (PkgsSet (list_to_set ["packs/maps/s030_baselab/s030_baselab.pkg"]))
             :: calls Cases.lab_read;
           memory_files :=
             [ (Cases.lab_path,
                with_actor (ResBrfld Cases.lab) "default" "plate"
                  (JDict [ ("sName", JStr "plate");
                           ("oActorDefLink",
                            JStr ("actordef:" +:+ powerup_path 0)) ])) ] |})).
Proof.
  split; [|split].
  - split; [reflexivity|].
    destruct (pickup_turn_failures Cases.repo Sample.assets 0 (Cases.pickup_at "crate") ∅
                new_editor Cases.lab_read "s030_baselab" "default" "crate"
                ["packs/maps/s030_baselab/s030_baselab.pkg"] (ResBrfld Cases.lab)
                [("door", Cases.door_actor); ("plate", Cases.plate_actor)]
                eq_refl eq_refl eq_refl eq_refl eq_refl eq_refl) as (Hmissing & _ & _).
    apply Hmissing. reflexivity.
  - split; [reflexivity|].
    destruct (pickup_turn_failures Cases.repo Cases.broken_assets 0 (Cases.pickup_at "door") ∅
                new_editor Cases.lab_read "s030_baselab" "default" "door"
                ["packs/maps/s030_baselab/s030_baselab.pkg"] (ResBrfld Cases.lab)
                [("door", Cases.door_actor); ("plate", Cases.plate_actor)]
                eq_refl eq_refl eq_refl eq_refl eq_refl eq_refl) as (_ & Hdefinition & _).
    apply (Hdefinition Cases.door_actor); reflexivity.
  - split; [reflexivity|].
    destruct (new_template Sample.template 0 (Cases.pickup_at "plate"))
      as [definition|e] eqn:Hdef; [|vm_compute in Hdef; discriminate].
    exists definition. split; [reflexivity|].
    destruct (pickup_turn_failures Cases.repo Sample.assets 0 (Cases.pickup_at "plate") ∅
                new_editor Cases.lab_read "s030_baselab" "default" "plate"
                ["packs/maps/s030_baselab/s030_baselab.pkg"] (ResBrfld Cases.lab)
                [("door", Cases.door_actor); ("plate", Cases.plate_actor)]
                eq_refl eq_refl eq_refl eq_refl eq_refl eq_refl) as (_ & _ & Hcomponents).
    apply (Hcomponents [("sName", JStr "plate")] definition eq_refl eq_refl Hdef).
    vm_compute. reflexivity.
Defined.

(** ** The warp patcher: the edits of a list add up *)

Section WarpFacts.
Context (repo : Repository).

Tactic Notation "step" hyp(H) "as" ident(a) ident(s) ident(Hstep) :=
  apply bind_ok_inv in H as (a & s & Hstep & H).

Tactic Notation "lift_step" hyp(H) "as" ident(a) ident(Hval) :=
  let s := fresh "s" in
  apply bind_ok_inv in H as (a & s & Hval & H);
  apply lift_ok_inv in Hval as [Hval ->].

(** A warp edit that succeeds, in full. *)
Lemma patch_elevator_outcome elevator s s' :
  patch_elevator repo elevator s = (Ok tt, s') ->
  exists scenario layer name dest_scenario dest_actor level s0 actor actor1 actor2,
    PyDict.get "scenario" (teleporter elevator) = Some scenario /\
    PyDict.get "layer" (teleporter elevator) = Some layer /\
    PyDict.get "actor" (teleporter elevator) = Some name /\
    PyDict.get "scenario" (destination elevator) = Some dest_scenario /\
    PyDict.get "actor" (destination elevator) = Some dest_actor /\
    get_scenario repo scenario s = (Ok level, s0) /\
    actor_at level layer name = Ok actor /\
    update_usable (Json.setattr "sScenarioName" (JStr dest_scenario)) actor = Ok actor1 /\
    update_usable (Json.setattr "sTargetSpawnPoint" (JStr dest_actor)) actor1 = Ok actor2 /\
    s' = {| calls := calls s0;
            memory_files := PyDict.set (path_for_level scenario +:+ ".brfld")
                              (with_actor level layer name actor2) (memory_files s0) |}.
Proof.
  intros H. unfold patch_elevator in H.
  lift_step H as scenario Hscen. apply getitem_ok_inv in Hscen.
  step H as level s0 Hlevel.
  lift_step H as layer Hlayer. apply getitem_ok_inv in Hlayer.
  lift_step H as actors Hactors.
  lift_step H as name Hname. apply getitem_ok_inv in Hname.
  lift_step H as actor Hactor.
  lift_step H as usable Husable.
  lift_step H as dest_scenario Hds. apply getitem_ok_inv in Hds.
  lift_step H as actor1 Hactor1.
  step H as u1 s1 Hstore1.
  unfold store_scenario, bind, get_memory_files, set_memory_files in Hstore1.
  injection Hstore1 as _ <-.
  lift_step H as dest_actor Hda. apply getitem_ok_inv in Hda.
  lift_step H as actor2 Hactor2.
  unfold store_scenario, bind, get_memory_files, set_memory_files in H.
  injection H as <-. cbn [calls memory_files]. rewrite set_set.
  exists scenario, layer, name, dest_scenario, dest_actor, level, s0, actor, actor1, actor2.
  do 6 (split; [done|]).
  split. { unfold actor_at. by rewrite Hactors. }
  done.
Qed.

Lemma setattr_inv name v j j' :
  Json.setattr name v j = Ok j' -> exists d, j = JDict d /\ j' = JDict (PyDict.set name v d).
Proof. destruct j; try discriminate. intros [= <-]. by eexists. Qed.

(** The two fields of the USABLE component after the two assignments. *)
Lemma usable_fields actor actor1 actor2 dest_scenario dest_actor :
  update_usable (Json.setattr "sScenarioName" (JStr dest_scenario)) actor = Ok actor1 ->
  update_usable (Json.setattr "sTargetSpawnPoint" (JStr dest_actor)) actor1 = Ok actor2 ->
  Json.getpath [Key "pComponents"; Key "USABLE"; Key "sScenarioName"] actor2
  = Ok (JStr dest_scenario) /\
  Json.getpath [Key "pComponents"; Key "USABLE"; Key "sTargetSpawnPoint"] actor2
  = Ok (JStr dest_actor).
Proof.
  unfold update_usable. intros H1 H2.
  destruct (update_getpath _ _ _ _ H1) as (c0 & c1 & _ & Hset1 & Hc1).
  destruct (update_getpath _ _ _ _ H2) as (c1' & c2 & Hc1' & Hset2 & Hc2).
  rewrite Hc1 in Hc1'. injection Hc1' as <-.
  apply setattr_inv in Hset1 as (d0 & -> & ->).
  apply setattr_inv in Hset2 as (d1 & [= <-] & ->).
  change [Key "pComponents"; Key "USABLE"; Key "sScenarioName"]
    with ([Key "pComponents"; Key "USABLE"] ++ [Key "sScenarioName"]).
  change [Key "pComponents"; Key "USABLE"; Key "sTargetSpawnPoint"]
    with ([Key "pComponents"; Key "USABLE"] ++ [Key "sTargetSpawnPoint"]).
  rewrite !getpath_app, Hc2. simpl. unfold PyDict.getitem.
  rewrite PyDictFacts.get_set_eq.
  by rewrite PyDictFacts.get_set_ne, PyDictFacts.get_set_eq.
Qed.

(** A warp edit that succeeds leaves its teleporter warping to its
    destination. *)
Lemma patch_elevator_lands elevator s s' :
  patch_elevator repo elevator s = (Ok tt, s') ->
  exists scenario layer name dest_scenario dest_actor,
    edited_actor elevator = Some (scenario, layer, name) /\
    PyDict.get "scenario" (destination elevator) = Some dest_scenario /\
    PyDict.get "actor" (destination elevator) = Some dest_actor /\
    warps_to s' scenario layer name dest_scenario dest_actor.
Proof.
  intros H. apply patch_elevator_outcome in H
    as (scenario & layer & name & ds & da & level & s0 & actor & actor1 & actor2
        & Hscen & Hlayer & Hname & Hds & Hda & Hlevel & Hactor & H1 & H2 & ->).
  exists scenario, layer, name, ds, da.
  split. { unfold edited_actor. by rewrite Hscen, Hlayer, Hname. }
  split; [done|]. split; [done|].
  exists (with_actor level layer name actor2), actor2. cbn [memory_files].
  split; [apply PyDictFacts.get_set_eq|]. split.
  - unfold actor_at in Hactor.
    destruct (actors_for_layer level layer) as [actors|] eqn:Hactors; [|done].
    apply (actor_at_with_actor_eq _ _ _ _ actors Hactors).
  - apply (usable_fields _ _ _ _ _ H1 H2).
Qed.

(** A warp edit of another actor leaves a teleporter warping where it
    did. *)
Lemma patch_elevator_keeps elevator s s' scenario layer name dest_scenario dest_actor :
  patch_elevator repo elevator s = (Ok tt, s') ->
  edited_actor elevator <> Some (scenario, layer, name) ->
  warps_to s scenario layer name dest_scenario dest_actor ->
  warps_to s' scenario layer name dest_scenario dest_actor.
Proof.
  intros H Hother (level & actor & Hcached & Hactor & Hs & Ha).
  apply patch_elevator_outcome in H
    as (scenario2 & layer2 & name2 & ds & da & level2 & s0 & actor0 & actor1 & actor2
        & Hscen & Hlayer & Hname & _ & _ & Hlevel & _ & _ & _ & ->).
  unfold edited_actor in Hother. rewrite Hscen, Hlayer, Hname in Hother.
  destruct (decide (scenario2 = scenario)) as [->|Hscenario].
  - unfold get_scenario in Hlevel.
    rewrite (get_file_cached repo _ _ _ Hcached) in Hlevel. injection Hlevel as <- <-.
    exists (with_actor level layer2 name2 actor2), actor. cbn [memory_files].
    split; [apply PyDictFacts.get_set_eq|]. split; [|done].
    rewrite actor_at_with_actor; [exact Hactor|].
    destruct (decide (layer = layer2)) as [->|Hl]; [|by left].
    destruct (decide (name = name2)) as [->|Hn]; [|by right].
    by destruct Hother.
  - exists level, actor. cbn [memory_files].
    split; [|done].
    assert (Hkeys : path_for_level scenario2 +:+ ".brfld"
                    <> path_for_level scenario +:+ ".brfld").
    { intros Heq. by apply scene_key_inj in Heq. }
    rewrite PyDictFacts.get_set_ne by exact Hkeys.
    apply get_scenario_effect in Hlevel as [->| ->]; cbn [memory_files]; [exact Hcached|].
    by rewrite get_app_other.
Qed.

Lemma patch_elevators_keep later : forall s s' scenario layer name dest_scenario dest_actor,
  patch_elevators repo later s = (Ok tt, s') ->
  Forall (fun elevator => edited_actor elevator <> Some (scenario, layer, name)) later ->
  warps_to s scenario layer name dest_scenario dest_actor ->
  warps_to s' scenario layer name dest_scenario dest_actor.
Proof.
  induction later as [|elevator later IH];
    intros s s' scenario layer name ds da H Hothers Hwarps.
  - unfold patch_elevators in H. simpl in H. unfold ret in H. by injection H as <-.
  - rewrite patch_elevators_cons in H.
    destruct (patch_elevator repo elevator s) as [[[]|e] s1] eqn:Hedit; [|discriminate].
    apply Forall_cons in Hothers as [Hother Hothers].
    apply (IH s1 s' _ _ _ _ _ H Hothers).
    by apply (patch_elevator_keeps elevator s s1).
Qed.

End WarpFacts.

(** X5: the warp edits of a list add up in the cache: after a run of
    the warp patcher that succeeds, the teleporter of each warp edit of
    the list that no later edit of the list names again has, in the
    cached scene, the scenario and the actor of the destination of that
    edit in sScenarioName and sTargetSpawnPoint of its USABLE
    component; so an edit is not lost to the edits of other actors that
    follow it, in the same scene or in another, and of two edits of one
    actor the later one stands. *)
Theorem warp_edits_add_up (repo : Repository) (before later : list Elevator)
    (elevator : Elevator) (s s' : PatcherEditor) :
  patch_elevators repo (before ++ elevator :: later) s = (Ok tt, s') ->
  Forall (fun other => edited_actor other <> edited_actor elevator) later ->
  exists scenario layer name dest_scenario dest_actor level actor,
    PyDict.get "scenario" (teleporter elevator) = Some scenario /\
    PyDict.get "layer" (teleporter elevator) = Some layer /\
    PyDict.get "actor" (teleporter elevator) = Some name /\
    PyDict.get "scenario" (destination elevator) = Some dest_scenario /\
    PyDict.get "actor" (destination elevator) = Some dest_actor /\
    PyDict.get (path_for_level scenario +:+ ".brfld") (memory_files s') = Some level /\
    actor_at level layer name = Ok actor /\
    Json.getpath [Key "pComponents"; Key "USABLE"; Key "sScenarioName"] actor
    = Ok (JStr dest_scenario) /\
    Json.getpath [Key "pComponents"; Key "USABLE"; Key "sTargetSpawnPoint"] actor
    = Ok (JStr dest_actor).
Proof.
  intros H Hothers. unfold patch_elevators in H. rewrite for_each_app in H.
  apply bind_ok_inv in H as ([] & s1 & _ & H).
  change (patch_elevators repo (elevator :: later) s1 = (Ok tt, s')) in H.
  rewrite patch_elevators_cons in H.
  destruct (patch_elevator repo elevator s1) as [[[]|e] s2] eqn:Hedit; [|discriminate].
  pose proof (patch_elevator_outcome repo _ _ _ Hedit)
    as (scenario & layer & name & ds & da & _ & _ & _ & _ & _
        & Hscen & Hlayer & Hname & Hds & Hda & _).
  destruct (patch_elevator_lands repo _ _ _ Hedit)
    as (scenario' & layer' & name' & ds' & da' & Hedited & Hds' & Hda' & Hwarps).
  assert (Htriple : edited_actor elevator = Some (scenario, layer, name)).
  { unfold edited_actor. by rewrite Hscen, Hlayer, Hname. }
  rewrite Htriple in Hedited, Hothers. injection Hedited as <- <- <-.
  rewrite Hds in Hds'. injection Hds' as <-. rewrite Hda in Hda'. injection Hda' as <-.
  destruct (patch_elevators_keep repo later s2 s' _ _ _ _ _ H Hothers Hwarps)
    as (level & actor & Hcached & Hactor & Hs & Ha).
  exists scenario, layer, name, ds, da, level, actor. done.
Qed.

Lemma warp_edits_add_up_witness :
  exists level actor,
    PyDict.get Sample.cave_path
      (memory_files
         (snd (patch_elevators Sample.repo
                 [ {| teleporter := Sample.cave_elevator;
                      destination := [("scenario", "s010_cave"); ("actor", "StartPoint9")] |};
                   Sample.warp ] new_editor))) = Some level /\
    actor_at level "default" "elevator_up" = Ok actor /\
    Json.getpath [Key "pComponents"; Key "USABLE"; Key "sScenarioName"] actor
    = Ok (JStr "s020_magma") /\
    Json.getpath [Key "pComponents"; Key "USABLE"; Key "sTargetSpawnPoint"] actor
    = Ok (JStr "StartPoint0").
Proof.
  destruct (warp_edits_add_up Sample.repo
              [ {| teleporter := Sample.cave_elevator;
                   destination := [("scenario", "s010_cave"); ("actor", "StartPoint9")] |} ]
              [] Sample.warp new_editor
              (snd (patch_elevators Sample.repo
                      [ {| teleporter := Sample.cave_elevator;
                           destination := [("scenario", "s010_cave");
                                           ("actor", "StartPoint9")] |};
                        Sample.warp ] new_editor)))
    as (scenario & layer & name & ds & da & level & actor
        & Hscen & Hlayer & Hname & Hds & Hda & Hcached & Hactor & Hs & Ha).
  { vm_compute. reflexivity. }
  { constructor. }
  injection Hscen as <-. injection Hlayer as <-. injection Hname as <-.
  injection Hds as <-. injection Hda as <-.
  exists level, actor. split; [exact Hcached|]. split; [exact Hactor|].
  split; [exact Hs | exact Ha].
Defined.

(** ** The actor definition of a pickup: what is left of the template *)

Lemma leaves_app place e p :
  leaves (place ++ e) p = true ->
  leaves place p = true \/ exists p', p = place ++ p' /\ leaves e p' = true.
Proof.
  revert p. induction place as [|sel place IH]; intros p; simpl.
  - intros H. right. by exists p.
  - destruct sel as [k|i], p as [|[k'|i'] p]; try discriminate.
    + destruct (String.eqb k k') eqn:E; [|by left].
      apply String.eqb_eq in E. subst k'. intros H.
      destruct (IH _ H) as [Hl|(p' & -> & He)]; [by left|].
      right. by exists p'.
    + destruct (Nat.eqb i i') eqn:E; [|by left].
      apply Nat.eqb_eq in E. subst i'. intros H.
      destruct (IH _ H) as [Hl|(p' & -> & He)]; [by left|].
      right. by exists p'.
Qed.

Lemma leaves_app_same place e p : leaves (place ++ e) (place ++ p) = leaves e p.
Proof.
  induction place as [|[k|i] place IH]; simpl; [done| |].
  - by rewrite String.eqb_refl.
  - by rewrite Nat.eqb_refl.
Qed.

Lemma select_store_index_other i i' v j j' :
  Json.store (Index i) v j = Ok j' -> i <> i' ->
  Json.select (Index i') j' = Json.select (Index i') j.
Proof.
  destruct j as [| | | |l|d]; simpl; try discriminate.
  destruct (Nat.ltb i (length l)); [|discriminate].
  intros [= <-] Hne. simpl. by rewrite list_lookup_insert_ne.
Qed.

(** A mutation of the object at a path is not seen along a path that
    leaves it on the way. *)
Lemma update_leaves path f : forall p j j',
  Json.update path f j = Ok j' -> leaves path p = true ->
  Json.getpath p j' = Json.getpath p j.
Proof.
  induction path as [|sel path IH]; intros p j j'; [discriminate 2|].
  simpl. intros H. rbind_inv H. rbind_inv H.
  destruct sel as [k|i], p as [|[k'|i'] p]; try discriminate.
  - destruct (String.eqb k k') eqn:E.
    + apply String.eqb_eq in E. subst k'. intros Hl.
      cbn [Json.getpath]. rewrite (select_store _ _ _ _ H), Hx. simpl.
      by apply IH.
    + apply String.eqb_neq in E. intros _. cbn [Json.getpath].
      by rewrite (select_store_other _ _ _ _ _ H E).
  - destruct (Nat.eqb i i') eqn:E.
    + apply Nat.eqb_eq in E. subst i'. intros Hl.
      cbn [Json.getpath]. rewrite (select_store _ _ _ _ H), Hx. simpl.
      by apply IH.
    + apply Nat.eqb_neq in E. intros _. cbn [Json.getpath].
      by rewrite (select_store_index_other _ _ _ _ _ H E).
Qed.

Lemma setitem_leaves k v p j j' :
  Json.setitem k v j = Ok j' -> leaves [Key k] p = true ->
  Json.getpath p j' = Json.getpath p j.
Proof.
  intros H. destruct p as [|[k'|i'] p]; try discriminate. simpl.
  destruct (String.eqb k k') eqn:E; [discriminate|]. intros _.
  apply String.eqb_neq in E. by apply (setitem_getpath_other _ _ _ _ _ _ H).
Qed.

(** The mutation [j[path...][k] = v] is not seen along a path that
    leaves the place assigned. *)
Lemma update_setitem_leaves path k v p j j' :
  Json.update path (Json.setitem k v) j = Ok j' ->
  leaves (path ++ [Key k]) p = true ->
  Json.getpath p j' = Json.getpath p j.
Proof.
  intros H Hl. apply leaves_app in Hl as [Hl|(p' & -> & Hl)].
  - by apply (update_leaves _ _ _ _ _ H).
  - destruct (update_getpath _ _ _ _ H) as (c & c' & Hc & Hset & Hc').
    rewrite !getpath_app, Hc, Hc'. simpl. by apply (setitem_leaves _ _ _ _ _ Hset).
Qed.

Lemma update_setitem_eq path k v j j' :
  Json.update path (Json.setitem k v) j = Ok j' ->
  Json.getpath (path ++ [Key k]) j' = Ok v.
Proof.
  intros H. destruct (update_getpath _ _ _ _ H) as (c & c' & Hc & Hset & Hc').
  rewrite getpath_app, Hc'. simpl. by rewrite (getitem_setitem_eq _ _ _ _ Hset).
Qed.

(** X12: the actor definition of a pickup is the template with four
    places assigned: its name is that of the pickup's index, the two
    captions of its PICKABLE component are the caption of the pickup,
    and whatever lies along a path that leaves the name, the two
    captions and the parameter dict on the way reads as in the
    template. *)
Theorem pickup_definition_is_the_template_elsewhere (template : json) (i : nat)
    (pickup : Pickup) (definition : json) :
  new_template template i pickup = Ok definition ->
  Json.getpath [Key "name"] definition = Ok (JStr ("randomizer_powerup_" +:+ pretty i)) /\
  Json.getpath [Key "property"; Key "components"; Key "PICKABLE";
                Key "fields"; Key "fields"; Key "sOnPickCaption"] definition
  = Ok (JStr (caption pickup)) /\
  Json.getpath [Key "property"; Key "components"; Key "PICKABLE";
                Key "fields"; Key "fields"; Key "sOnPickTankUnknownCaption"] definition
  = Ok (JStr (caption pickup)) /\
  forall p, forallb (fun place => leaves place p) edited_places = true ->
            Json.getpath p definition = Json.getpath p template.
Proof.
  unfold new_template. intros H.
  rbind_inv H. rename x into t, Hx into Hname.
  rbind_inv H. rename x into P0, Hx into HP0.
  rbind_inv H. rename x into P1, Hx into HP1.
  rbind_inv H. rename x into P2, Hx into HP2.
  rbind_inv H. rename x into params, Hx into Hparams.
  rbind_inv H. rename x into params', Hx into Hblock.
  rbind_inv H. rename x into P3, Hx into HP3.
  destruct (update_getpath _ _ _ _ H) as (c & c' & _ & [= <-] & Hget).
  assert (Hcaption2 : Json.getpath [Key "fields"; Key "fields";
                                    Key "sOnPickTankUnknownCaption"] P3
                      = Ok (JStr (caption pickup))).
  { rewrite (update_leaves _ _ _ _ _ HP3) by reflexivity.
    apply (update_setitem_eq [Key "fields"; Key "fields"] _ _ _ _ HP2). }
  assert (Hcaption1 : Json.getpath [Key "fields"; Key "fields"; Key "sOnPickCaption"] P3
                      = Ok (JStr (caption pickup))).
  { rewrite (update_leaves _ _ _ _ _ HP3) by reflexivity.
    rewrite (update_setitem_leaves [Key "fields"; Key "fields"] _ _ _ _ _ HP2) by reflexivity.
    apply (update_setitem_eq [Key "fields"; Key "fields"] _ _ _ _ HP1). }
  split.
  { rewrite (update_leaves _ _ _ _ _ H) by reflexivity.
    cbn [Json.getpath Json.select]. by rewrite (getitem_setitem_eq _ _ _ _ Hname). }
  split.
  { change (Json.getpath (pickable_path ++ [Key "fields"; Key "fields";
                                            Key "sOnPickCaption"]) definition
            = Ok (JStr (caption pickup))).
    by rewrite getpath_app, Hget. }
  split.
  { change (Json.getpath (pickable_path ++ [Key "fields"; Key "fields";
                                            Key "sOnPickTankUnknownCaption"]) definition
            = Ok (JStr (caption pickup))).
    by rewrite getpath_app, Hget. }
  intros p Hp. unfold edited_places in Hp. cbn [forallb] in Hp.
  apply andb_prop in Hp as [Hn Hp]. apply andb_prop in Hp as [H1 Hp].
  apply andb_prop in Hp as [H2 Hp]. apply andb_prop in Hp as [H3 _].
  rewrite <- (setitem_leaves _ _ _ _ _ Hname Hn).
  apply leaves_app in H1 as [Hl|(p' & -> & H1)].
  { by apply (update_leaves _ _ _ _ _ H). }
  rewrite leaves_app_same in H2, H3.
  rewrite !getpath_app, Hget, HP0. simpl.
  rewrite (update_leaves _ _ _ _ _ HP3 H3).
  rewrite (update_setitem_leaves [Key "fields"; Key "fields"] _ _ _ _ _ HP2 H2).
  apply (update_setitem_leaves [Key "fields"; Key "fields"] _ _ _ _ _ HP1 H1).
Qed.

Lemma pickup_definition_is_the_template_elsewhere_witness :
  exists definition,
    new_template Sample.template 1 Sample.missiles = Ok definition /\
    Json.getpath [Key "name"] definition = Ok (JStr "randomizer_powerup_1") /\
    Json.getpath [Key "property"; Key "components"; Key "PICKABLE";
                  Key "fields"; Key "fields"; Key "sOnPickCaption"] definition
    = Ok (JStr "Missile Tank acquired.") /\
    Json.getpath [Key "property"; Key "components"; Key "PICKABLE";
                  Key "fields"; Key "fields"; Key "sOnPickFX"] definition
    = Ok (JStr "fx") /\
    Json.getpath [Key "property"; Key "components"; Key "PICKABLE";
                  Key "functions"; Index 0; Key "name"] definition
    = Ok (JStr "SetCustomParams").
Proof.
  destruct (new_template Sample.template 1 Sample.missiles) as [definition|e] eqn:Hdef;
    [|vm_compute in Hdef; discriminate].
  destruct (pickup_definition_is_the_template_elsewhere _ _ _ _ Hdef)
    as (Hname & Hcaption & _ & Hframe).
  exists definition. split; [reflexivity|]. split; [exact Hname|].
  split; [exact Hcaption|].
  split; rewrite Hframe; reflexivity.
Defined.

(** ** The parameter block: what it leaves alone, and its errors *)

Lemma set_param_value_leaves name v p params params' :
  set_param_value name v params = Ok params' ->
  leaves [Key name; Key "value"] p = true ->
  Json.getpath p params' = Json.getpath p params.
Proof. intros H. apply (update_setitem_leaves [Key name] _ _ _ _ _ H). Qed.

Lemma forallb_leaves_app (places more : list (list selector)) p :
  forallb (fun place => leaves place p) (places ++ more) = true ->
  forallb (fun place => leaves place p) places = true /\
  forallb (fun place => leaves place p) more = true.
Proof. rewrite forallb_app. apply andb_prop. Qed.

(** X13: the parameter block assigns values and nothing else: whatever
    lies along a path that leaves, on the way, the value of each
    parameter assigned for the item and Param13 reads after the block as
    before it; so the parameters that are not assigned stay as they
    are, and those assigned keep their type. *)
Theorem parameter_block_assigns_values_only (item : string) (qty : pynum)
    (params params' : json) :
  set_custom_params item qty params = Ok params' ->
  (forall p, forallb (fun place => leaves place p) (assigned_places item) = true ->
             Json.getpath p params' = Json.getpath p params) /\
  (forall name, ~ In name (assigned_params item) -> name <> "Param13" ->
                Json.getitem name params' = Json.getitem name params) /\
  (forall name, name <> "Param13" ->
                Json.getpath [Key name; Key "type"] params'
                = Json.getpath [Key name; Key "type"] params).
Proof.
  intros H.
  assert (Hframe : forall p,
            forallb (fun place => leaves place p) (assigned_places item) = true ->
            Json.getpath p params' = Json.getpath p params).
  { intros p Hp. unfold assigned_places, assigned_params in Hp.
    rewrite map_app in Hp.
    apply forallb_leaves_app in Hp as [Hp H13].
    apply forallb_leaves_app in Hp as [Hitem Hcommon].
    cbn [map forallb] in Hcommon, H13.
    apply andb_prop in Hcommon as [H1 Hcommon]. apply andb_prop in Hcommon as [H2 _].
    apply andb_prop in H13 as [H13 _].
    apply set_custom_params_inv in H as (qty' & p0 & p1 & p2 & H0 & Hq & Hs1 & Hs2 & Hs13).
    assert (Hlast : Json.getpath p params' = Json.getpath p p2).
    { destruct (PyNum.gt_one qty').
      - by apply (setitem_leaves _ _ _ _ _ Hs13).
      - by injection Hs13 as <-. }
    rewrite Hlast, (set_param_value_leaves _ _ _ _ _ Hs2 H2),
      (set_param_value_leaves _ _ _ _ _ Hs1 H1).
    clear Hs1 Hs2 Hs13 Hlast. unfold item_overrides in H0.
    destruct (String.eqb item "ITEM_ENERGY_TANKS").
    - cbn [map forallb] in Hitem.
      apply andb_prop in Hitem as [H4 Hitem]. apply andb_prop in Hitem as [H5 Hitem].
      apply andb_prop in Hitem as [H6 _].
      rbind_inv H0. rbind_inv H0. rbind_inv H0. rbind_inv H0. injection H0 as _ _ <-.
      rewrite (set_param_value_leaves _ _ _ _ _ Hx2 H6),
        (set_param_value_leaves _ _ _ _ _ Hx1 H5).
      apply (set_param_value_leaves _ _ _ _ _ Hx0 H4).
    - destruct (String.eqb item "ITEM_WEAPON_MISSILE_MAX"
                || String.eqb item "ITEM_WEAPON_POWER_BOMB_MAX").
      + cbn [map forallb] in Hitem.
        apply andb_prop in Hitem as [H4 Hitem]. apply andb_prop in Hitem as [H5 Hitem].
        apply andb_prop in Hitem as [H8 _].
        rbind_inv H0. rbind_inv H0. rbind_inv H0. injection H0 as _ _ <-.
        rewrite (set_param_value_leaves _ _ _ _ _ Hx1 H8),
          (set_param_value_leaves _ _ _ _ _ Hx0 H5).
        apply (set_param_value_leaves _ _ _ _ _ Hx H4).
      + by injection H0 as _ _ <-. }
  split; [exact Hframe|]. split.
  - intros name Hnot H13.
    assert (Json.getpath [Key name] params' = Json.getpath [Key name] params) as Hp.
    { apply Hframe. unfold assigned_places. rewrite forallb_app. apply andb_true_intro. split.
      - rewrite forallb_forall. intros place Hin.
        apply in_map_iff in Hin as (n & <- & Hin). simpl.
        destruct (String.eqb n name) eqn:E; [|done].
        apply String.eqb_eq in E. subst n. by destruct Hnot.
      - cbn [forallb leaves]. destruct (String.eqb "Param13" name) eqn:E; [|done].
        apply String.eqb_eq in E. by subst name. }
    simpl in Hp.
    destruct (Json.getitem name params'), (Json.getitem name params); by inversion Hp.
  - intros name H13. apply Hframe.
    unfold assigned_places. rewrite forallb_app. apply andb_true_intro. split.
    + rewrite forallb_forall. intros place Hin.
      apply in_map_iff in Hin as (n & <- & Hin). simpl.
      by destruct (String.eqb n name).
    + cbn [forallb leaves]. destruct (String.eqb "Param13" name) eqn:E; [|done].
      apply String.eqb_eq in E. by subst name.
Qed.

Lemma parameter_block_assigns_values_only_witness :
  exists params',
    set_custom_params "ITEM_ENERGY_TANKS" (PInt 1) Sample.params = Ok params' /\
    Json.getitem "Param8" params' = Ok (Sample.slot "s" (JStr "NONE")) /\
    Json.getpath [Key "Param2"; Key "type"] params' = Ok (JStr "f").
Proof.
  destruct (set_custom_params "ITEM_ENERGY_TANKS" (PInt 1) Sample.params)
    as [params'|e] eqn:Hblock; [|vm_compute in Hblock; discriminate].
  destruct (parameter_block_assigns_values_only _ _ _ _ Hblock) as (_ & Hother & Htype).
  exists params'. split; [reflexivity|]. split.
  - rewrite Hother; [reflexivity| |discriminate].
    cbn. intros [H|[H|[H|[H|[H|[]]]]]]; discriminate.
  - rewrite Htype; [reflexivity|discriminate].
Defined.

Lemma set_param_value_missing name v d :
  PyDict.get name d = None -> set_param_value name v (JDict d) = Raise (KeyError name).
Proof. intros H. unfold set_param_value. simpl. unfold PyDict.getitem. by rewrite H. Qed.

(** One assignment of the block, on a dict that has the parameter: it
    goes through, the parameters in place stay in place and a parameter
    that is missing stays missing. *)
Lemma set_param_value_next name v d missing :
  has_slot d name = true ->
  PyDict.get missing d = None ->
  exists d', set_param_value name v (JDict d) = Ok (JDict d') /\
             PyDict.get missing d' = None /\
             forall names, forallb (has_slot d) names = true ->
                           forallb (has_slot d') names = true.
Proof.
  intros Hslot Hmissing. unfold has_slot in Hslot.
  destruct (PyDict.get name d) as [[| | | | |e]|] eqn:E; try discriminate.
  exists (PyDict.set name (JDict (PyDict.set "value" v e)) d).
  split; [by apply set_param_value_ok|]. split.
  - rewrite PyDictFacts.get_set_ne; [done|]. intros ->. congruence.
  - intros names. rewrite !forallb_forall. intros H n Hin. apply has_slot_set. auto.
Qed.

Ltac next_param Hslot Hslots Hmissing :=
  match goal with
  | |- context [set_param_value ?name ?v (JDict ?d)] =>
      let d' := fresh "d" in
      let Hset := fresh "Hset" in
      let Hkept := fresh "Hkept" in
      let Hnone := fresh "Hnone" in
      destruct (set_param_value_next name v d _ Hslot Hmissing)
        as (d' & Hset & Hnone & Hkept);
      rewrite Hset; cbn [rbind];
      apply Hkept in Hslots;
      clear Hset Hkept Hslot Hmissing; rename Hnone into Hmissing
  end.

(** X14: the parameter block assigns the parameters of the item in the
    order of the code and stops at the first that the template lacks,
    with the KeyError of its name. *)
Theorem parameter_block_stops_at_missing_parameter (item : string) (qty qty' : pynum)
    (d : list (string * json)) (before after : list string) (missing : string) :
  assigned_params item = before ++ missing :: after ->
  forallb (has_slot d) before = true ->
  PyDict.get missing d = None ->
  rewritten_quantity item qty = Ok qty' ->
  set_custom_params item qty (JDict d) = Raise (KeyError missing).
Proof.
  unfold assigned_params, rewritten_quantity, set_custom_params, item_overrides.
  intros Hnames Hslots Hmissing Hqty.
  assert (Hstop : forall v d0, PyDict.get missing d0 = None ->
                    set_param_value missing v (JDict d0) = Raise (KeyError missing))
    by (intros; by apply set_param_value_missing).
  destruct (String.eqb item "ITEM_ENERGY_TANKS");
    [rewrite Hqty
    |destruct (String.eqb item "ITEM_WEAPON_MISSILE_MAX"
               || String.eqb item "ITEM_WEAPON_POWER_BOMB_MAX")];
    cbn [app] in Hnames.
  all: repeat
    (cbn [rbind];
     destruct before as [|name before];
     [ injection Hnames as <- _; rewrite Hstop by done; reflexivity
     | injection Hnames as <- Hnames;
       cbn [forallb] in Hslots; apply andb_prop in Hslots as [Hslot Hslots];
       next_param Hslot Hslots Hmissing ]).
  all: by destruct before.
Qed.

Lemma parameter_block_stops_at_missing_parameter_witness :
  assigned_params "ITEM_WEAPON_MISSILE_MAX" = ["Param4"; "Param5"] ++ "Param8" :: ["Param1"; "Param2"] /\
  set_custom_params "ITEM_WEAPON_MISSILE_MAX" (PInt 2)
    (JDict [ ("Param2", Sample.slot "f" (JNum (PFloat 0)));
             ("Param4", Sample.slot "s" (JStr "Set"));
             ("Param5", Sample.slot "s" (JStr "NONE")) ])
  = Raise (KeyError "Param8").
Proof.
  split; [reflexivity|].
  apply (parameter_block_stops_at_missing_parameter "ITEM_WEAPON_MISSILE_MAX" (PInt 2) (PInt 2)
           _ ["Param4"; "Param5"] ["Param1"; "Param2"] "Param8");
    reflexivity.
Defined.

(** ** The run of patch: the export and the script *)

Lemma no_save_among calls0 :
  forallb (fun c => negb (is_save c)) calls0 = true -> existsb is_save calls0 = false.
Proof.
  induction calls0 as [|c h IH]; simpl; [done|].
  intros H. apply andb_prop in H as [Hc Hh]. rewrite (IH Hh).
  by destruct (is_save c).
Qed.

Lemma flush_modified_assets_empties repo s s' :
  flush_modified_assets repo s = (Ok tt, s') -> memory_files s' = [].
Proof.
  unfold flush_modified_assets. intros H.
  apply bind_ok_inv in H as (files & s0 & _ & H).
  apply bind_ok_inv in H as (u & s1 & _ & H).
  unfold set_memory_files in H. by injection H as <-.
Qed.

Lemma patch_edits_empties repo assets configuration s s' :
  patch_edits repo assets configuration s = (Ok tt, s') -> memory_files s' = [].
Proof.
  unfold patch_edits. intros H.
  apply bind_ok_inv in H as (u1 & s1 & _ & H).
  apply bind_ok_inv in H as (script & s2 & _ & H).
  apply bind_ok_inv in H as (bytes & s3 & _ & H).
  apply bind_ok_inv in H as (u4 & s4 & _ & H).
  apply bind_ok_inv in H as (u5 & s5 & _ & H).
  apply bind_ok_inv in H as (u6 & s6 & _ & H).
  by apply flush_modified_assets_empties in H.
Qed.

(** X15: the export is the last step of a run of [patch] and follows
    the commit: a run that succeeds, or in which the export was called
    at all, had a configuration that the schema accepts, a tree that
    opened, edits that all went through and were committed, so that the
    cache is empty, and a directory to remove at the romfs directory of
    the output; the export is called once, for that directory, after
    every other call, and its answer is that of the run. *)
Theorem export_follows_the_commit (open_tree : string -> result Repository)
    (assets : Assets) (romfs_entry : fs_entry) (input_path output_path : string)
    (configuration : Configuration) :
  is_ok (fst (patch open_tree assets romfs_entry input_path output_path configuration)) = true
  \/ existsb is_save
       (calls (snd (patch open_tree assets romfs_entry input_path output_path configuration)))
     = true ->
  exists repo s,
    schema_accepts assets configuration = true /\
    open_tree input_path = Ok repo /\
    patch_edits repo assets configuration new_editor = (Ok tt, s) /\
    memory_files s = [] /\
    romfs_entry = Directory /\
    existsb is_save (calls s) = false /\
    patch open_tree assets romfs_entry input_path output_path configuration
    = (save_modified_pkgs repo (calls s) (joinpath output_path "romfs"),
       {| calls := SaveModifiedPkgs (joinpath output_path "romfs") :: calls s;
          memory_files := [] |}).
Proof.
  unfold patch.
  destruct (schema_accepts assets configuration); simpl; [|by intros [|]].
  destruct (open_tree input_path) as [repo|e]; [|by intros [|]].
  unfold patch_stages, bind.
  destruct (patch_edits_emits repo assets configuration new_editor) as (new & Hcalls & Hnew).
  rewrite app_nil_r in Hcalls.
  assert (Hquiet : existsb is_save
                     (calls (snd (patch_edits repo assets configuration new_editor))) = false).
  { rewrite Hcalls. by apply no_save_among. }
  destruct (patch_edits repo assets configuration new_editor) as [[[]|e] s] eqn:Hedits;
    cbn [snd fst] in *.
  - pose proof (patch_edits_empties _ _ _ _ _ Hedits) as Hempty.
    destruct romfs_entry; simpl.
    + rewrite Hquiet. by intros [|].
    + intros _. exists repo, s. do 6 (split; [done|]).
      unfold editor_save_modified_pkgs, invoke. by rewrite Hempty.
    + rewrite Hquiet. by intros [|].
  - rewrite Hquiet. by intros [|].
Qed.

Lemma export_follows_the_commit_witness :
  exists s,
    patch_edits Sample.repo Sample.assets Sample.configuration new_editor = (Ok tt, s) /\
    memory_files s = [] /\
    existsb is_save (calls s) = false /\
    patch (fun _ => Ok Sample.repo) Sample.assets Directory "in" "out" Sample.configuration
    = (Ok tt, {| calls := SaveModifiedPkgs "out/romfs" :: calls s; memory_files := [] |}).
Proof.
  destruct (export_follows_the_commit (fun _ => Ok Sample.repo) Sample.assets Directory
              "in" "out" Sample.configuration)
    as (repo & s & _ & Hrepo & Hedits & Hempty & _ & Hquiet & Hrun).
  { left. vm_compute. reflexivity. }
  injection Hrepo as <-.
  exists s. split; [exact Hedits|]. split; [exact Hempty|]. split; [exact Hquiet|].
  rewrite Hrun. reflexivity.
Defined.

Lemma scene_key_is_not_init scenario :
  String.eqb (scene_key scenario) init_lc = false.
Proof. unfold scene_key, path_for_level. rewrite !app_cons. reflexivity. Qed.

Lemma filter_replace_of_quiet name c h :
  is_replace c = false ->
  List.filter (is_replace_of name) (c :: h) = List.filter (is_replace_of name) h.
Proof. intros Hc. simpl. by destruct c. Qed.

(** X16: in a run whose edits go through, init.lc is written back once
    in all, and what is written is the script that the injector made
    from the starting items and the starting location of the
    configuration, a text of ASCII characters; the commit of the cache
    does not write it again. *)
Theorem init_script_written_once (repo : Repository) (assets : Assets)
    (configuration : Configuration) (s : PatcherEditor) :
  patch_edits repo assets configuration new_editor = (Ok tt, s) ->
  exists script,
    create_custom_init (custom_init_lua assets) (starting_items configuration)
      (starting_location configuration) = Ok script /\
    encode_ascii script = Ok script /\
    List.filter (is_replace_of "system/scripts/init.lc") (calls s)
    = [ReplaceAsset "system/scripts/init.lc" (DataBytes script)].
Proof.
  intros H. unfold patch_edits in H.
  apply bind_ok_inv in H as (u1 & s1 & Hcopy & H).
  apply bind_ok_inv in H as (script & s2 & Hscript & H).
  apply lift_ok_inv in Hscript as [Hscript ->].
  apply bind_ok_inv in H as (bytes & s3 & Hbytes & H).
  apply lift_ok_inv in Hbytes as [Hbytes ->].
  apply bind_ok_inv in H as (u4 & s4 & Hwrite & H).
  unfold editor_replace_asset, invoke in Hwrite. injection Hwrite as _ <-.
  assert (bytes = script) as ->.
  { unfold encode_ascii in Hbytes. destruct (forallb _ _); by inversion Hbytes. }
  exists script. split; [done|]. split; [done|].
  set (W := fun written (h : list call) =>
              List.filter (is_replace_of "system/scripts/init.lc") h = written).
  assert (Wq : forall written c h, is_replace c = false -> W written h -> W written (c :: h)).
  { intros written c h Hc Hh. unfold W. by rewrite filter_replace_of_quiet. }
  assert (Ws : forall written name data h,
            is_scene_key name -> W written h -> W written (ReplaceAsset name data :: h)).
  { intros written name data h [scenario ->] Hh. unfold W.
    pose proof (scene_key_is_not_init scenario) as Hne. unfold init_lc in Hne.
    cbn [List.filter is_replace_of]. by rewrite Hne. }
  pose proof (create_init_copy_keeps repo (W []) (Wq []) new_editor) as [Hkeys1 Hcalls1].
  { split; [constructor | reflexivity]. }
  rewrite Hcopy in Hkeys1, Hcalls1. cbn [snd] in Hkeys1, Hcalls1.
  pose proof (patch_edits_tail_keeps repo assets
                (W [ReplaceAsset "system/scripts/init.lc" (DataBytes script)])
                (Wq _) (Ws _) configuration
                {| calls := ReplaceAsset init_lc (DataBytes script) :: calls s1;
                   memory_files := memory_files s1 |}) as [_ Hcalls].
  { split; [exact Hkeys1|]. unfold W. simpl. unfold W in Hcalls1. by rewrite Hcalls1. }
  assert (E : snd ((match elevators configuration with
                    | Some elevators_config => patch_elevators repo elevators_config
                    | None => ret tt
                    end ;;
                    patch_pickups repo assets (pickups configuration) ;;
                    flush_modified_assets repo)%ed
                     {| calls := ReplaceAsset init_lc (DataBytes script) :: calls s1;
                        memory_files := memory_files s1 |}) = s)
    by exact (f_equal snd H).
  rewrite E in Hcalls. exact Hcalls.
Qed.

Lemma init_script_written_once_witness :
  exists script,
    create_custom_init (custom_init_lua Sample.assets) (starting_items Sample.configuration)
      (starting_location Sample.configuration) = Ok script /\
    List.filter (is_replace_of "system/scripts/init.lc")
      (calls (snd (patch_edits Sample.repo Sample.assets Sample.configuration new_editor)))
    = [ReplaceAsset "system/scripts/init.lc" (DataBytes script)].
Proof.
  destruct (init_script_written_once Sample.repo Sample.assets Sample.configuration
              (snd (patch_edits Sample.repo Sample.assets Sample.configuration new_editor)))
    as (script & Hscript & _ & Hwritten).
  { vm_compute. reflexivity. }
  exists script. split; [exact Hscript | exact Hwritten].
Defined.
